(** * mcp-azure-devops: the tool catalog, the dispatcher and its helpers

    A shallow embedding of [src/server.ts] and [src/shared/auth.ts].

    JavaScript strings are sequences of UTF-16 code units; a code unit is a
    number ([N]).  [js] turns a Rocq string literal (one code unit per
    character, all below 256) into such a sequence. *)

From Stdlib Require Import List String Ascii NArith ZArith Lia Bool.
From Stdlib Require DecimalNat DecimalFacts.
Import ListNotations.

Set Implicit Arguments.

Open Scope string_scope.
Open Scope list_scope.

(* ================================================================== *)
(** ** JavaScript strings *)

Module JsString.

Definition jsstr := list N.

Definition js (s : string) : jsstr := map N_of_ascii (list_ascii_of_string s).

Definition eqb (a b : jsstr) : bool :=
  if list_eq_dec N.eq_dec a b then true else false.

(** [s.split(sep)] for a separator of one code unit: at least one piece. *)
Fixpoint split_on (sep : N) (s : jsstr) : list jsstr :=
  match s with
  | [] => [[]]
  | c :: s' =>
      if N.eqb c sep then [] :: split_on sep s'
      else match split_on sep s' with
           | p :: ps => (c :: p) :: ps
           | [] => [[c]]
           end
  end.

(** ECMAScript LineTerminator: LF, CR, U+2028, U+2029. *)
Definition is_line_terminator (c : N) : bool :=
  existsb (N.eqb c) [10; 13; 8232; 8233]%N.

(** ECMAScript WhiteSpace and LineTerminator: what [trim] removes and what
    [\s] matches. *)
Definition is_ws (c : N) : bool :=
  existsb (N.eqb c) [9; 11; 12; 32; 160; 5760; 8239; 8287; 12288; 65279]%N
  || (N.leb 8192 c && N.leb c 8202)
  || is_line_terminator c.

(** [\d] *)
Definition is_digit (c : N) : bool := N.leb 48 c && N.leb c 57.

(** [.] without the [s] flag *)
Definition is_dot (c : N) : bool := negb (is_line_terminator c).

Fixpoint drop_while (p : N -> bool) (s : jsstr) : jsstr :=
  match s with
  | c :: s' => if p c then drop_while p s' else s
  | [] => []
  end.

Definition trim_start (s : jsstr) : jsstr := drop_while is_ws s.
Definition trim_end (s : jsstr) : jsstr := rev (drop_while is_ws (rev s)).
Definition trim (s : jsstr) : jsstr := trim_end (trim_start s).

(** [s.includes(t)] *)
Fixpoint is_prefix (t s : jsstr) : bool :=
  match t, s with
  | [], _ => true
  | a :: t', b :: s' => N.eqb a b && is_prefix t' s'
  | _ :: _, [] => false
  end.

Fixpoint includes (s t : jsstr) : bool :=
  is_prefix t s ||
  match s with
  | [] => false
  | _ :: s' => includes s' t
  end.

(** Decimal rendering of a non-negative integer, as a template literal
    prints it. *)
Fixpoint uint_units (d : Decimal.uint) : jsstr :=
  match d with
  | Decimal.Nil => []
  | Decimal.D0 d => 48%N :: uint_units d
  | Decimal.D1 d => 49%N :: uint_units d
  | Decimal.D2 d => 50%N :: uint_units d
  | Decimal.D3 d => 51%N :: uint_units d
  | Decimal.D4 d => 52%N :: uint_units d
  | Decimal.D5 d => 53%N :: uint_units d
  | Decimal.D6 d => 54%N :: uint_units d
  | Decimal.D7 d => 55%N :: uint_units d
  | Decimal.D8 d => 56%N :: uint_units d
  | Decimal.D9 d => 57%N :: uint_units d
  end.

Definition of_nat (n : nat) : jsstr := uint_units (Nat.to_uint n).

End JsString.

Import JsString.

(* ================================================================== *)
(** ** Backtracking matcher for the one regular expression of the file *)

Module Regex.

(** [p*] followed by [k], greedy: the longest run first, shorter runs when
    the continuation fails. *)
Fixpoint star (p : N -> bool) (k : jsstr -> option jsstr) (s : jsstr)
  : option jsstr :=
  match s with
  | c :: s' =>
      if p c then
        match star p k s' with
        | Some r => Some r
        | None => k s
        end
      else k s
  | [] => k s
  end.

(** [p+] followed by [k]. *)
Definition plus (p : N -> bool) (k : jsstr -> option jsstr) (s : jsstr)
  : option jsstr :=
  match s with
  | c :: s' => if p c then star p k s' else None
  | [] => None
  end.

(** one literal code unit followed by [k]. *)
Definition lit (c : N) (k : jsstr -> option jsstr) (s : jsstr)
  : option jsstr :=
  match s with
  | c' :: s' => if N.eqb c' c then k s' else None
  | [] => None
  end.

(** [(.+)$]: the group is the whole remaining input when the run of [.]
    reaches the end of the input. *)
Definition capture_dots_to_end (s : jsstr) : option jsstr :=
  plus is_dot (fun rest => match rest with [] => Some s | _ :: _ => None end) s.

(** [/^(\d+)\.\s*(.+)$/]: the second group of the match, if any. *)
Definition step_regex (s : jsstr) : option jsstr :=
  plus is_digit (lit 46 (star is_ws capture_dots_to_end)) s.

End Regex.

(* ================================================================== *)
(** ** The step-text transformation ([convertStepsToXml], [escapeXml]) *)

Module Steps.

Definition entity_table : list (N * jsstr) :=
  [ (60%N, js "&lt;"); (62%N, js "&gt;"); (38%N, js "&amp;");
    (39%N, js "&apos;"); (34%N, js "&quot;") ].

Fixpoint table_get (c : N) (t : list (N * jsstr)) : option jsstr :=
  match t with
  | [] => None
  | (k, v) :: t' => if N.eqb c k then Some v else table_get c t'
  end.

(** the character class of the pattern: less-than, greater-than, ampersand,
    apostrophe, double quote *)
Definition is_special (c : N) : bool :=
  existsb (N.eqb c) [60; 62; 38; 39; 34]%N.

(** the replacement callback: [({...})[c] || c] *)
Definition escape_unit (c : N) : jsstr :=
  match table_get c entity_table with
  | Some ((_ :: _) as e) => e
  | _ => [c]
  end.

(** [s.replace(re, callback)] with the global flag: every code unit of the
    class is replaced by what the callback returns for it *)
Fixpoint escapeXml (s : jsstr) : jsstr :=
  match s with
  | [] => []
  | c :: s' => (if is_special c then escape_unit c else [c]) ++ escapeXml s'
  end.

Definition placeholder : jsstr := js "Verify step completes successfully".

(** [lines[i].split("|").map(s => s.trim())] *)
Definition fields (line : jsstr) : list jsstr := map trim (split_on 124 line).

(** [stepPart]: the first field; [split] always yields one. *)
Definition stepPart (line : jsstr) : jsstr := nth 0 (fields line) [].

(** [expectedPart]: the second field, [undefined] when there is none. *)
Definition expectedPart (line : jsstr) : option jsstr := nth_error (fields line) 1.

Definition stepText (line : jsstr) : jsstr :=
  match Regex.step_regex (stepPart line) with
  | Some g2 => g2
  | None => stepPart line
  end.

(** [expectedPart || "Verify step completes successfully"] *)
Definition expectedText (line : jsstr) : jsstr :=
  match expectedPart line with
  | Some ((_ :: _) as e) => e
  | _ => placeholder
  end.

(** [ name="value"] inside a tag *)
Definition attr (name : string) (value : jsstr) : jsstr :=
  js " " ++ js name ++ js "=" ++ [34%N] ++ value ++ [34%N].

Definition parameterizedString (text : jsstr) : jsstr :=
  js "<parameterizedString" ++ attr "isformatted" (js "true") ++ js ">"
  ++ text ++ js "</parameterizedString>".

(** the template of one step, given its [id] and its two texts *)
Definition step_element (id : nat) (step expected : jsstr) : jsstr :=
  js "<step" ++ attr "id" (of_nat id) ++ attr "type" (js "ActionStep")
  ++ js ">"
  ++ parameterizedString (escapeXml step)
  ++ parameterizedString (escapeXml expected)
  ++ js "</step>".

(** the markup appended for [lines[i]] *)
Definition step_markup (i : nat) (line : jsstr) : jsstr :=
  step_element (i + 1) (stepText line) (expectedText line).

(** the [for] loop: [i] counts up while [xml] grows *)
Fixpoint steps_loop (i : nat) (lines : list jsstr) (xml : jsstr) : jsstr :=
  match lines with
  | [] => xml
  | line :: rest => steps_loop (S i) rest (xml ++ step_markup i line)
  end.

(** [l => l.trim()] as a filter predicate: a non-empty string is truthy *)
Definition non_blank (l : jsstr) : bool :=
  match trim l with [] => false | _ :: _ => true end.

(** [steps.split("\n").filter(l => l.trim())] *)
Definition step_lines (steps : jsstr) : list jsstr :=
  filter non_blank (split_on 10 steps).

(** the opening tag, [last] being [lines.length] *)
Definition steps_open (last : nat) : jsstr :=
  js "<steps" ++ attr "id" (js "0") ++ attr "last" (of_nat last) ++ js ">".

Definition convertStepsToXml (steps : jsstr) : jsstr :=
  let lines := step_lines steps in
  let xml := steps_open (List.length lines) in
  steps_loop 0 lines xml ++ js "</steps>".

End Steps.

(* ================================================================== *)
(** ** JavaScript values, thrown values and outcomes *)

Module Js.

(** JSON-shaped values: what a tool call carries and what the SDK hands
    back.  Numbers are integers.  [JNative] is a built-in function or object
    reached through the prototype chain. *)
#[warnings="-register-all"]
Inductive JsVal : Type :=
| JUndefined
| JNull
| JBool (b : bool)
| JNum (z : Z)
| JStr (s : jsstr)
| JArr (items : list JsVal)
| JObj (fields : list (jsstr * JsVal))
| JNative (name : jsstr).

(** ToBoolean *)
Definition truthy (v : JsVal) : bool :=
  match v with
  | JUndefined | JNull => false
  | JBool b => b
  | JNum z => negb (Z.eqb z 0)
  | JStr s => match s with [] => false | _ :: _ => true end
  | JArr _ | JObj _ | JNative _ => true
  end.

(** [a || b] *)
Definition js_or (a b : JsVal) : JsVal := if truthy a then a else b.

Fixpoint assoc (k : jsstr) (fields : list (jsstr * JsVal)) : option JsVal :=
  match fields with
  | [] => None
  | (k', v) :: rest => if JsString.eqb k k' then Some v else assoc k rest
  end.

(** An argument bag: the own properties of the [arguments] object. *)
Definition Args := list (jsstr * JsVal).

(** a destructured name: [const { k } = args] *)
Definition arg (args : Args) (k : string) : JsVal :=
  match assoc (js k) args with
  | Some v => v
  | None => JUndefined
  end.

(** a destructured name with a default: [const { k = d } = args]; the
    default replaces [undefined] only *)
Definition arg_or (args : Args) (k : string) (d : JsVal) : JsVal :=
  match arg args k with
  | JUndefined => d
  | v => v
  end.

(** What ends a computation early.  A [throw] carries an [Error] instance
    with its [message], or any other value.  An ['error'] event that is
    emitted while nobody listens for it is thrown by the event loop, outside
    every [try] of the program: no [catch] sees it and the process ends. *)
Inductive Thrown : Type :=
| ErrorObj (message : jsstr)
| NotAnError (v : JsVal)
| Unhandled (v : JsVal).

(** a [TypeError] raised by the language itself *)
Definition TypeError (message : string) : Thrown := ErrorObj (js message).

Inductive Outcome (A : Type) : Type :=
| Ret (a : A)
| Throw (e : Thrown).
Arguments Ret {A} a.
Arguments Throw {A} e.

(** The code points a string iterates over: a high surrogate followed by a
    low surrogate is one item. *)
Fixpoint code_points (s : jsstr) : list jsstr :=
  match s with
  | [] => []
  | c :: s' =>
      match s' with
      | d :: s'' =>
          if (N.leb 55296 c && N.leb c 56319 && N.leb 56320 d && N.leb d 57343)%bool
          then match code_points s' with
               | _ :: tl => [c; d] :: tl
               | [] => [[c; d]]
               end
          else [c] :: code_points s'
      | [] => [[c]]
      end
  end.

(** ToPrimitive on a JSON-shaped value: it throws exactly when no method
    gives a primitive.  An object of a tool call has no function of its
    own, so its own [toString] hides the inherited one and makes the
    conversion throw (the inherited [valueOf] returns the object itself);
    an array is joined, which converts its elements, [null] and
    [undefined] to the empty text. *)
Fixpoint convertible (v : JsVal) : bool :=
  match v with
  | JObj fields =>
      match assoc (js "toString") fields with
      | Some _ => false
      | None => true
      end
  | JArr items => forallb convertible items
  | _ => true
  end.

(** The member names every object literal inherits from [Object.prototype]. *)
Definition object_prototype_members : list jsstr :=
  map js [ "constructor"; "hasOwnProperty"; "isPrototypeOf";
           "propertyIsEnumerable"; "toLocaleString"; "toString"; "valueOf";
           "__defineGetter__"; "__defineSetter__"; "__lookupGetter__";
           "__lookupSetter__"; "__proto__" ]%string.

(** [table[key]] on an object literal of numbers: the own property, else the
    inherited member, else [undefined]. *)
Fixpoint own_number (key : jsstr) (table : list (string * Z)) : option Z :=
  match table with
  | [] => None
  | (k, v) :: rest => if JsString.eqb key (js k) then Some v else own_number key rest
  end.

Definition table_lookup (table : list (string * Z)) (key : jsstr) : JsVal :=
  match own_number key table with
  | Some v => JNum v
  | None =>
      if existsb (JsString.eqb key) object_prototype_members
      then JNative key
      else JUndefined
  end.

(** [Array.prototype.slice(start, end)] with integer bounds *)
Definition relative_index (len i : Z) : Z :=
  if Z.ltb i 0 then Z.max (len + i) 0 else Z.min i len.

Definition slice {A : Type} (start end_ : Z) (l : list A) : list A :=
  let len := Z.of_nat (List.length l) in
  let from := relative_index len start in
  let to := relative_index len end_ in
  firstn (Z.to_nat (to - from)) (skipn (Z.to_nat from) l).

End Js.

Import Js.

(* ================================================================== *)
(** ** What a handler does: downstream requests, in order *)

Module World.

(** One downstream request: an SDK method, an API getter of the connection
    or a raw [fetch], with its operands. *)
Record Call : Type := mkCall { target : jsstr; operands : list JsVal }.

(** The downstream requests issued so far, oldest first. *)
Definition Trace := list Call.

(** What lies outside the repository: the service behind the SDK and
    [fetch], and the built-ins of the language whose results no handler
    inspects. *)
Class Host : Type := {
  (** the answer to a request, given the requests before it *)
  service : Trace -> Call -> Outcome JsVal;
  (** [JSON.stringify(v, null, 2)]: a string, or [undefined] *)
  JSON_stringify : JsVal -> JsVal;
  (** the text ToString gives for a value that has a primitive (see
      [convertible]) *)
  ToString : JsVal -> jsstr;
  (** [String.prototype.toLowerCase] *)
  toLowerCase : jsstr -> jsstr;
  (** [new Date(v)] for a value that has a primitive *)
  new_Date : JsVal -> JsVal;
  (** the message of the [TypeError] the engine raises when the operation
      named fails on a value *)
  engine_message : string -> JsVal -> jsstr;
  (** how piping a stream into a file ends: the read stream reaches its
      end ([Ret]); the read stream emits ['error'], which the handler
      listens for ([Throw] of an [Error] or of any other value); or the
      write stream emits ['error'], which nobody listens for
      ([Throw] of [Unhandled]) *)
  pipe : Trace -> JsVal -> JsVal -> Outcome JsVal;
  (** the outcome of a source expression, named by its text, at operands
      outside the fragment written out here *)
  expr : string -> list JsVal -> Outcome JsVal
}.

(** Handlers: the trace is passed along, exceptions cut the rest short. *)
Definition M (A : Type) : Type := Trace -> Outcome A * Trace.

Definition ret {A : Type} (a : A) : M A := fun tr => (Ret a, tr).

Definition throw {A : Type} (e : Thrown) : M A := fun tr => (Throw e, tr).

Definition bind {A B : Type} (m : M A) (f : A -> M B) : M B :=
  fun tr =>
    match m tr with
    | (Ret a, tr') => f a tr'
    | (Throw e, tr') => (Throw e, tr')
    end.

(** [try { m } catch (error) { handler(error) }] *)
Definition try_catch {A : Type} (m : M A) (handler : Thrown -> M A) : M A :=
  fun tr =>
    match m tr with
    | (Ret a, tr') => (Ret a, tr')
    | (Throw (Unhandled v), tr') => (Throw (Unhandled v), tr')
    | (Throw e, tr') => handler e tr'
    end.

(** a pure step that may throw *)
Definition lift {A : Type} (o : Outcome A) : M A := fun tr => (o, tr).

(** [await] of one downstream request: it is issued, then answered. *)
Definition request `{Host} (c : Call) : M JsVal :=
  fun tr => (service tr c, tr ++ [c]).

End World.

Import World.

(* ================================================================== *)
(** ** What the language does with a value it cannot use *)

Module Engine.

Section WithHost.

Context `{Host}.

Definition engine_error (operation : string) (v : JsVal) : Thrown :=
  ErrorObj (engine_message operation v).

(** ToString as a template literal, a property key or [new Date] applies
    it: a value without a primitive makes it throw. *)
Definition to_primitive {A : Type} (v : JsVal) (converted : A) : Outcome A :=
  if convertible v then Ret converted
  else Throw (engine_error "ToPrimitive" v).

Definition to_string (v : JsVal) : Outcome jsstr := to_primitive v (ToString v).

(** [item.k] and [const { k } = item] for the field names the bulk handlers
    read ([id], [updates], [identifier], [path], [iterationName],
    [startDate], [finishDate]): none is a built-in member of a value, so
    only an own property of an object answers; reading into [null] or
    [undefined] throws. *)
Definition get_field (item : JsVal) (k : string) : Outcome JsVal :=
  match item with
  | JUndefined | JNull => Throw (engine_error k item)
  | JObj fields =>
      Ret (match assoc (js k) fields with Some v => v | None => JUndefined end)
  | _ => Ret JUndefined
  end.

(** The items [for (const x of v)] visits: arrays and strings are iterable,
    nothing else a tool call can carry is. *)
Definition iterate (v : JsVal) : Outcome (list JsVal) :=
  match v with
  | JArr items => Ret items
  | JStr s => Ret (map JStr (code_points s))
  | _ => Throw (engine_error "for-of" v)
  end.

End WithHost.

End Engine.

Import Engine.

Declare Scope js_scope.
Delimit Scope js_scope with M.
Notation "x <- m ;; k" := (bind m (fun x => k))
  (at level 61, m at next level, right associativity) : js_scope.
Notation "m ;;; k" := (bind m (fun _ => k))
  (at level 61, right associativity) : js_scope.
Open Scope js_scope.

(* ================================================================== *)
(** ** Base64, as [buffer.toString("base64")] writes it (RFC 4648, padded) *)

Module Base64.

Definition alphabet : jsstr :=
  js "ABCDEFGHIJKLMNOPQRSTUVWXYZabcdefghijklmnopqrstuvwxyz0123456789+/".

Definition pad : N := 61.

(** the character of a six-bit group *)
Definition digit (n : N) : N := nth (N.to_nat n) alphabet pad.

Fixpoint encode (bs : list Byte.byte) : jsstr :=
  match bs with
  | [] => []
  | [a] =>
      let x := Byte.to_N a in
      [digit (x / 4); digit ((x mod 4) * 16); pad; pad]
  | [a; b] =>
      let x := Byte.to_N a in
      let y := Byte.to_N b in
      [digit (x / 4); digit ((x mod 4) * 16 + y / 16);
       digit ((y mod 16) * 4); pad]
  | a :: b :: c :: rest =>
      let x := Byte.to_N a in
      let y := Byte.to_N b in
      let z := Byte.to_N c in
      [digit (x / 4); digit ((x mod 4) * 16 + y / 16);
       digit ((y mod 16) * 4 + z / 64); digit (z mod 64)] ++ encode rest
  end%N.

(** The decoder the round trip is stated with: four characters give three
    bytes, padding is accepted in the last group only. *)
Fixpoint index_of (c : N) (l : jsstr) (i : N) : option N :=
  match l with
  | [] => None
  | d :: l' => if N.eqb c d then Some i else index_of c l' (i + 1)%N
  end.

Definition value (c : N) : option N := index_of c alphabet 0.

Definition byte_of (n : N) : Byte.byte :=
  match Byte.of_N n with
  | Some b => b
  | None => Byte.x00
  end.

Fixpoint decode (cs : jsstr) : option (list Byte.byte) :=
  match cs with
  | [] => Some []
  | c1 :: c2 :: c3 :: c4 :: rest =>
      match value c1, value c2 with
      | Some v1, Some v2 =>
          let b1 := byte_of (v1 * 4 + v2 / 16) in
          if N.eqb c3 pad then
            match N.eqb c4 pad, rest with
            | true, [] => Some [b1]
            | _, _ => None
            end
          else
            match value c3 with
            | Some v3 =>
                let b2 := byte_of ((v2 mod 16) * 16 + v3 / 4) in
                if N.eqb c4 pad then
                  match rest with
                  | [] => Some [b1; b2]
                  | _ :: _ => None
                  end
                else
                  match value c4 with
                  | Some v4 =>
                      let b3 := byte_of ((v3 mod 4) * 64 + v4) in
                      match decode rest with
                      | Some bs => Some (b1 :: b2 :: b3 :: bs)
                      | None => None
                      end
                  | None => None
                  end
            | None => None
            end
      | _, _ => None
      end
  | _ => None
  end%N.

End Base64.

(* ================================================================== *)
(** ** [Buffer.from(s)] and [buffer.toString()]: UTF-8 *)

Module Utf8.

Definition is_high (c : N) : bool := N.leb 55296 c && N.leb c 56319.
Definition is_low (c : N) : bool := N.leb 56320 c && N.leb c 57343.

(** The code points of a string as the encoder reads them: a high
    surrogate followed by a low one is one code point, a surrogate on its
    own is replaced by U+FFFD. *)
Fixpoint scalars (s : jsstr) : list N :=
  match s with
  | [] => []
  | c :: s' =>
      if is_high c then
        match s' with
        | d :: s'' =>
            if is_low d
            then (65536 + (c - 55296) * 1024 + (d - 56320))%N :: scalars s''
            else 65533%N :: scalars s'
        | [] => [65533%N]
        end
      else if is_low c then 65533%N :: scalars s'
      else c :: scalars s'
  end.

(** the bytes of one code point *)
Definition encode_scalar (cp : N) : list N :=
  (if cp <? 128 then [cp]
   else if cp <? 2048 then [192 + cp / 64; 128 + cp mod 64]
   else if cp <? 65536 then
     [224 + cp / 4096; 128 + (cp / 64) mod 64; 128 + cp mod 64]
   else
     [240 + cp / 262144; 128 + (cp / 4096) mod 64; 128 + (cp / 64) mod 64;
      128 + cp mod 64])%N.

(** [Buffer.from(s)], the encoding being UTF-8 *)
Definition Buffer_from (s : jsstr) : list Byte.byte :=
  map Base64.byte_of (flat_map encode_scalar (scalars s)).

(** The reader the round trip is stated with: the code points of a byte
    sequence, [None] when a sequence is cut short or a continuation byte
    is missing. *)
Definition continuation (b : N) : bool := N.leb 128 b && N.ltb b 192.

Fixpoint decode_scalars (bs : list N) : option (list N) :=
  match bs with
  | [] => Some []
  | b :: r =>
      if (b <? 128)%N then option_map (cons b) (decode_scalars r)
      else if (b <? 192)%N then None
      else if (b <? 224)%N then
        match r with
        | c1 :: r1 =>
            if continuation c1
            then option_map (cons ((b - 192) * 64 + (c1 - 128))%N)
                   (decode_scalars r1)
            else None
        | _ => None
        end
      else if (b <? 240)%N then
        match r with
        | c1 :: c2 :: r2 =>
            if continuation c1 && continuation c2
            then option_map
                   (cons ((b - 224) * 4096 + (c1 - 128) * 64 + (c2 - 128))%N)
                   (decode_scalars r2)
            else None
        | _ => None
        end
      else
        match r with
        | c1 :: c2 :: c3 :: r3 =>
            if continuation c1 && continuation c2 && continuation c3
            then option_map
                   (cons ((b - 240) * 262144 + (c1 - 128) * 4096
                          + (c2 - 128) * 64 + (c3 - 128))%N)
                   (decode_scalars r3)
            else None
        | _ => None
        end
  end.

(** the code units of one code point *)
Definition units (cp : N) : jsstr :=
  (if cp <? 65536 then [cp]
   else [55296 + (cp - 65536) / 1024; 56320 + (cp - 65536) mod 1024])%N.

(** [buffer.toString()] on bytes that are well-formed UTF-8 *)
Definition Buffer_toString (bytes : list Byte.byte) : option jsstr :=
  option_map (flat_map units) (decode_scalars (map Byte.to_N bytes)).

End Utf8.

Import Utf8.

(* ================================================================== *)
(** ** [src/shared/auth.ts] *)

Module Auth.

Record AuthConfig : Type := mkConfig {
  organizationUrl : jsstr;
  personalAccessToken : jsstr
}.

(** [new WebApi(url, handler)]: [webapi_id] is the identity of the object. *)
Record WebApi : Type := mkWebApi { webapi_id : nat; serverUrl : jsstr }.

(** A promise of [createPatClient]: the function awaits nothing, so the
    promise is settled when it is returned. *)
Definition ClientPromise := Outcome WebApi.

(** The state of the one [AzureDevOpsClient]: its [clientPromise] field
    ([None] for [null]), and two counters kept for the proofs: how many
    times [createPatClient] ran and how many [WebApi] objects were made. *)
Record ClientState : Type := mkClient {
  clientPromise : option ClientPromise;
  constructions : nat;
  webapis : nat
}.

(** the state [new AzureDevOpsClient(config)] starts in *)
Definition fresh : ClientState :=
  {| clientPromise := None; constructions := 0; webapis := 0 |}.

(** [createPatClient(config)], called: the body runs to its end and the
    promise it returns is settled. *)
Definition createPatClient (config : AuthConfig) (c : ClientState)
  : ClientPromise * ClientState :=
  let c1 := {| clientPromise := clientPromise c;
               constructions := S (constructions c);
               webapis := webapis c |} in
  match personalAccessToken config with
  | [] =>
      (Throw (ErrorObj (js "Personal Access Token is required for authentication")), c1)
  | _ :: _ =>
      match organizationUrl config with
      | [] => (Throw (ErrorObj (js "Organization URL is required")), c1)
      | _ :: _ =>
          (Ret {| webapi_id := webapis c1; serverUrl := organizationUrl config |},
           {| clientPromise := clientPromise c1;
              constructions := constructions c1;
              webapis := S (webapis c1) |})
      end
  end.

(** [AzureDevOpsClient.getClient]: nothing is awaited between the test of
    [this.clientPromise] and the assignment, so the call is one step. *)
Definition getClient (config : AuthConfig) (c : ClientState)
  : ClientPromise * ClientState :=
  match clientPromise c with
  | None =>
      let (p, c') := createPatClient config c in
      (p, {| clientPromise := Some p;
             constructions := constructions c';
             webapis := webapis c' |})
  | Some p => (p, c)
  end.

Definition getWebApiClient := getClient.

(** [await promise] *)
Definition await {A : Type} (p : Outcome A) : M A := lift p.

(** [getPatAuthHeader(pat)] *)
Definition getPatAuthHeader (pat : jsstr) : jsstr :=
  let base64Token := Base64.encode (Buffer_from (js ":" ++ pat)) in
  js "Basic " ++ base64Token.

End Auth.

(* ================================================================== *)
(** ** [src/server.ts]: the catalog *)

Module Catalog.

(** The case labels of the [switch], one constructor each. *)
Inductive Branch : Type :=
| core_list_project_teams
| core_list_projects
| core_get_identity_ids
| repo_list_repos_by_project
| repo_get_repo_by_name_or_id
| repo_list_branches_by_repo
| repo_list_my_branches_by_repo
| repo_get_branch_by_name
| repo_create_branch
| repo_list_pull_requests_by_repo_or_project
| repo_get_pull_request_by_id
| repo_create_pull_request
| repo_update_pull_request
| repo_update_pull_request_reviewers
| repo_list_pull_request_threads
| repo_list_pull_request_thread_comments
| repo_create_pull_request_thread
| repo_update_pull_request_thread
| repo_reply_to_comment
| repo_search_commits
| repo_list_pull_requests_by_commits
| wit_get_work_item
| wit_get_work_items_batch_by_ids
| wit_create_work_item
| wit_update_work_item
| wit_update_work_items_batch
| wit_my_work_items
| wit_list_backlogs
| wit_list_backlog_work_items
| wit_list_work_item_comments
| wit_add_work_item_comment
| wit_list_work_item_revisions
| wit_get_work_items_for_iteration
| wit_add_child_work_items
| wit_work_items_link
| wit_work_item_unlink
| wit_link_work_item_to_pull_request
| wit_add_artifact_link
| wit_get_work_item_type
| wit_get_query
| wit_get_query_results_by_id
| pipelines_get_builds
| pipelines_get_build_changes
| pipelines_get_build_definitions
| pipelines_get_build_definition_revisions
| pipelines_get_build_log
| pipelines_get_build_log_by_id
| pipelines_get_build_status
| pipelines_update_build_stage
| pipelines_create_pipeline
| pipelines_get_run
| pipelines_list_runs
| pipelines_run_pipeline
| pipelines_list_artifacts
| pipelines_download_artifact
| wiki_list_wikis
| wiki_get_wiki
| wiki_list_pages
| wiki_get_page
| wiki_get_page_content
| wiki_create_or_update_page
| search_code
| search_wiki
| search_workitem
| testplan_list_test_plans
| testplan_create_test_plan
| testplan_list_test_suites
| testplan_create_test_suite
| testplan_list_test_cases
| testplan_create_test_case
| testplan_update_test_case_steps
| testplan_add_test_cases_to_suite
| testplan_show_test_results_from_build_id
| advsec_get_alerts
| advsec_get_alert_details
| work_list_team_iterations
| work_list_iterations
| work_create_iterations
| work_assign_iterations
| work_get_team_capacity
| work_update_team_capacity
| work_get_iteration_capacities.

Scheme Equality for Branch.

(** [getAllToolDefinitions()]: the descriptors in the order of the source.
    Of a descriptor the name and the [required] list of its input schema are
    kept; descriptions and property shapes are left out. *)
Record Descriptor : Type := mkTool { name : string; required : list string }.

Definition getAllToolDefinitions : list Descriptor :=
  [ mkTool "core_list_project_teams" ["project"];
    mkTool "core_list_projects" [];
    mkTool "core_get_identity_ids" ["searchFilter"];
    mkTool "repo_list_repos_by_project" ["project"];
    mkTool "repo_get_repo_by_name_or_id" ["repositoryId"];
    mkTool "repo_list_branches_by_repo" ["repositoryId"];
    mkTool "repo_list_my_branches_by_repo" ["repositoryId"];
    mkTool "repo_get_branch_by_name" ["repositoryId"; "branchName"];
    mkTool "repo_create_branch" ["repositoryId"; "branchName"];
    mkTool "repo_list_pull_requests_by_repo_or_project" [];
    mkTool "repo_get_pull_request_by_id" ["repositoryId"; "pullRequestId"];
    mkTool "repo_create_pull_request" ["repositoryId"; "sourceRefName"; "targetRefName"; "title"];
    mkTool "repo_update_pull_request" ["repositoryId"; "pullRequestId"];
    mkTool "repo_update_pull_request_reviewers" ["repositoryId"; "pullRequestId"; "reviewerId"];
    mkTool "repo_list_pull_request_threads" ["repositoryId"; "pullRequestId"];
    mkTool "repo_list_pull_request_thread_comments" ["repositoryId"; "pullRequestId"; "threadId"];
    mkTool "repo_create_pull_request_thread" ["repositoryId"; "pullRequestId"; "content"];
    mkTool "repo_update_pull_request_thread" ["repositoryId"; "pullRequestId"; "threadId"; "status"];
    mkTool "repo_reply_to_comment" ["repositoryId"; "pullRequestId"; "threadId"; "content"];
    mkTool "repo_search_commits" ["repositoryId"];
    mkTool "repo_list_pull_requests_by_commits" ["repositoryId"; "commitIds"];
    mkTool "wit_get_work_item" ["id"];
    mkTool "wit_get_work_items_batch_by_ids" ["ids"];
    mkTool "wit_create_work_item" ["project"; "workItemType"; "fields"];
    mkTool "wit_update_work_item" ["id"; "updates"];
    mkTool "wit_update_work_items_batch" ["project"; "workItems"];
    mkTool "wit_my_work_items" ["project"];
    mkTool "wit_list_backlogs" ["project"; "team"];
    mkTool "wit_list_backlog_work_items" ["project"; "team"; "backlogId"];
    mkTool "wit_list_work_item_comments" ["project"; "workItemId"];
    mkTool "wit_add_work_item_comment" ["project"; "workItemId"; "text"];
    mkTool "wit_list_work_item_revisions" ["workItemId"];
    mkTool "wit_get_work_items_for_iteration" ["project"; "team"; "iterationId"];
    mkTool "wit_add_child_work_items" ["parentId"; "childIds"];
    mkTool "wit_work_items_link" ["sourceId"; "targetId"; "linkType"];
    mkTool "wit_work_item_unlink" ["sourceId"; "targetId"; "linkType"];
    mkTool "wit_link_work_item_to_pull_request" ["workItemId"; "repositoryId"; "pullRequestId"];
    mkTool "wit_add_artifact_link" ["workItemId"; "artifactUri"];
    mkTool "wit_get_work_item_type" ["project"; "type"];
    mkTool "wit_get_query" ["project"; "queryPath"];
    mkTool "wit_get_query_results_by_id" ["project"; "queryId"];
    mkTool "pipelines_get_builds" ["project"];
    mkTool "pipelines_get_build_changes" ["project"; "buildId"];
    mkTool "pipelines_get_build_definitions" ["project"];
    mkTool "pipelines_get_build_definition_revisions" ["project"; "definitionId"];
    mkTool "pipelines_get_build_log" ["project"; "buildId"];
    mkTool "pipelines_get_build_log_by_id" ["project"; "buildId"; "logId"];
    mkTool "pipelines_get_build_status" ["project"; "buildId"];
    mkTool "pipelines_update_build_stage" ["project"; "buildId"; "stageName"; "status"];
    mkTool "pipelines_create_pipeline" ["project"; "name"; "yamlPath"; "repositoryType"; "repositoryName"];
    mkTool "pipelines_get_run" ["project"; "pipelineId"; "runId"];
    mkTool "pipelines_list_runs" ["project"; "pipelineId"];
    mkTool "pipelines_run_pipeline" ["project"; "pipelineId"];
    mkTool "pipelines_list_artifacts" ["project"; "buildId"];
    mkTool "pipelines_download_artifact" ["project"; "buildId"; "artifactName"];
    mkTool "wiki_list_wikis" [];
    mkTool "wiki_get_wiki" ["wikiIdentifier"];
    mkTool "wiki_list_pages" ["wikiIdentifier"; "project"];
    mkTool "wiki_get_page" ["wikiIdentifier"; "project"; "path"];
    mkTool "wiki_get_page_content" ["wikiIdentifier"; "project"];
    mkTool "wiki_create_or_update_page" ["wikiIdentifier"; "path"; "content"];
    mkTool "search_code" ["searchText"];
    mkTool "search_wiki" ["searchText"];
    mkTool "search_workitem" ["searchText"];
    mkTool "testplan_list_test_plans" ["project"];
    mkTool "testplan_create_test_plan" ["project"; "name"; "iteration"];
    mkTool "testplan_list_test_suites" ["project"; "planId"];
    mkTool "testplan_create_test_suite" ["project"; "planId"; "parentSuiteId"; "name"];
    mkTool "testplan_list_test_cases" ["project"; "planId"; "suiteId"];
    mkTool "testplan_create_test_case" ["project"; "title"];
    mkTool "testplan_update_test_case_steps" ["id"; "steps"];
    mkTool "testplan_add_test_cases_to_suite" ["project"; "planId"; "suiteId"; "testCaseIds"];
    mkTool "testplan_show_test_results_from_build_id" ["project"; "buildId"];
    mkTool "advsec_get_alerts" ["project"; "repository"];
    mkTool "advsec_get_alert_details" ["project"; "repository"; "alertId"];
    mkTool "work_list_team_iterations" ["project"; "team"];
    mkTool "work_list_iterations" ["project"];
    mkTool "work_create_iterations" ["project"; "iterations"];
    mkTool "work_assign_iterations" ["project"; "team"; "iterations"];
    mkTool "work_get_team_capacity" ["project"; "team"; "iterationId"];
    mkTool "work_update_team_capacity" ["project"; "team"; "iterationId"; "teamMemberId"; "activities"];
    mkTool "work_get_iteration_capacities" ["project"; "iterationId"] ]%string.

(** The case labels in the order the [switch] tests them. *)
Definition switch_cases : list (string * Branch) :=
  [ ("core_list_project_teams", core_list_project_teams);
    ("core_list_projects", core_list_projects);
    ("core_get_identity_ids", core_get_identity_ids);
    ("repo_list_repos_by_project", repo_list_repos_by_project);
    ("repo_get_repo_by_name_or_id", repo_get_repo_by_name_or_id);
    ("repo_list_branches_by_repo", repo_list_branches_by_repo);
    ("repo_list_my_branches_by_repo", repo_list_my_branches_by_repo);
    ("repo_get_branch_by_name", repo_get_branch_by_name);
    ("repo_create_branch", repo_create_branch);
    ("repo_list_pull_requests_by_repo_or_project", repo_list_pull_requests_by_repo_or_project);
    ("repo_get_pull_request_by_id", repo_get_pull_request_by_id);
    ("repo_create_pull_request", repo_create_pull_request);
    ("repo_update_pull_request", repo_update_pull_request);
    ("repo_update_pull_request_reviewers", repo_update_pull_request_reviewers);
    ("repo_list_pull_request_threads", repo_list_pull_request_threads);
    ("repo_list_pull_request_thread_comments", repo_list_pull_request_thread_comments);
    ("repo_create_pull_request_thread", repo_create_pull_request_thread);
    ("repo_update_pull_request_thread", repo_update_pull_request_thread);
    ("repo_reply_to_comment", repo_reply_to_comment);
    ("repo_search_commits", repo_search_commits);
    ("repo_list_pull_requests_by_commits", repo_list_pull_requests_by_commits);
    ("wit_get_work_item", wit_get_work_item);
    ("wit_get_work_items_batch_by_ids", wit_get_work_items_batch_by_ids);
    ("wit_create_work_item", wit_create_work_item);
    ("wit_update_work_item", wit_update_work_item);
    ("wit_update_work_items_batch", wit_update_work_items_batch);
    ("wit_my_work_items", wit_my_work_items);
    ("wit_list_backlogs", wit_list_backlogs);
    ("wit_list_backlog_work_items", wit_list_backlog_work_items);
    ("wit_list_work_item_comments", wit_list_work_item_comments);
    ("wit_add_work_item_comment", wit_add_work_item_comment);
    ("wit_list_work_item_revisions", wit_list_work_item_revisions);
    ("wit_get_work_items_for_iteration", wit_get_work_items_for_iteration);
    ("wit_add_child_work_items", wit_add_child_work_items);
    ("wit_work_items_link", wit_work_items_link);
    ("wit_work_item_unlink", wit_work_item_unlink);
    ("wit_link_work_item_to_pull_request", wit_link_work_item_to_pull_request);
    ("wit_add_artifact_link", wit_add_artifact_link);
    ("wit_get_work_item_type", wit_get_work_item_type);
    ("wit_get_query", wit_get_query);
    ("wit_get_query_results_by_id", wit_get_query_results_by_id);
    ("pipelines_get_builds", pipelines_get_builds);
    ("pipelines_get_build_changes", pipelines_get_build_changes);
    ("pipelines_get_build_definitions", pipelines_get_build_definitions);
    ("pipelines_get_build_definition_revisions", pipelines_get_build_definition_revisions);
    ("pipelines_get_build_log", pipelines_get_build_log);
    ("pipelines_get_build_log_by_id", pipelines_get_build_log_by_id);
    ("pipelines_get_build_status", pipelines_get_build_status);
    ("pipelines_update_build_stage", pipelines_update_build_stage);
    ("pipelines_create_pipeline", pipelines_create_pipeline);
    ("pipelines_get_run", pipelines_get_run);
    ("pipelines_list_runs", pipelines_list_runs);
    ("pipelines_run_pipeline", pipelines_run_pipeline);
    ("pipelines_list_artifacts", pipelines_list_artifacts);
    ("pipelines_download_artifact", pipelines_download_artifact);
    ("wiki_list_wikis", wiki_list_wikis);
    ("wiki_get_wiki", wiki_get_wiki);
    ("wiki_list_pages", wiki_list_pages);
    ("wiki_get_page", wiki_get_page);
    ("wiki_get_page_content", wiki_get_page_content);
    ("wiki_create_or_update_page", wiki_create_or_update_page);
    ("search_code", search_code);
    ("search_wiki", search_wiki);
    ("search_workitem", search_workitem);
    ("testplan_list_test_plans", testplan_list_test_plans);
    ("testplan_create_test_plan", testplan_create_test_plan);
    ("testplan_list_test_suites", testplan_list_test_suites);
    ("testplan_create_test_suite", testplan_create_test_suite);
    ("testplan_list_test_cases", testplan_list_test_cases);
    ("testplan_create_test_case", testplan_create_test_case);
    ("testplan_update_test_case_steps", testplan_update_test_case_steps);
    ("testplan_add_test_cases_to_suite", testplan_add_test_cases_to_suite);
    ("testplan_show_test_results_from_build_id", testplan_show_test_results_from_build_id);
    ("advsec_get_alerts", advsec_get_alerts);
    ("advsec_get_alert_details", advsec_get_alert_details);
    ("work_list_team_iterations", work_list_team_iterations);
    ("work_list_iterations", work_list_iterations);
    ("work_create_iterations", work_create_iterations);
    ("work_assign_iterations", work_assign_iterations);
    ("work_get_team_capacity", work_get_team_capacity);
    ("work_update_team_capacity", work_update_team_capacity);
    ("work_get_iteration_capacities", work_get_iteration_capacities) ]%string.

(** the names a client may invoke *)
Definition catalog_names : list jsstr :=
  map (fun d => js (name d)) getAllToolDefinitions.

(** the labels of the [switch] *)
Definition case_labels : list jsstr :=
  map (fun c => js (fst c)) switch_cases.

(** [switch (name)]: the first label strictly equal to [name] *)
Fixpoint first_case (name : jsstr) (cases : list (string * Branch))
  : option Branch :=
  match cases with
  | [] => None
  | (label, b) :: rest =>
      if JsString.eqb name (js label) then Some b else first_case name rest
  end.

Definition select (name : jsstr) : option Branch := first_case name switch_cases.

End Catalog.

Import Catalog.

(* ================================================================== *)
(** ** [src/server.ts]: the handlers *)

Module Server.

Record ContentItem : Type := mkItem { type : jsstr; text : JsVal }.

Record Envelope : Type := mkEnvelope {
  content : list ContentItem;
  isError : option bool
}.

(** [{ content: [{ type: "text", text }] }] *)
Definition text_result (t : JsVal) : Envelope :=
  {| content := [ {| type := js "text"; text := t |} ]; isError := None |}.

(** [{ content: [{ type: "text", text }], isError: true }] *)
Definition error_result (t : JsVal) : Envelope :=
  {| content := [ {| type := js "text"; text := t |} ]; isError := Some true |}.

(** The lookup tables of the handlers, as the object literals declare them. *)
Definition pull_request_statusMap : list (string * Z) :=
  [ ("Abandoned", 2); ("Active", 1); ("All", 4); ("Completed", 3);
    ("NotSet", 0) ]%string%Z.

Definition update_statusMap : list (string * Z) :=
  [ ("active", 1); ("abandoned", 2); ("completed", 3) ]%string%Z.

Definition thread_statusMap : list (string * Z) :=
  [ ("active", 1); ("fixed", 2); ("wontFix", 3); ("closed", 4);
    ("pending", 6) ]%string%Z.

Definition work_item_expandMap : list (string * Z) :=
  [ ("all", 4); ("fields", 1); ("links", 2); ("none", 0);
    ("relations", 3) ]%string%Z.

Definition query_expandMap : list (string * Z) :=
  [ ("all", 2); ("clauses", 1); ("minimal", 0); ("none", 0);
    ("wiql", 1) ]%string%Z.

Definition stageUpdateMap : list (string * Z) :=
  [ ("Retry", 1); ("Cancel", 2) ]%string%Z.

Definition str (s : string) : JsVal := JStr (js s).

Definition obj (fields : list (string * JsVal)) : JsVal :=
  JObj (map (fun f => (js (fst f), snd f)) fields).

Section Handlers.

Context `{Host}.

(** [await connection.getXxxApi()] *)
Definition get_api (getter : string) : M JsVal :=
  request (mkCall (js "connection." ++ js getter) []).

(** [await api.method(operands)] *)
Definition sdk (method : string) (operands : list JsVal) : M JsVal :=
  request (mkCall (js method) operands).

(** [await fetch(url, init)] *)
Definition fetch (init : string) (operands : list JsVal) : M JsVal :=
  request (mkCall (js "fetch " ++ js init) operands).

(** [await response.json()], [await response.text()] and the like *)
Definition read (how : string) (source : JsVal) : M JsVal :=
  request (mkCall (js how) [source]).

(** A handler that obtains one API, issues one SDK call and returns the
    result pretty-printed.  The operands of such a call are read from the
    argument bag and from constants; the bag stands for them. *)
Definition one_call (getter method : string) (args : Args) : M Envelope :=
  get_api getter ;;;
  result <- sdk method [JObj args] ;;
  ret (text_result (JSON_stringify result)).

(** The same when an operand is first computed by an expression that may
    throw. *)
Definition prepared_call (getter method operand : string) (args : Args)
  : M Envelope :=
  get_api getter ;;;
  prepared <- lift (expr operand [JObj args]) ;;
  result <- sdk method [JObj args; prepared] ;;
  ret (text_result (JSON_stringify result)).

(** The same when the result is reshaped before it is printed. *)
Definition processed_call (getter method reshape : string) (args : Args)
  : M Envelope :=
  get_api getter ;;;
  result <- sdk method [JObj args] ;;
  shown <- lift (expr reshape [result; JObj args]) ;;
  ret (text_result (JSON_stringify shown)).

(** [table[key]]: a key that is not a string is converted to one; a key
    without a primitive makes the lookup throw.  [property_key] and [index]
    are the key and what is found when the conversion succeeds, [keyed] the
    lookup as the handler evaluates it. *)
Definition property_key (v : JsVal) : jsstr :=
  match v with
  | JStr s => s
  | _ => ToString v
  end.

Definition index (table : list (string * Z)) (key : JsVal) : JsVal :=
  table_lookup table (property_key key).

Definition keyed (key found : JsVal) : Outcome JsVal := to_primitive key found.

(** *** Filtering by a text field *)

(** [x => x.field?.toLowerCase().includes(filter.toLowerCase())] on an
    object whose field is a string or is missing; [None] for any other
    item. *)
Definition field_contains (field : string) (flt : jsstr) (item : JsVal)
  : option bool :=
  match item with
  | JObj fields =>
      match assoc (js field) fields with
      | None | Some JUndefined | Some JNull => Some false
      | Some (JStr n) => Some (includes (toLowerCase n) (toLowerCase flt))
      | Some _ => None
      end
  | _ => None
  end.

Definition keeps (field : string) (flt : jsstr) (item : JsVal) : bool :=
  match field_contains field flt item with
  | Some true => true
  | _ => false
  end.

Definition filterable (field : string) (flt : jsstr) (item : JsVal) : bool :=
  match field_contains field flt item with
  | Some _ => true
  | None => false
  end.

(** [if (flt) list = list.filter(x => ...)]: written out for a string
    filter over an array of such objects. *)
Definition filter_by (source field : string) (flt fetched : JsVal)
  : Outcome JsVal :=
  if truthy flt then
    match flt, fetched with
    | JStr f, JArr items =>
        if forallb (filterable field f) items
        then Ret (JArr (filter (keeps field f) items))
        else expr source [flt; fetched]
    | _, _ => expr source [flt; fetched]
    end
  else Ret fetched.

(** [repos.slice(skip, skip + top)]: written out for an array and integer
    bounds. *)
Definition window (repos skip top : JsVal) : Outcome JsVal :=
  match repos, skip, top with
  | JArr items, JNum s, JNum t => Ret (JArr (slice s (s + t) items))
  | _, _, _ => expr "repos.slice(skip, skip + top)" [repos; skip; top]
  end.

(** [name.startsWith("refs/") ? name : `refs/heads/${name}`] *)
Definition qualified_ref (name : JsVal) : Outcome JsVal :=
  match name with
  | JStr s =>
      Ret (JStr (if is_prefix (js "refs/") s then s else js "refs/heads/" ++ s))
  | _ => expr "name.startsWith(...) ? name : `refs/heads/${name}`" [name]
  end.

(** *** Core *)

Definition core_list_projects_body (args : Args) : M Envelope :=
  let projectNameFilter := arg args "projectNameFilter" in
  get_api "getCoreApi" ;;;
  projects <- sdk "coreApi.getProjects"
                [arg args "stateFilter"; arg args "top"; arg args "skip"] ;;
  projects <- lift (filter_by "projects.filter(...)" "name"
                      projectNameFilter projects) ;;
  ret (text_result (JSON_stringify projects)).

Definition core_get_identity_ids_body (args : Args) : M Envelope :=
  url <- lift (expr "the identities url" [arg args "searchFilter"]) ;;
  response <- fetch "GET" [url] ;;
  identities <- read "response.json()" response ;;
  ret (text_result (JSON_stringify identities)).

(** *** Repositories *)

Definition repo_list_repos_by_project_body (args : Args) : M Envelope :=
  let top := arg_or args "top" (JNum 100) in
  let skip := arg_or args "skip" (JNum 0) in
  let repoNameFilter := arg args "repoNameFilter" in
  get_api "getGitApi" ;;;
  repos <- sdk "gitApi.getRepositories" [arg args "project"] ;;
  repos <- lift (filter_by "repos.filter(...)" "name" repoNameFilter repos) ;;
  page <- lift (window repos skip top) ;;
  ret (text_result (JSON_stringify page)).

(** [gitApi.updateRefs([{ name: `refs/heads/${branchName}`, newObjectId,
    oldObjectId }], repositoryId)] and the envelope of its result *)
Definition update_ref (args : Args) (commitId : JsVal) : M Envelope :=
  branch <- lift (to_string (arg args "branchName")) ;;
  result <- sdk "gitApi.updateRefs"
              [JArr [obj [("name", JStr (js "refs/heads/" ++ branch));
                          ("newObjectId", commitId);
                          ("oldObjectId",
                           str "0000000000000000000000000000000000000000")]];
               arg args "repositoryId"] ;;
  ret (text_result (JSON_stringify result)).

Definition repo_create_branch_body (args : Args) : M Envelope :=
  let sourceBranchName := arg_or args "sourceBranchName" (str "main") in
  let sourceCommitId := arg args "sourceCommitId" in
  get_api "getGitApi" ;;;
  if truthy sourceCommitId then update_ref args sourceCommitId
  else
    source <- lift (to_string sourceBranchName) ;;
    refs <- sdk "gitApi.getRefs"
              [arg args "repositoryId"; JUndefined;
               JStr (js "heads/" ++ source)] ;;
    objectId <- lift (expr "refs.find(r => r.name === `refs/heads/${sourceBranchName}`)?.objectId"
                        [refs; sourceBranchName]) ;;
    if truthy objectId then update_ref args objectId
    else
      ret (error_result
             (JStr (js "Source branch '" ++ source ++ js "' not found"))).

(** [statusMap[status] || 1] of the pull-request listing *)
Definition list_status_code (status : JsVal) : JsVal :=
  js_or (index pull_request_statusMap status) (JNum 1).

Definition list_status (status : JsVal) : Outcome JsVal :=
  keyed status (list_status_code status).

Definition repo_list_pull_requests_body (args : Args) : M Envelope :=
  let repositoryId := arg args "repositoryId" in
  let project := arg args "project" in
  let top := arg_or args "top" (JNum 100) in
  let skip := arg_or args "skip" (JNum 0) in
  let status := arg_or args "status" (str "Active") in
  get_api "getGitApi" ;;;
  code <- lift (list_status status) ;;
  let criteria := obj [("status", code)] in
  if truthy repositoryId then
    prs <- sdk "gitApi.getPullRequests"
             [repositoryId; criteria; project; JUndefined; skip; top] ;;
    ret (text_result (JSON_stringify prs))
  else if truthy project then
    prs <- sdk "gitApi.getPullRequestsByProject"
             [project; criteria; JUndefined; skip; top] ;;
    ret (text_result (JSON_stringify prs))
  else
    ret (error_result (str "Either repositoryId or project required")).

Definition when (v : JsVal) (field : string) (value : JsVal)
  : list (string * JsVal) :=
  if truthy v then [(field, value)] else [].

Definition repo_update_pull_request_body (args : Args) : M Envelope :=
  let title := arg args "title" in
  let description := arg args "description" in
  let status := arg args "status" in
  let targetRefName := arg args "targetRefName" in
  get_api "getGitApi" ;;;
  code <- (if truthy status
           then lift (keyed status (index update_statusMap status))
           else ret JUndefined) ;;
  let update := when title "title" title
                ++ when description "description" description
                ++ when status "status" code in
  target <- (if truthy targetRefName
             then ref <- lift (qualified_ref targetRefName) ;;
                  ret [("targetRefName"%string, ref)]
             else ret []) ;;
  pr <- sdk "gitApi.updatePullRequest"
          [obj (update ++ target); arg args "repositoryId";
           arg args "pullRequestId"] ;;
  ret (text_result (JSON_stringify pr)).

(** [statusMap[status] || 1] of a new comment thread *)
Definition new_thread_status_code (status : JsVal) : JsVal :=
  js_or (index thread_statusMap status) (JNum 1).

Definition new_thread_status (status : JsVal) : Outcome JsVal :=
  keyed status (new_thread_status_code status).

Definition repo_create_pull_request_thread_body (args : Args) : M Envelope :=
  let filePath := arg args "filePath" in
  let line := js_or (arg args "lineNumber") (JNum 1) in
  get_api "getGitApi" ;;;
  code <- lift (new_thread_status (arg args "status")) ;;
  let position := obj [("line", line); ("offset", JNum 1)] in
  let thread :=
    obj ([ ("comments",
            JArr [obj [("content", arg args "content"); ("commentType", JNum 1)]]);
           ("status", code) ]
         ++ when filePath "threadContext"
              (obj [("filePath", filePath); ("rightFileStart", position);
                    ("rightFileEnd", position)])) in
  result <- sdk "gitApi.createThread"
              [thread; arg args "repositoryId"; arg args "pullRequestId"] ;;
  ret (text_result (JSON_stringify result)).

(** [statusMap[status]] of a thread update: no default *)
Definition thread_status_code (status : JsVal) : JsVal :=
  index thread_statusMap status.

Definition repo_update_pull_request_thread_body (args : Args) : M Envelope :=
  get_api "getGitApi" ;;;
  code <- lift (keyed (arg args "status")
                  (thread_status_code (arg args "status"))) ;;
  thread <- sdk "gitApi.updateThread"
              [obj [("status", code)];
               arg args "repositoryId"; arg args "pullRequestId";
               arg args "threadId"] ;;
  ret (text_result (JSON_stringify thread)).

Definition repo_search_commits_body (args : Args) : M Envelope :=
  let top := arg_or args "top" (JNum 100) in
  let author := arg args "author" in
  let fromDate := arg args "fromDate" in
  let toDate := arg args "toDate" in
  get_api "getGitApi" ;;;
  let criteria := obj ([("$top", top)] ++ when author "author" author
                       ++ when fromDate "fromDate" fromDate
                       ++ when toDate "toDate" toDate) in
  commits <- sdk "gitApi.getCommits"
               [arg args "repositoryId"; criteria; arg args "project"] ;;
  result <- lift (filter_by "commits.filter(...)" "comment"
                    (arg args "searchText") commits) ;;
  ret (text_result (JSON_stringify result)).

(** *** Work items *)

(** [expandMap[expand]]: no default *)
Definition expand_code (expand : JsVal) : JsVal :=
  index work_item_expandMap expand.

Definition wit_get_work_item_body (args : Args) : M Envelope :=
  get_api "getWorkItemTrackingApi" ;;;
  code <- lift (keyed (arg args "expand") (expand_code (arg args "expand"))) ;;
  workItem <- sdk "witApi.getWorkItem"
                [arg args "id"; arg args "fields"; JUndefined;
                 code; arg args "project"] ;;
  ret (text_result (JSON_stringify workItem)).

Definition wit_get_work_items_batch_by_ids_body (args : Args) : M Envelope :=
  get_api "getWorkItemTrackingApi" ;;;
  code <- lift (keyed (arg args "expand") (expand_code (arg args "expand"))) ;;
  workItems <- sdk "witApi.getWorkItems"
                 [arg args "ids"; arg args "fields"; JUndefined;
                  code; JUndefined;
                  arg args "project"] ;;
  ret (text_result (JSON_stringify workItems)).

Definition wit_get_query_body (args : Args) : M Envelope :=
  get_api "getWorkItemTrackingApi" ;;;
  code <- lift (keyed (arg args "expand")
                  (index query_expandMap (arg args "expand"))) ;;
  query <- sdk "witApi.getQuery"
             [arg args "project"; arg args "queryPath"; code; JNum 1] ;;
  ret (text_result (JSON_stringify query)).

(** [for (const item of items) { const r = await body(item); results.push(r); }] *)
Fixpoint for_of (body : JsVal -> M JsVal) (items : list JsVal)
  (results : list JsVal) : M (list JsVal) :=
  match items with
  | [] => ret results
  | item :: rest =>
      r <- body item ;;
      for_of body rest (results ++ [r])
  end.

(** A bulk handler: one API, then the loop over the batch, then the results
    pretty-printed. *)
Definition bulk (getter : string) (batch : JsVal) (body : JsVal -> M JsVal)
  : M Envelope :=
  get_api getter ;;;
  items <- lift (iterate batch) ;;
  results <- for_of body items [] ;;
  ret (text_result (JSON_stringify (JArr results))).

Definition update_one (item : JsVal) : M JsVal :=
  updates <- lift (get_field item "updates") ;;
  id <- lift (get_field item "id") ;;
  sdk "witApi.updateWorkItem" [JNull; updates; id].

Definition wit_update_work_items_batch_body (args : Args) : M Envelope :=
  bulk "getWorkItemTrackingApi" (arg args "workItems") update_one.

Definition patch (op path : string) (value : JsVal) : JsVal :=
  obj [("op", str op); ("path", str path); ("value", value)].

Definition add_child (connection : Auth.WebApi) (parentId childId : JsVal)
  : M JsVal :=
  child <- lift (to_string childId) ;;
  let url := Auth.serverUrl connection ++ js "/_apis/wit/workItems/" ++ child in
  let doc := JArr [patch "add" "/relations/-"
                     (obj [("rel", str "System.LinkTypes.Hierarchy-Forward");
                           ("url", JStr url)])] in
  sdk "witApi.updateWorkItem" [JNull; doc; parentId].

Definition wit_add_child_work_items_body (connection : Auth.WebApi) (args : Args)
  : M Envelope :=
  bulk "getWorkItemTrackingApi" (arg args "childIds")
       (add_child connection (arg args "parentId")).

Definition wit_work_item_unlink_body (args : Args) : M Envelope :=
  let sourceId := arg args "sourceId" in
  get_api "getWorkItemTrackingApi" ;;;
  workItem <- sdk "witApi.getWorkItem" [sourceId; JUndefined; JUndefined; JNum 3] ;;
  idx <- lift (expr "(workItem.relations || []).findIndex(...)"
                 [workItem; arg args "targetId"; arg args "linkType"]) ;;
  match idx with
  | JNum (-1) => ret (error_result (str "Link not found"))
  | _ =>
      let doc := JArr [obj [("op", str "remove");
                            ("path", JStr (js "/relations/" ++ ToString idx))]] in
      updated <- sdk "witApi.updateWorkItem" [JNull; doc; sourceId] ;;
      ret (text_result (JSON_stringify updated))
  end.

(** *** Pipelines *)

Definition pipelines_update_build_stage_body (args : Args) : M Envelope :=
  lift (to_string (arg args "project")) ;;;
  lift (to_string (arg args "buildId")) ;;;
  lift (to_string (arg args "stageName")) ;;;
  state <- lift (keyed (arg args "status")
                   (js_or (index stageUpdateMap (arg args "status")) (JNum 1))) ;;
  response <- fetch "PATCH"
                [JObj args;
                 obj [("state", state);
                      ("forceRetryAllJobs", arg args "forceRetryAllJobs")]] ;;
  result <- read "response.text()" response ;;
  ret (text_result result).

(** [await new Promise((res, rej) => { stream.pipe(writeStream);
    stream.on("end", res); stream.on("error", rej); })]: only the read
    stream is listened to *)
Definition pipe_to_file (stream filePath : JsVal) : M JsVal :=
  fun tr =>
    (pipe tr stream filePath,
     tr ++ [mkCall (js "stream.pipe(createWriteStream(filePath))")
              [stream; filePath]]).

Definition pipelines_download_artifact_body (args : Args) : M Envelope :=
  let destinationPath := arg args "destinationPath" in
  let artifactName := arg args "artifactName" in
  get_api "getBuildApi" ;;;
  stream <- sdk "buildApi.getArtifactContentZip"
              [arg args "project"; arg args "buildId"; artifactName] ;;
  if truthy destinationPath then
    dir <- lift (expr "resolve(destinationPath)" [destinationPath]) ;;
    read "mkdirSync(dir, { recursive: true })" dir ;;;
    filePath <- lift (expr "join(resolve(destinationPath), `${artifactName}.zip`)"
                        [destinationPath; artifactName]) ;;
    pipe_to_file stream filePath ;;;
    ret (text_result (JStr (js "Artifact saved to " ++ ToString filePath)))
  else
    size <- read "Buffer.concat(chunks).length" stream ;;
    ret (text_result
           (JStr (js "Artifact size: " ++ ToString size
                  ++ js " bytes (base64 not shown)"))).

(** *** Wiki *)

Definition wiki_get_page_body (args : Args) : M Envelope :=
  url <- lift (expr "the wiki page url" [JObj args]) ;;
  response <- fetch "GET" [url] ;;
  page <- read "response.json()" response ;;
  ret (text_result (JSON_stringify page)).

Definition wiki_get_page_content_body (args : Args) : M Envelope :=
  let path := arg_or args "path" (str "/") in
  get_api "getWikiApi" ;;;
  stream <- sdk "wikiApi.getPageText"
              [arg args "project"; arg args "wikiIdentifier"; path;
               JUndefined; JUndefined; JBool true] ;;
  if truthy stream then
    content <- read "streamToString(stream)" stream ;;
    ret (text_result content)
  else
    ret (error_result (str "No content found")).

(** a property of a [Response]: [response.ok], [response.headers.get(k)] *)
Definition response_field (response : JsVal) (k : string) : JsVal :=
  match response with
  | JObj fields =>
      match assoc (js k) fields with Some v => v | None => JUndefined end
  | _ => JUndefined
  end.

Definition wiki_create_or_update_page_body (args : Args) : M Envelope :=
  let content := obj [("content", arg args "content")] in
  let etag := arg args "etag" in
  url <- lift (expr "the wiki page url" [JObj args]) ;;
  response <- fetch "PUT" ([url; content] ++ (if truthy etag then [etag] else [])) ;;
  if truthy (response_field response "ok") then
    body <- read "response.json()" response ;;
    ret (text_result (JSON_stringify body))
  else
    getResp <- fetch "GET" [url] ;;
    let failed := (t <- read "response.text()" response ;; ret (error_result t)) in
    if truthy (response_field getResp "ok") then
      let currentEtag := response_field getResp "etag" in
      if truthy currentEtag then
        updateResp <- fetch "PUT" [url; content; currentEtag] ;;
        if truthy (response_field updateResp "ok") then
          body <- read "response.json()" updateResp ;;
          ret (text_result (JSON_stringify body))
        else failed
      else failed
    else failed.

(** *** Search *)

Definition search_body (results : string) (args : Args) : M Envelope :=
  response <- fetch "POST" [str results; JObj args] ;;
  t <- read "response.text()" response ;;
  ret (text_result t).

(** *** Test plans *)

(** [convertStepsToXml(steps)] on whatever the caller sent *)
Definition steps_markup (steps : JsVal) : Outcome JsVal :=
  match steps with
  | JStr s => Ret (JStr (Steps.convertStepsToXml s))
  | JUndefined | JNull => Throw (engine_error "steps.split" steps)
  | _ => Throw (TypeError "steps.split is not a function")
  end.

Definition testplan_create_test_case_body (args : Args) : M Envelope :=
  let steps := arg args "steps" in
  let priority := arg args "priority" in
  let areaPath := arg args "areaPath" in
  let iterationPath := arg args "iterationPath" in
  get_api "getWorkItemTrackingApi" ;;;
  stepsDoc <- (if truthy steps
               then xml <- lift (steps_markup steps) ;;
                    ret [patch "add" "/fields/Microsoft.VSTS.TCM.Steps" xml]
               else ret []) ;;
  let doc :=
    [patch "add" "/fields/System.Title" (arg args "title")] ++ stepsDoc
    ++ (if truthy priority
        then [patch "add" "/fields/Microsoft.VSTS.Common.Priority" priority]
        else [])
    ++ (if truthy areaPath
        then [patch "add" "/fields/System.AreaPath" areaPath] else [])
    ++ (if truthy iterationPath
        then [patch "add" "/fields/System.IterationPath" iterationPath]
        else []) in
  testCase <- sdk "witApi.createWorkItem"
                [JObj []; JArr doc; arg args "project"; str "Test Case"] ;;
  ret (text_result (JSON_stringify testCase)).

Definition testplan_update_test_case_steps_body (args : Args) : M Envelope :=
  get_api "getWorkItemTrackingApi" ;;;
  xml <- lift (steps_markup (arg args "steps")) ;;
  let doc := JArr [patch "add" "/fields/Microsoft.VSTS.TCM.Steps" xml] in
  testCase <- sdk "witApi.updateWorkItem" [JObj []; doc; arg args "id"] ;;
  ret (text_result (JSON_stringify testCase)).

(** *** Iterations *)

(** [d ? new Date(d) : undefined]: [date_or_undefined] is the value when
    the date can be made, [dated] the expression as it is evaluated: a
    truthy value without a primitive makes [new Date] throw. *)
Definition date_or_undefined (d : JsVal) : JsVal :=
  if truthy d then new_Date d else JUndefined.

Definition dated (d : JsVal) : Outcome JsVal :=
  if truthy d then to_primitive d (new_Date d) else Ret JUndefined.

Definition testplan_create_test_plan_body (args : Args) : M Envelope :=
  get_api "getTestPlanApi" ;;;
  starts <- lift (dated (arg args "startDate")) ;;
  ends <- lift (dated (arg args "endDate")) ;;
  plan <- sdk "testPlanApi.createTestPlan"
            [obj [("name", arg args "name"); ("iteration", arg args "iteration");
                  ("description", arg args "description");
                  ("startDate", starts); ("endDate", ends);
                  ("areaPath", arg args "areaPath")];
             arg args "project"] ;;
  ret (text_result (JSON_stringify plan)).

Definition create_iteration (project : JsVal) (item : JsVal) : M JsVal :=
  iterationName <- lift (get_field item "iterationName") ;;
  startDate <- lift (get_field item "startDate") ;;
  finishDate <- lift (get_field item "finishDate") ;;
  starts <- lift (dated startDate) ;;
  finishes <- lift (dated finishDate) ;;
  sdk "witApi.createOrUpdateClassificationNode"
    [obj [("name", iterationName);
          ("attributes",
           obj [("startDate", starts); ("finishDate", finishes)])];
     project; JNative (js "TreeStructureGroup.Iterations")].

Definition work_create_iterations_body (args : Args) : M Envelope :=
  bulk "getWorkItemTrackingApi" (arg args "iterations")
       (create_iteration (arg args "project")).

Definition assign_iteration (project team : JsVal) (item : JsVal) : M JsVal :=
  identifier <- lift (get_field item "identifier") ;;
  path <- lift (get_field item "path") ;;
  sdk "workApi.postTeamIteration"
    [obj [("id", identifier); ("path", path)];
     obj [("project", project); ("team", team)]].

Definition work_assign_iterations_body (args : Args) : M Envelope :=
  bulk "getWorkApi" (arg args "iterations")
       (assign_iteration (arg args "project") (arg args "team")).

(** *** The [switch] *)

Definition run_branch (b : Branch) (args : Args) (connection : Auth.WebApi)
  : M Envelope :=
  match b with
  | core_list_project_teams => one_call "getCoreApi" "coreApi.getTeams" args
  | core_list_projects => core_list_projects_body args
  | core_get_identity_ids => core_get_identity_ids_body args
  | repo_list_repos_by_project => repo_list_repos_by_project_body args
  | repo_get_repo_by_name_or_id => one_call "getGitApi" "gitApi.getRepository" args
  | repo_list_branches_by_repo =>
      processed_call "getGitApi" "gitApi.getRefs"
        "branches.filter(...).map(...).slice(0, top)" args
  | repo_list_my_branches_by_repo =>
      processed_call "getGitApi" "gitApi.getRefs"
        "branches.filter(...).slice(0, top)" args
  | repo_get_branch_by_name => one_call "getGitApi" "gitApi.getBranch" args
  | repo_create_branch => repo_create_branch_body args
  | repo_list_pull_requests_by_repo_or_project => repo_list_pull_requests_body args
  | repo_get_pull_request_by_id => one_call "getGitApi" "gitApi.getPullRequest" args
  | repo_create_pull_request =>
      prepared_call "getGitApi" "gitApi.createPullRequest"
        "the pull request to create" args
  | repo_update_pull_request => repo_update_pull_request_body args
  | repo_update_pull_request_reviewers => one_call "getGitApi" "gitApi.createPullRequestReviewer" args
  | repo_list_pull_request_threads => one_call "getGitApi" "gitApi.getThreads" args
  | repo_list_pull_request_thread_comments => one_call "getGitApi" "gitApi.getComments" args
  | repo_create_pull_request_thread => repo_create_pull_request_thread_body args
  | repo_update_pull_request_thread => repo_update_pull_request_thread_body args
  | repo_reply_to_comment => one_call "getGitApi" "gitApi.createComment" args
  | repo_search_commits => repo_search_commits_body args
  | repo_list_pull_requests_by_commits =>
      prepared_call "getGitApi" "gitApi.getPullRequestQuery"
        "commitIds.map(id => ({ type: 1, items: [id] }))" args
  | wit_get_work_item => wit_get_work_item_body args
  | wit_get_work_items_batch_by_ids => wit_get_work_items_batch_by_ids_body args
  | wit_create_work_item =>
      prepared_call "getWorkItemTrackingApi" "witApi.createWorkItem"
        "fields.map(f => ({ op, path, value }))" args
  | wit_update_work_item => one_call "getWorkItemTrackingApi" "witApi.updateWorkItem" args
  | wit_update_work_items_batch => wit_update_work_items_batch_body args
  | wit_my_work_items =>
      prepared_call "getWorkItemTrackingApi" "witApi.queryByWiql"
        "the WIQL text, with '${project}'" args
  | wit_list_backlogs => one_call "getWorkApi" "workApi.getBacklogs" args
  | wit_list_backlog_work_items => one_call "getWorkApi" "workApi.getBacklogLevelWorkItems" args
  | wit_list_work_item_comments => one_call "getWorkItemTrackingApi" "witApi.getComments" args
  | wit_add_work_item_comment => one_call "getWorkItemTrackingApi" "witApi.addComment" args
  | wit_list_work_item_revisions => one_call "getWorkItemTrackingApi" "witApi.getRevisions" args
  | wit_get_work_items_for_iteration => one_call "getWorkApi" "workApi.getIterationWorkItems" args
  | wit_add_child_work_items => wit_add_child_work_items_body connection args
  | wit_work_items_link =>
      prepared_call "getWorkItemTrackingApi" "witApi.updateWorkItem"
        "the link, with linkTypeMap[linkType] || linkType and `${connection.serverUrl}/_apis/wit/workItems/${targetId}`"
        args
  | wit_work_item_unlink => wit_work_item_unlink_body args
  | wit_link_work_item_to_pull_request =>
      prepared_call "getWorkItemTrackingApi" "witApi.updateWorkItem"
        "the link, with `vstfs:///Git/PullRequestId/${repositoryId}/${pullRequestId}`"
        args
  | wit_add_artifact_link => one_call "getWorkItemTrackingApi" "witApi.updateWorkItem" args
  | wit_get_work_item_type => one_call "getWorkItemTrackingApi" "witApi.getWorkItemType" args
  | wit_get_query => wit_get_query_body args
  | wit_get_query_results_by_id => one_call "getWorkItemTrackingApi" "witApi.queryById" args
  | pipelines_get_builds => one_call "getBuildApi" "buildApi.getBuilds" args
  | pipelines_get_build_changes => one_call "getBuildApi" "buildApi.getBuildChanges" args
  | pipelines_get_build_definitions => one_call "getBuildApi" "buildApi.getDefinitions" args
  | pipelines_get_build_definition_revisions => one_call "getBuildApi" "buildApi.getDefinitionRevisions" args
  | pipelines_get_build_log => one_call "getBuildApi" "buildApi.getBuildLogs" args
  | pipelines_get_build_log_by_id => one_call "getBuildApi" "buildApi.getBuildLogLines" args
  | pipelines_get_build_status => one_call "getBuildApi" "buildApi.getBuildReport" args
  | pipelines_update_build_stage => pipelines_update_build_stage_body args
  | pipelines_create_pipeline => one_call "getPipelinesApi" "pipelinesApi.createPipeline" args
  | pipelines_get_run => one_call "getPipelinesApi" "pipelinesApi.getRun" args
  | pipelines_list_runs => one_call "getPipelinesApi" "pipelinesApi.listRuns" args
  | pipelines_run_pipeline => one_call "getPipelinesApi" "pipelinesApi.runPipeline" args
  | pipelines_list_artifacts => one_call "getBuildApi" "buildApi.getArtifacts" args
  | pipelines_download_artifact => pipelines_download_artifact_body args
  | wiki_list_wikis => one_call "getWikiApi" "wikiApi.getAllWikis" args
  | wiki_get_wiki => one_call "getWikiApi" "wikiApi.getWiki" args
  | wiki_list_pages => one_call "getWikiApi" "wikiApi.getPagesBatch" args
  | wiki_get_page => wiki_get_page_body args
  | wiki_get_page_content => wiki_get_page_content_body args
  | wiki_create_or_update_page => wiki_create_or_update_page_body args
  | search_code => search_body "codesearchresults" args
  | search_wiki => search_body "wikisearchresults" args
  | search_workitem => search_body "workitemsearchresults" args
  | testplan_list_test_plans => one_call "getTestPlanApi" "testPlanApi.getTestPlans" args
  | testplan_create_test_plan => testplan_create_test_plan_body args
  | testplan_list_test_suites => one_call "getTestPlanApi" "testPlanApi.getTestSuitesForPlan" args
  | testplan_create_test_suite => one_call "getTestPlanApi" "testPlanApi.createTestSuite" args
  | testplan_list_test_cases => one_call "getTestPlanApi" "testPlanApi.getTestCaseList" args
  | testplan_create_test_case => testplan_create_test_case_body args
  | testplan_update_test_case_steps => testplan_update_test_case_steps_body args
  | testplan_add_test_cases_to_suite =>
      prepared_call "getTestApi" "testApi.addTestCasesToSuite"
        "testCaseIds.join(,)" args
  | testplan_show_test_results_from_build_id => one_call "getTestResultsApi" "testResultsApi.getTestResultDetailsForBuild" args
  | advsec_get_alerts =>
      prepared_call "getAlertApi" "alertApi.getAlerts"
        "the alert criteria" args
  | advsec_get_alert_details => one_call "getAlertApi" "alertApi.getAlert" args
  | work_list_team_iterations => one_call "getWorkApi" "workApi.getTeamIterations" args
  | work_list_iterations =>
      processed_call "getWorkItemTrackingApi" "witApi.getClassificationNodes"
        "nodes?.filter(n => n.structureType === TreeNodeStructureType.Iteration)" args
  | work_create_iterations => work_create_iterations_body args
  | work_assign_iterations => work_assign_iterations_body args
  | work_get_team_capacity => one_call "getWorkApi" "workApi.getCapacitiesWithIdentityRefAndTotals" args
  | work_update_team_capacity =>
      prepared_call "getWorkApi" "workApi.updateCapacityWithIdentityRef"
        "the capacity patch" args
  | work_get_iteration_capacities => one_call "getWorkApi" "workApi.getTotalIterationCapacities" args
  end.

Definition handleToolCall (name : jsstr) (args : Args) (connection : Auth.WebApi)
  : M Envelope :=
  match select name with
  | Some b => run_branch b args connection
  | None => ret (error_result (JStr (js "Unknown tool: " ++ name)))
  end.

(** [error instanceof Error ? error.message : "Unknown error occurred"] *)
Definition errorMessage (error : Thrown) : jsstr :=
  match error with
  | ErrorObj message => message
  | _ => js "Unknown error occurred"
  end.

(** the [catch] block of the call-tool request handler *)
Definition caught (error : Thrown) : Envelope :=
  error_result (JStr (js "Error: " ++ errorMessage error)).

(** The handler registered for [CallToolRequestSchema]; [arguments] is
    absent or an object.  [connectionProvider()] runs [getWebApiClient] on
    the client and the promise is awaited inside the [try]. *)
Definition callTool (config : Auth.AuthConfig) (name : jsstr)
  (arguments : option Args) (c : Auth.ClientState) (tr : Trace)
  : Outcome Envelope * Auth.ClientState * Trace :=
  let (promise, c') := Auth.getWebApiClient config c in
  let (result, tr') :=
    try_catch
      (connection <- Auth.await promise ;;
       handleToolCall name
         (match arguments with Some args => args | None => [] end) connection)
      (fun error => ret (caught error)) tr in
  (result, c', tr').

End Handlers.

(** [createServer(config)] up to the construction of the client: the
    configuration the handlers close over, or the exception. *)
Definition createServer (config : Auth.AuthConfig) : Outcome Auth.AuthConfig :=
  match Auth.organizationUrl config with
  | [] => Throw (ErrorObj (js "Organization URL is required"))
  | _ :: _ =>
      match Auth.personalAccessToken config with
      | [] => Throw (ErrorObj (js "Personal Access Token (PAT) is required"))
      | _ :: _ => Ret config
      end
  end.

End Server.

(* ================================================================== *)
(** ** Vocabulary of the statements *)

Module Claims.

(** what stops a greedy run: the end of the input or a unit outside [p] *)
Definition stops (p : N -> bool) (rest : jsstr) : Prop :=
  match rest with
  | [] => True
  | c :: _ => p c = false
  end.

Definition bar : N := 124.
Definition period : N := 46.

(** a text between double quotes *)
Definition q (s : string) : jsstr := [34%N] ++ js s ++ [34%N].

(** the lines of a step text with the index the loop gives them *)
Definition numbered (lines : list jsstr) : list (nat * jsstr) :=
  combine (seq 0 (List.length lines)) lines.

(** The input of the example: two lines, joined by a line feed. *)
Definition example_steps : jsstr :=
  js "1. Click login|User sees dashboard" ++ [10%N]
  ++ js "2. Enter bad password|Error shown".

(** The markup expected for it, character by character. *)
Definition example_markup : jsstr :=
  js "<steps id=" ++ q "0" ++ js " last=" ++ q "2" ++ js ">"
  ++ js "<step id=" ++ q "1" ++ js " type=" ++ q "ActionStep" ++ js ">"
  ++ js "<parameterizedString isformatted=" ++ q "true" ++ js ">"
  ++ js "Click login</parameterizedString>"
  ++ js "<parameterizedString isformatted=" ++ q "true" ++ js ">"
  ++ js "User sees dashboard</parameterizedString></step>"
  ++ js "<step id=" ++ q "2" ++ js " type=" ++ q "ActionStep" ++ js ">"
  ++ js "<parameterizedString isformatted=" ++ q "true" ++ js ">"
  ++ js "Enter bad password</parameterizedString>"
  ++ js "<parameterizedString isformatted=" ++ q "true" ++ js ">"
  ++ js "Error shown</parameterizedString></step>"
  ++ js "</steps>".

(** the raw characters that must not survive escaping; the ampersand
    survives only as the head of an entity *)
Definition is_markup_char (c : N) : bool :=
  existsb (N.eqb c) [60; 62; 39; 34]%N.

(** Follows the words of the claim: everything after the first [|] of a
    line, if the line has one. *)
Fixpoint after_first_bar (line : jsstr) : option jsstr :=
  match line with
  | [] => None
  | c :: rest => if N.eqb c bar then Some rest else after_first_bar rest
  end.

(** the expected-result text shown for the second field [b] of a line *)
Definition shown_expected (b : jsstr) : jsstr :=
  match trim b with
  | [] => Steps.placeholder
  | _ :: _ => trim b
  end.

(** a line with three fields *)
Definition three_fields : jsstr := js "1. Open page|Title shown|and footer".

(** no two equal elements, decided *)
Fixpoint distinct {A : Type} (eq : A -> A -> bool) (l : list A) : bool :=
  match l with
  | [] => true
  | x :: rest => negb (existsb (eq x) rest) && distinct eq rest
  end.

Definition jsstr_eq_dec : forall a b : jsstr, {a = b} + {a <> b} :=
  list_eq_dec N.eq_dec.

(** [n] calls of the connection accessor, one after the other: the
    promises handed out and the state left behind *)
Fixpoint accessor_calls (config : Auth.AuthConfig) (n : nat)
  (c : Auth.ClientState) : list Auth.ClientPromise * Auth.ClientState :=
  match n with
  | 0 => ([], c)
  | S n' =>
      let (p, c1) := Auth.getClient config c in
      let (ps, c2) := accessor_calls config n' c1 in
      (p :: ps, c2)
  end.

(** a run of the server: tool invocations handled one after the other *)
Fixpoint serve `{Host} (config : Auth.AuthConfig)
  (requests : list (jsstr * option Args)) (c : Auth.ClientState) (tr : Trace)
  : list (Outcome Server.Envelope) * Auth.ClientState * Trace :=
  match requests with
  | [] => ([], c, tr)
  | (name, arguments) :: rest =>
      match Server.callTool config name arguments c tr with
      | (result, c1, tr1) =>
          match serve config rest c1 tr1 with
          | (results, c2, tr2) => (result :: results, c2, tr2)
          end
      end
  end.

(** an envelope whose [content] is one item of type ["text"] *)
Definition one_text (env : Server.Envelope) : Prop :=
  exists t, Server.content env = [Server.mkItem (js "text") t].

(** a handler all of whose returns are such envelopes *)
Definition returns_one_text (m : M Server.Envelope) : Prop :=
  forall tr env tr', m tr = (Ret env, tr') -> one_text env.

(** an outcome that is the end of the process: an ['error'] event
    nobody listened for *)
Definition ends_process {A : Type} (o : Outcome A) : bool :=
  match o with
  | Throw (Unhandled _) => true
  | _ => false
  end.

(** what the request handler answers when [error] reaches its [catch], and
    what happens when it is an event that reaches no [catch] *)
Definition at_boundary (error : Thrown) : Outcome Server.Envelope :=
  match error with
  | Unhandled v => Throw (Unhandled v)
  | _ => Ret (Server.caught error)
  end.

(** a host whose requests settle and whose expressions return or throw:
    only the piping of a stream into a file may end the process *)
Definition settles (H : Host) : Prop :=
  (forall tr c, ends_process (service tr c) = false)
  /\ (forall text operands, ends_process (expr text operands) = false).

(** a host on which writing a file does not fail *)
Definition writes (H : Host) : Prop :=
  forall tr stream filePath, ends_process (pipe tr stream filePath) = false.

(** a handler that never ends the process *)
Definition quiet {A : Type} (m : M A) : Prop :=
  forall tr, ends_process (fst (m tr)) = false.

(** the client of a server holds no rejected promise *)
Definition client_ok (c : Auth.ClientState) : Prop :=
  match Auth.clientPromise c with
  | Some (Throw _) => False
  | _ => True
  end.

(** *** The token and its header *)

(** a string of UTF-16 code units in which every surrogate is half of a
    pair *)
Fixpoint well_formed (s : jsstr) : bool :=
  match s with
  | [] => true
  | c :: s' =>
      if is_high c then
        match s' with
        | d :: s'' => is_low d && well_formed s''
        | [] => false
        end
      else negb (is_low c) && N.ltb c 65536 && well_formed s'
  end.

(** what a reader of the header gets back from its payload: the base64
    text decoded to bytes, the bytes read as UTF-8 *)
Definition decoded (payload : jsstr) : option jsstr :=
  match Base64.decode payload with
  | Some bytes => Buffer_toString bytes
  | None => None
  end.

(** a token that is one high surrogate on its own *)
Definition lone_surrogate : jsstr := [55296%N].

(** *** Hosts for the examples *)

(** lower case of the letters A to Z *)
Definition ascii_lower (s : jsstr) : jsstr :=
  map (fun c => if (N.leb 65 c && N.leb c 90)%bool then (c + 32)%N else c) s.

(** A host for the examples: [answer] decides what the service does with a
    request; [JSON_stringify] hands its operand back unprinted, so that
    what a handler returns can be read off the envelope. *)
Definition example_host (answer : Call -> Outcome JsVal) : Host :=
  {| service := fun _ c => answer c;
     JSON_stringify := fun v => v;
     ToString := fun v => match v with JStr s => s | _ => js "[object Object]" end;
     toLowerCase := ascii_lower;
     new_Date := fun v => v;
     engine_message := fun operation _ => js operation;
     pipe := fun _ _ _ => Ret JUndefined;
     expr := fun _ _ => Throw (TypeError "not evaluated") |}.

(** a host on which the artifact is fetched and the file cannot be
    written *)
Definition unwritable_host : Host :=
  {| service := fun _ _ => Ret (JObj []);
     JSON_stringify := fun v => v;
     ToString := fun v => match v with JStr s => s | _ => js "[object Object]" end;
     toLowerCase := ascii_lower;
     new_Date := fun v => v;
     engine_message := fun operation _ => js operation;
     pipe := fun _ _ _ => Throw (Unhandled (JStr (js "EACCES: permission denied")));
     expr := fun text _ =>
               if String.eqb text "resolve(destinationPath)"
               then Ret (JStr (js "/proc"))
               else Ret (JStr (js "/proc/drop.zip")) |}.

Definition example_config : Auth.AuthConfig :=
  Auth.mkConfig (js "https://dev.azure.com/contoso") (js "s3cret").

Definition example_connection : Auth.WebApi :=
  Auth.mkWebApi 0 (js "https://dev.azure.com/contoso").

(** a service that fails every request by throwing an object that is not
    an [Error] but has a [message] *)
Definition quota_message : jsstr := js "quota exceeded".

Definition refusing (c : Call) : Outcome JsVal :=
  Throw (NotAnError (JObj [(js "message", JStr quota_message)])).

(** the arguments of a listing that asks for the status [NotSet] *)
Definition NotSet_args : Args :=
  [(js "repositoryId", JStr (js "repo")); (js "status", JStr (js "NotSet"))].

(** *** The bulk operations *)

Inductive BulkTool : Type :=
| UpdateBatch
| AddChildren
| CreateIterations
| AssignIterations.

Definition bulk_name (t : BulkTool) : string :=
  match t with
  | UpdateBatch => "wit_update_work_items_batch"
  | AddChildren => "wit_add_child_work_items"
  | CreateIterations => "work_create_iterations"
  | AssignIterations => "work_assign_iterations"
  end.

(** the argument that carries the batch *)
Definition bulk_field (t : BulkTool) : string :=
  match t with
  | UpdateBatch => "workItems"
  | AddChildren => "childIds"
  | CreateIterations | AssignIterations => "iterations"
  end.

(** the request that obtains the API, issued before the loop *)
Definition getter_call (t : BulkTool) : Call :=
  match t with
  | AssignIterations => mkCall (js "connection.getWorkApi") []
  | _ => mkCall (js "connection.getWorkItemTrackingApi") []
  end.

(** an own property of an item, [undefined] when it has none by that name *)
Definition own_field (item : JsVal) (k : string) : JsVal :=
  match item with
  | JObj fields =>
      match assoc (js k) fields with Some v => v | None => JUndefined end
  | _ => JUndefined
  end.

(** the one request the loop issues for an item of the batch *)
Definition item_request `{Host} (t : BulkTool) (connection : Auth.WebApi)
  (args : Args) (item : JsVal) : Call :=
  match t with
  | UpdateBatch =>
      mkCall (js "witApi.updateWorkItem")
        [JNull; own_field item "updates"; own_field item "id"]
  | AddChildren =>
      mkCall (js "witApi.updateWorkItem")
        [JNull;
         JArr [Server.patch "add" "/relations/-"
                 (Server.obj
                    [("rel", Server.str "System.LinkTypes.Hierarchy-Forward");
                     ("url", JStr (Auth.serverUrl connection
                                   ++ js "/_apis/wit/workItems/"
                                   ++ ToString item))])];
         arg args "parentId"]
  | CreateIterations =>
      mkCall (js "witApi.createOrUpdateClassificationNode")
        [Server.obj
           [("name", own_field item "iterationName");
            ("attributes",
             Server.obj
               [("startDate",
                 Server.date_or_undefined (own_field item "startDate"));
                ("finishDate",
                 Server.date_or_undefined (own_field item "finishDate"))])];
         arg args "project"; JNative (js "TreeStructureGroup.Iterations")]
  | AssignIterations =>
      mkCall (js "workApi.postTeamIteration")
        [Server.obj [("id", own_field item "identifier");
                     ("path", own_field item "path")];
         Server.obj [("project", arg args "project");
                     ("team", arg args "team")]]
  end.

(** an item the loop can make its request for: its fields can be read, so
    it is neither [null] nor [undefined]; a child id, which is not read
    into, can be written into the url; the dates of an iteration, when
    given, can be made *)
Definition readable (item : JsVal) : bool :=
  match item with
  | JUndefined | JNull => false
  | _ => true
  end.

Definition datable (d : JsVal) : bool := negb (truthy d) || convertible d.

Definition item_ok (t : BulkTool) (item : JsVal) : bool :=
  match t with
  | AddChildren => convertible item
  | CreateIterations =>
      readable item
      && datable (own_field item "startDate")
      && datable (own_field item "finishDate")
  | UpdateBatch | AssignIterations => readable item
  end.

(** the body of the loop of each bulk handler *)
Definition bulk_body `{Host} (t : BulkTool) (connection : Auth.WebApi)
  (args : Args) : JsVal -> M JsVal :=
  match t with
  | UpdateBatch => Server.update_one
  | AddChildren => Server.add_child connection (arg args "parentId")
  | CreateIterations => Server.create_iteration (arg args "project")
  | AssignIterations =>
      Server.assign_iteration (arg args "project") (arg args "team")
  end.

Definition no_call : Call := mkCall [] [].

(** the [k]-th request of the loop, counting from 0, is answered by [o]
    when the requests before it have been issued *)
Definition answer_at `{Host} (tr0 : Trace) (calls : list Call) (k : nat)
  (o : Outcome JsVal) : Prop :=
  service (tr0 ++ firstn k calls) (nth k calls no_call) = o.

(** a batch of three work items, and a service that rejects the second *)
Definition three_items : list JsVal :=
  [ Server.obj [("id", JNum 11); ("updates", JArr [])];
    Server.obj [("id", JNum 12); ("updates", JArr [])];
    Server.obj [("id", JNum 13); ("updates", JArr [])] ].

Definition rejects_12 (c : Call) : Outcome JsVal :=
  match operands c with
  | [_; _; JNum 12] => Throw (ErrorObj (js "TF401320: rule violation"))
  | _ => Ret (JObj [])
  end.

(** a service that rejects the second with an object that is not an
    [Error] but carries a message *)
Definition refuses_12 (c : Call) : Outcome JsVal :=
  match operands c with
  | [_; _; JNum 12] =>
      Throw (NotAnError (JObj [(js "message", JStr (js "TF401320: rule violation"))]))
  | _ => Ret (JObj [])
  end.

(** *** Name filters *)

(** a fetched item: an object whose [name] is a string or is missing *)
Definition listed (item : JsVal) : bool :=
  match item with
  | JObj fields =>
      match assoc (js "name") fields with
      | None | Some JUndefined | Some JNull | Some (JStr _) => true
      | Some _ => false
      end
  | _ => false
  end.

Definition name_of (item : JsVal) : option jsstr :=
  match item with
  | JObj fields =>
      match assoc (js "name") fields with
      | Some (JStr n) => Some n
      | _ => None
      end
  | _ => None
  end.

(** the name of the item contains the filter, both in lower case *)
Definition name_contains `{Host} (f : jsstr) (item : JsVal) : bool :=
  match name_of item with
  | Some n => includes (toLowerCase n) (toLowerCase f)
  | None => false
  end.

(** the fetched items whose name contains the filter, in their order *)
Definition selected `{Host} (f : jsstr) (items : list JsVal) : list JsVal :=
  filter (name_contains f) items.

Definition projects_getter : Call := mkCall (js "connection.getCoreApi") [].

Definition projects_call (args : Args) : Call :=
  mkCall (js "coreApi.getProjects")
    [arg args "stateFilter"; arg args "top"; arg args "skip"].

Definition repos_getter : Call := mkCall (js "connection.getGitApi") [].

Definition repos_call (args : Args) : Call :=
  mkCall (js "gitApi.getRepositories") [arg args "project"].

(** two repositories whose names both contain ["alpha"] *)
Definition two_repos : list JsVal :=
  [ Server.obj [("name", Server.str "alpha")];
    Server.obj [("name", Server.str "Alpha-tools")] ].

(** a listing filtered by ["alpha"], one repository a page *)
Definition first_page_args : Args :=
  [(js "repoNameFilter", JStr (js "alpha")); (js "top", JNum 1)].

End Claims.

Import Claims.

(* ================================================================== *)
(** ** [src/server.ts]: the organization name *)

Module Setup.

(** [urlParts[urlParts.length - 1] || urlParts[urlParts.length - 2] || ""]
    with [urlParts = config.organizationUrl.split("/")]: the last piece,
    else the one before it, else the empty string; an index below 0 reads
    [undefined]. *)
Definition orgName (organizationUrl : jsstr) : jsstr :=
  match rev (split_on 47 organizationUrl) with
  | (_ :: _) as last :: _ => last
  | [] :: ((_ :: _) as before) :: _ => before
  | _ => []
  end.

End Setup.

(* ================================================================== *)
(** ** Strings that [Number] reads as a number *)

Module Numeric.

Definition is_hex_digit (c : N) : bool :=
  is_digit c || (N.leb 97 c && N.leb c 102) || (N.leb 65 c && N.leb c 70).

Definition is_octal_digit (c : N) : bool := N.leb 48 c && N.leb c 55.

Definition is_binary_digit (c : N) : bool := N.leb 48 c && N.leb c 49.

(** one or more units of a class, and nothing else *)
Definition some_of (p : N -> bool) (s : jsstr) : bool :=
  match s with
  | [] => false
  | _ :: _ => forallb p s
  end.

(** the longest run of a class at the head, and what follows it *)
Fixpoint span (p : N -> bool) (s : jsstr) : jsstr * jsstr :=
  match s with
  | c :: s' =>
      if p c then let (run, rest) := span p s' in (c :: run, rest)
      else ([], s)
  | [] => ([], [])
  end.

(** ExponentPart, optional: [e] or [E], an optional sign, digits *)
Definition exponent_opt (s : jsstr) : bool :=
  match s with
  | [] => true
  | c :: r =>
      (N.eqb c 101 || N.eqb c 69)
      && match r with
         | d :: r' =>
             if N.eqb d 43 || N.eqb d 45 then some_of is_digit r'
             else some_of is_digit r
         | [] => false
         end
  end.

(** StrUnsignedDecimalLiteral *)
Definition unsigned_decimal (s : jsstr) : bool :=
  if JsString.eqb s (js "Infinity") then true
  else
    let (int, rest) := span is_digit s in
    match rest with
    | 46%N :: after =>
        let (frac, rest') := span is_digit after in
        match int, frac with
        | [], [] => false
        | _, _ => exponent_opt rest'
        end
    | _ =>
        match int with
        | [] => false
        | _ :: _ => exponent_opt rest
        end
    end.

(** StrDecimalLiteral: an optional sign first *)
Definition decimal (s : jsstr) : bool :=
  match s with
  | c :: s' =>
      if N.eqb c 43 || N.eqb c 45 then unsigned_decimal s'
      else unsigned_decimal s
  | [] => false
  end.

(** NonDecimalIntegerLiteral: [0x], [0o], [0b] and digits of the base *)
Definition non_decimal (s : jsstr) : bool :=
  match s with
  | 48%N :: b :: digits =>
      if N.eqb b 120 || N.eqb b 88 then some_of is_hex_digit digits
      else if N.eqb b 111 || N.eqb b 79 then some_of is_octal_digit digits
      else if N.eqb b 98 || N.eqb b 66 then some_of is_binary_digit digits
      else false
  | _ => false
  end.

(** [!isNaN(Number(s))]: white space around is ignored, the empty text
    reads as 0. *)
Definition is_numeric (s : jsstr) : bool :=
  match trim s with
  | [] => true
  | t => non_decimal t || decimal t
  end.

End Numeric.

(* ================================================================== *)
(** ** [src/utils/index.ts] *)

Module Utils.

(** An enum object: its own properties as [Object.entries] yields them, a
    name (or a reverse-mapping key) with a number or a string. *)
Definition EnumObject := list (jsstr * JsVal).

(** [Object.keys(enumObj).filter((key) => isNaN(Number(key)))] *)
Definition getEnumKeys (enumObj : EnumObject) : list jsstr :=
  filter (fun key => negb (Numeric.is_numeric key)) (map fst enumObj).

(** The mapping object under construction: its own properties, the most
    recent assignment first. *)
Definition Mapping := list (jsstr * Z).

(** [mapping[key] = value]: assigning a number to [__proto__] changes
    nothing. *)
Definition assign (key : jsstr) (value : Z) (mapping : Mapping) : Mapping :=
  if JsString.eqb key (js "__proto__") then mapping
  else (key, value) :: mapping.

Fixpoint own (key : jsstr) (mapping : Mapping) : option Z :=
  match mapping with
  | [] => None
  | (k, v) :: rest => if JsString.eqb key k then Some v else own key rest
  end.

(** [mapping[key]]: the own property, else what [Object.prototype] has by
    that name, else [undefined] *)
Definition mapping_get (mapping : Mapping) (key : jsstr) : JsVal :=
  match own key mapping with
  | Some v => JNum v
  | None =>
      if existsb (JsString.eqb key) object_prototype_members
      then JNative key
      else JUndefined
  end.

(** [a ?? b] *)
Definition nullish_or (a b : JsVal) : JsVal :=
  match a with
  | JUndefined | JNull => b
  | _ => a
  end.

(** [s.replace(re, replacement)] for a pattern of one character with the
    global flag *)
Definition replace_all (c : N) (replacement : jsstr) (s : jsstr) : jsstr :=
  flat_map (fun d => if N.eqb d c then replacement else [d]) s.

Section WithHost.

Context `{Host}.

(** the loop over [Object.entries(enumObject)]: a numeric value is stored
    under the lower-cased key *)
Definition createEnumMapping (enumObject : EnumObject) : Mapping :=
  fold_left
    (fun mapping entry =>
       match snd entry with
       | JNum value => assign (toLowerCase (fst entry)) value mapping
       | _ => mapping
       end)
    enumObject [].

Definition mapStringToEnum (value : JsVal) (enumObject : EnumObject)
  (defaultValue : JsVal) : Outcome JsVal :=
  if truthy value then
    match value with
    | JStr s =>
        let enumMapping := createEnumMapping enumObject in
        Ret (nullish_or (mapping_get enumMapping (toLowerCase s)) defaultValue)
    | _ => Throw (TypeError "value.toLowerCase is not a function")
    end
  else Ret defaultValue.

(** [values.map(f)]: the first exception ends it *)
Fixpoint map_outcome (f : JsVal -> Outcome JsVal) (values : list JsVal)
  : Outcome (list JsVal) :=
  match values with
  | [] => Ret []
  | v :: rest =>
      match f v with
      | Throw e => Throw e
      | Ret r =>
          match map_outcome f rest with
          | Throw e => Throw e
          | Ret rs => Ret (r :: rs)
          end
      end
  end.

Definition is_defined (v : JsVal) : bool :=
  match v with
  | JUndefined => false
  | _ => true
  end.

(** [mapStringArrayToEnum]: written out for no value and for an array *)
Definition mapStringArrayToEnum (values : JsVal) (enumObject : EnumObject)
  : Outcome (list JsVal) :=
  if truthy values then
    match values with
    | JArr items =>
        match map_outcome (fun value => mapStringToEnum value enumObject JUndefined)
                items with
        | Ret mapped => Ret (filter is_defined mapped)
        | Throw e => Throw e
        end
    | _ => Throw (TypeError "values.map is not a function")
    end
  else Ret [].

End WithHost.

(** [validKeys.includes(key)]: only a string equals a string *)
Definition includes_key (validKeys : list jsstr) (key : JsVal) : bool :=
  match key with
  | JStr s => existsb (JsString.eqb s) validKeys
  | _ => false
  end.

Definition safeEnumConvert (enumObject : EnumObject) (key : JsVal) : JsVal :=
  if truthy key then
    let validKeys := getEnumKeys enumObject in
    if includes_key validKeys key then
      match key with
      | JStr s =>
          match assoc s enumObject with Some v => v | None => JUndefined end
      | _ => JUndefined
      end
    else JUndefined
  else JUndefined.

(** [encodeFormattedValue(value, format)] *)
Definition encodeFormattedValue (value format : JsVal) : Outcome JsVal :=
  let markdown :=
    match format with
    | JStr f => JsString.eqb f (js "Markdown")
    | _ => false
    end in
  if negb (truthy value) || negb markdown then Ret value
  else
    match value with
    | JStr s =>
        Ret (JStr (replace_all 62 (js "&gt;") (replace_all 60 (js "&lt;") s)))
    | _ => Throw (TypeError "value.replace is not a function")
    end.

End Utils.

(* ================================================================== *)
(** ** [src/server.ts]: reshaping the fetched branches *)

Module Branches.

Definition heads : jsstr := js "refs/heads/".

(** [s.replace(pattern, "")] with a string pattern: the first occurrence
    goes, the rest stays *)
Fixpoint remove_first (pattern s : jsstr) : jsstr :=
  if is_prefix pattern s then skipn (List.length pattern) s
  else
    match s with
    | [] => []
    | c :: s' => c :: remove_first pattern s'
    end.

(** [b => b.name?.startsWith("refs/heads/")] on an object whose [name] is a
    string or is missing *)
Definition in_heads (b : JsVal) : bool :=
  match name_of b with
  | Some n => is_prefix heads n
  | None => false
  end.

(** [b => b.name?.replace("refs/heads/", "")] *)
Definition short_name (b : JsVal) : JsVal :=
  match name_of b with
  | Some n => JStr (remove_first heads n)
  | None => JUndefined
  end.

(** [branches.filter(...).map(...).slice(0, top)] of
    [repo_list_branches_by_repo], for an array of such objects and an
    integer [top] *)
Definition branch_names (top : Z) (branches : list JsVal) : list JsVal :=
  slice 0 top (map short_name (filter in_heads branches)).

(** [branches.filter(...).slice(0, top)] of [repo_list_my_branches_by_repo] *)
Definition my_branches (top : Z) (branches : list JsVal) : list JsVal :=
  slice 0 top (filter in_heads branches).

End Branches.

(* ================================================================== *)
(** ** Vocabulary of the further statements *)

Module More.

(** The reader of what [escapeXml] writes: after an ampersand, the entity
    that follows decides the character and how many units to skip. *)
Definition entity_at (s : jsstr) : option (N * nat) :=
  if is_prefix (js "lt;") s then Some (60%N, 3)
  else if is_prefix (js "gt;") s then Some (62%N, 3)
  else if is_prefix (js "amp;") s then Some (38%N, 4)
  else if is_prefix (js "apos;") s then Some (39%N, 5)
  else if is_prefix (js "quot;") s then Some (34%N, 5)
  else None.

Fixpoint unescape_from (skip : nat) (s : jsstr) : jsstr :=
  match s with
  | [] => []
  | c :: s' =>
      match skip with
      | S k => unescape_from k s'
      | 0 =>
          if N.eqb c 38 then
            match entity_at s' with
            | Some (ch, len) => ch :: unescape_from len s'
            | None => c :: unescape_from 0 s'
            end
          else c :: unescape_from 0 s'
      end
  end.

Definition unescapeXml (s : jsstr) : jsstr := unescape_from 0 s.

(** a text of white space only, without a line feed *)
Definition blank_line (s : jsstr) : bool :=
  forallb (fun c => is_ws c && negb (N.eqb c 10)) s.

(** the calls of the handlers looked at below *)
Definition git_getter : Call := mkCall (js "connection.getGitApi") [].

Definition wit_getter : Call :=
  mkCall (js "connection.getWorkItemTrackingApi") [].

Definition is_fetch (c : Call) : bool := is_prefix (js "fetch ") (target c).

(** a host for the examples whose service and whose remaining expressions
    are both given; [JSON_stringify] hands its operand back unprinted *)
Definition scripted_host (answer : Call -> Outcome JsVal)
  (evaluate : string -> list JsVal -> Outcome JsVal) : Host :=
  {| service := fun _ c => answer c;
     JSON_stringify := fun v => v;
     ToString := fun v => match v with JStr s => s | _ => js "[object Object]" end;
     toLowerCase := ascii_lower;
     new_Date := fun v => v;
     engine_message := fun operation _ => js operation;
     pipe := fun _ _ _ => Ret JUndefined;
     expr := evaluate |}.

(** a numeric enum as the compiler emits it: each member under its name,
    and its name under the decimal text of its number *)
Definition numeric_enum (members : list (jsstr * nat)) : Utils.EnumObject :=
  map (fun m => (of_nat (snd m), JStr (fst m))) members
  ++ map (fun m => (fst m, JNum (Z.of_nat (snd m)))) members.

(** the objects of a fetched list whose text field [field] is a string or
    is missing *)
Definition fielded (field : string) (item : JsVal) : bool :=
  match item with
  | JObj fields =>
      match assoc (js field) fields with
      | None | Some JUndefined | Some JNull | Some (JStr _) => true
      | Some _ => false
      end
  | _ => false
  end.

Definition field_has `{Host} (field : string) (f : jsstr) (item : JsVal) : bool :=
  match item with
  | JObj fields =>
      match assoc (js field) fields with
      | Some (JStr n) => includes (toLowerCase n) (toLowerCase f)
      | _ => false
      end
  | _ => false
  end.

(** the criteria [repo_search_commits] sends *)
Definition commit_criteria (args : Args) : JsVal :=
  Server.obj ([("$top", arg_or args "top" (JNum 100))]
              ++ Server.when (arg args "author") "author" (arg args "author")
              ++ Server.when (arg args "fromDate") "fromDate" (arg args "fromDate")
              ++ Server.when (arg args "toDate") "toDate" (arg args "toDate")).

Definition commits_call (args : Args) : Call :=
  mkCall (js "gitApi.getCommits")
    [arg args "repositoryId"; commit_criteria args; arg args "project"].

(** a value that is a text *)
Definition is_text (v : JsVal) : bool :=
  match v with
  | JStr _ => true
  | _ => false
  end.

(** the lookup [mapStringArrayToEnum] maps over the array *)
Definition lookup `{Host} (enumObject : Utils.EnumObject) (value : JsVal)
  : Outcome JsVal :=
  Utils.mapStringToEnum value enumObject JUndefined.

(** what a lookup in an enum can find: the number of a member, or a member
    every object inherits *)
Definition of_enum (enumObject : Utils.EnumObject) (r : JsVal) : Prop :=
  (exists k v, r = JNum v /\ In (k, JNum v) enumObject)
  \/ (exists n, r = JNative n /\ In n object_prototype_members).

(** three severities, as a numeric enum *)
Definition severity_enum : Utils.EnumObject :=
  numeric_enum [(js "Low", 0); (js "Medium", 1); (js "High", 2)].

End More.

Import More.

(* ================================================================== *)
(** * Properties *)

Unset Implicit Arguments.

(** ** Strings and the step pattern *)

Lemma eqb_eq (a b : jsstr) : JsString.eqb a b = true <-> a = b.
Proof.
  unfold JsString.eqb. destruct (list_eq_dec N.eq_dec a b); split; congruence.
Qed.

Lemma eqb_refl (a : jsstr) : JsString.eqb a a = true.
Proof. now apply eqb_eq. Qed.

Lemma split_on_whole (sep : N) (s : jsstr) :
  ~ In sep s -> split_on sep s = [s].
Proof.
  induction s as [|c s IH]; intros Hs; simpl; [reflexivity|].
  destruct (N.eqb_spec c sep) as [->|_].
  - exfalso. apply Hs. now left.
  - rewrite IH; [reflexivity|]. intros Hin. apply Hs. now right.
Qed.

Lemma split_on_first (sep : N) (a rest : jsstr) :
  ~ In sep a -> split_on sep (a ++ sep :: rest) = a :: split_on sep rest.
Proof.
  induction a as [|c a IH]; intros Ha; simpl.
  - now rewrite N.eqb_refl.
  - destruct (N.eqb_spec c sep) as [->|_].
    + exfalso. apply Ha. now left.
    + rewrite IH; [reflexivity|]. intros Hin. apply Ha. now right.
Qed.

Section StarFacts.

Variable p : N -> bool.
Variable k : jsstr -> option jsstr.

Lemma star_complete (run rest r : jsstr) :
  forallb p run = true -> stops p rest -> k rest = Some r ->
  Regex.star p k (run ++ rest) = Some r.
Proof.
  intros Hrun Hstop Hk. induction run as [|c run IH]; simpl in *.
  - destruct rest as [|d rest]; simpl; [exact Hk|].
    simpl in Hstop. now rewrite Hstop.
  - apply andb_true_iff in Hrun as [Hc Hrun].
    rewrite Hc, (IH Hrun). reflexivity.
Qed.

Lemma star_sound (s r : jsstr) :
  Regex.star p k s = Some r ->
  exists run rest, s = run ++ rest /\ forallb p run = true /\ k rest = Some r.
Proof.
  induction s as [|c s IH]; simpl; intros Hs.
  - exists [], []. auto.
  - destruct (p c) eqn:Hc.
    + destruct (Regex.star p k s) as [r'|] eqn:Hstar.
      * destruct (IH Hs) as (run & rest & -> & Hrun & Hk).
        exists (c :: run), rest. simpl. rewrite Hc. auto.
      * exists [], (c :: s). auto.
    + exists [], (c :: s). auto.
Qed.

Lemma plus_complete (run rest r : jsstr) :
  run <> [] -> forallb p run = true -> stops p rest -> k rest = Some r ->
  Regex.plus p k (run ++ rest) = Some r.
Proof.
  destruct run as [|c run]; [congruence|]. intros _ Hrun Hstop Hk.
  simpl in *. apply andb_true_iff in Hrun as [Hc Hrun].
  rewrite Hc. now apply star_complete.
Qed.

Lemma plus_sound (s r : jsstr) :
  Regex.plus p k s = Some r ->
  exists run rest,
    s = run ++ rest /\ run <> [] /\ forallb p run = true /\ k rest = Some r.
Proof.
  destruct s as [|c s]; simpl; [discriminate|].
  destruct (p c) eqn:Hc; [|discriminate]. intros Hs.
  destruct (star_sound _ _ Hs) as (run & rest & -> & Hrun & Hk).
  exists (c :: run), rest. simpl. rewrite Hc. repeat split; auto. discriminate.
Qed.

End StarFacts.

Lemma capture_dots_iff (s g : jsstr) :
  Regex.capture_dots_to_end s = Some g <->
  g = s /\ s <> [] /\ forallb is_dot s = true.
Proof.
  unfold Regex.capture_dots_to_end. split.
  - intros H. apply plus_sound in H as (run & rest & Hs & Hne & Hrun & Hk).
    destruct rest; [|discriminate]. rewrite app_nil_r in Hs. subst run.
    injection Hk as <-. auto.
  - intros (-> & Hne & Hdots).
    pose proof (plus_complete is_dot
                  (fun rest => match rest with [] => Some s | _ :: _ => None end)
                  s [] s Hne Hdots I eq_refl) as H.
    now rewrite app_nil_r in H.
Qed.

(** The pattern matches a text made of an ordinal, a period, white space
    and a remainder, and its second group is the remainder. *)
Lemma step_regex_complete (digits ws text : jsstr) :
  digits <> [] -> forallb is_digit digits = true ->
  forallb is_ws ws = true ->
  text <> [] -> forallb is_dot text = true -> stops is_ws text ->
  Regex.step_regex (digits ++ [46%N] ++ ws ++ text) = Some text.
Proof.
  intros Hd Hdig Hws Ht Hdots Hstop. unfold Regex.step_regex.
  apply plus_complete; auto.
  - reflexivity.
  - simpl. apply star_complete; auto.
    apply capture_dots_iff. auto.
Qed.

(** Whatever the pattern captures is what follows an ordinal, a period and
    white space, and is one non-empty line. *)
Lemma step_regex_sound (s g : jsstr) :
  Regex.step_regex s = Some g ->
  exists digits ws,
    s = digits ++ [46%N] ++ ws ++ g /\ digits <> [] /\
    forallb is_digit digits = true /\ forallb is_ws ws = true /\
    g <> [] /\ forallb is_dot g = true.
Proof.
  unfold Regex.step_regex. intros H.
  apply plus_sound in H as (digits & rest & -> & Hne & Hdig & Hk).
  destruct rest as [|c rest]; simpl in Hk; [discriminate|].
  destruct (N.eqb_spec c 46) as [->|_]; [|discriminate].
  apply star_sound in Hk as (ws & rest' & -> & Hws & Hcap).
  apply capture_dots_iff in Hcap as (-> & Hg & Hdots).
  exists digits, ws. repeat split; auto.
Qed.

(** ** The step-text transformation *)

Lemma fields_none (a : jsstr) :
  ~ In bar a -> Steps.fields a = [trim a].
Proof. intros Ha. unfold Steps.fields. now rewrite split_on_whole. Qed.

Lemma fields_one (a b : jsstr) :
  ~ In bar a -> ~ In bar b -> Steps.fields (a ++ bar :: b) = [trim a; trim b].
Proof.
  intros Ha Hb. unfold Steps.fields.
  now rewrite (split_on_first _ _ _ Ha), (split_on_whole _ _ Hb).
Qed.

Lemma fields_more (a b rest : jsstr) :
  ~ In bar a -> ~ In bar b ->
  Steps.fields (a ++ bar :: b ++ bar :: rest)
  = trim a :: trim b :: map trim (split_on bar rest).
Proof.
  intros Ha Hb. unfold Steps.fields.
  now rewrite (split_on_first _ _ _ Ha), (split_on_first _ _ _ Hb).
Qed.

Lemma expectedText_of_second (line b : jsstr) :
  Steps.expectedPart line = Some (trim b) ->
  Steps.expectedText line = shown_expected b.
Proof.
  unfold Steps.expectedText, shown_expected. intros ->.
  now destruct (trim b).
Qed.

Lemma steps_loop_spec (lines : list jsstr) :
  forall i xml,
    Steps.steps_loop i lines xml
    = xml ++ List.concat (map (fun il => Steps.step_markup (fst il) (snd il))
                         (combine (seq i (List.length lines)) lines)).
Proof.
  induction lines as [|l lines IH]; intros i xml; simpl.
  - now rewrite app_nil_r.
  - rewrite IH, <- app_assoc. reflexivity.
Qed.

(** The markup is the opening tag, one element per kept line in order, the
    [id] counting from 1, and the closing tag. *)
Lemma convertStepsToXml_structure (steps : jsstr) :
  Steps.convertStepsToXml steps
  = Steps.steps_open (List.length (Steps.step_lines steps))
    ++ List.concat (map (fun il => Steps.step_element (fst il + 1)
                                (Steps.stepText (snd il))
                                (Steps.expectedText (snd il)))
                   (numbered (Steps.step_lines steps)))
    ++ js "</steps>".
Proof.
  unfold Steps.convertStepsToXml. cbv zeta.
  rewrite steps_loop_spec, <- app_assoc. reflexivity.
Qed.

Lemma is_special_cases (c : N) :
  Steps.is_special c = true ->
  c = 60%N \/ c = 62%N \/ c = 38%N \/ c = 39%N \/ c = 34%N.
Proof.
  unfold Steps.is_special. simpl.
  rewrite !orb_true_iff, !N.eqb_eq. intuition discriminate.
Qed.

Lemma escapeXml_app (a b : jsstr) :
  Steps.escapeXml (a ++ b) = Steps.escapeXml a ++ Steps.escapeXml b.
Proof.
  induction a as [|c a IH]; simpl; [reflexivity|].
  now rewrite IH, app_assoc.
Qed.

Lemma escapeXml_no_markup (s : jsstr) (c : N) :
  In c (Steps.escapeXml s) -> is_markup_char c = false.
Proof.
  induction s as [|d s IH]; simpl; [tauto|].
  intros Hin. apply in_app_or in Hin as [Hin|Hin]; [|auto].
  destruct (Steps.is_special d) eqn:Hd.
  - apply is_special_cases in Hd.
    destruct Hd as [->|[->|[->|[->| ->]]]]; vm_compute in Hin;
      repeat (destruct Hin as [<-|Hin]; [reflexivity|]); contradiction.
  - destruct Hin as [<-|[]].
    unfold Steps.is_special in Hd. unfold is_markup_char. simpl in *.
    rewrite !orb_false_iff in *. intuition.
Qed.

Lemma escapeXml_plain (c : N) :
  Steps.is_special c = false -> Steps.escapeXml [c] = [c].
Proof. intros Hc. simpl. now rewrite Hc. Qed.

(** C2: the example input gives two [step] elements with ids 1 and 2, the
    ordinals stripped and the expected texts kept; for every input the
    two texts of each element are escaped, the five special characters
    becoming their entities so that no raw one remains; and a line without
    [|] gets the placeholder as its expected result. *)
Theorem C2_step_text_transformation :
  Steps.convertStepsToXml example_steps = example_markup
  /\ Steps.convertStepsToXml example_steps
     = Steps.steps_open 2
       ++ Steps.step_element 1 (js "Click login") (js "User sees dashboard")
       ++ Steps.step_element 2 (js "Enter bad password") (js "Error shown")
       ++ js "</steps>"
  /\ (forall steps,
        Steps.convertStepsToXml steps
        = Steps.steps_open (List.length (Steps.step_lines steps))
          ++ List.concat (map (fun il => Steps.step_element (fst il + 1)
                                      (Steps.stepText (snd il))
                                      (Steps.expectedText (snd il)))
                         (numbered (Steps.step_lines steps)))
          ++ js "</steps>")
  /\ (forall id step expected,
        Steps.step_element id step expected
        = js "<step" ++ Steps.attr "id" (of_nat id)
          ++ Steps.attr "type" (js "ActionStep") ++ js ">"
          ++ Steps.parameterizedString (Steps.escapeXml step)
          ++ Steps.parameterizedString (Steps.escapeXml expected)
          ++ js "</step>")
  /\ (forall a b, Steps.escapeXml (a ++ b) = Steps.escapeXml a ++ Steps.escapeXml b)
  /\ (Steps.escapeXml [60%N] = js "&lt;"
      /\ Steps.escapeXml [62%N] = js "&gt;"
      /\ Steps.escapeXml [38%N] = js "&amp;"
      /\ Steps.escapeXml [39%N] = js "&apos;"
      /\ Steps.escapeXml [34%N] = js "&quot;")
  /\ (forall c, Steps.is_special c = false -> Steps.escapeXml [c] = [c])
  /\ (forall s c, In c (Steps.escapeXml s) -> is_markup_char c = false)
  /\ (forall line, ~ In bar line -> Steps.expectedText line = Steps.placeholder).
Proof.
  split; [vm_compute; reflexivity|].
  split; [vm_compute; reflexivity|].
  split; [exact convertStepsToXml_structure|].
  split; [reflexivity|].
  split; [exact escapeXml_app|].
  split; [repeat split; vm_compute; reflexivity|].
  split; [exact escapeXml_plain|].
  split; [exact escapeXml_no_markup|].
  intros line Hline. unfold Steps.expectedText, Steps.expectedPart.
  now rewrite fields_none.
Qed.

Lemma C2_step_text_transformation_witness :
  ~ In bar (js "Open the page")
  /\ Steps.expectedText (js "Open the page") = Steps.placeholder.
Proof.
  split.
  - vm_compute. intuition discriminate.
  - apply C2_step_text_transformation. vm_compute. intuition discriminate.
Defined.

Lemma cut_at_bar (line : jsstr) :
  ~ In bar line
  \/ exists a rest, ~ In bar a /\ line = a ++ bar :: rest.
Proof.
  induction line as [|c line IH].
  - left. simpl. tauto.
  - destruct (N.eq_dec c bar) as [->|Hc].
    + right. exists [], line. simpl. tauto.
    + destruct IH as [Hno|(a & rest & Ha & ->)].
      * left. simpl. intros [Heq|Hin]; [congruence|contradiction].
      * right. exists (c :: a), rest. split; [|reflexivity].
        simpl. intros [Heq|Hin]; [congruence|contradiction].
Qed.

(** a line has no separator, one, or more *)
Lemma line_shapes (line : jsstr) :
  ~ In bar line
  \/ exists a b,
       ~ In bar a /\ ~ In bar b
       /\ (line = a ++ bar :: b \/ exists rest, line = a ++ bar :: b ++ bar :: rest).
Proof.
  destruct (cut_at_bar line) as [Hno|(a & tail & Ha & ->)]; [now left|right].
  destruct (cut_at_bar tail) as [Hno|(b & rest & Hb & ->)].
  - exists a, tail. auto.
  - exists a, b. repeat split; auto. right. now exists rest.
Qed.

(** C3, as the code has it: a line is cut at every [|]; the step part is
    the first piece and the expected result the second piece, each trimmed,
    so the expected result ends at the second [|] and what follows is
    dropped; an expected result that is absent or blank is replaced by the
    placeholder; and the ordinal, the period and the white space after it
    are stripped exactly when a non-empty remainder free of line
    terminators follows. *)
Theorem C3_line_fields (a b : jsstr) :
  ~ In bar a -> ~ In bar b ->
  (Steps.stepPart a = trim a /\ Steps.expectedText a = Steps.placeholder)
  /\ (Steps.stepPart (a ++ bar :: b) = trim a
      /\ Steps.expectedText (a ++ bar :: b) = shown_expected b)
  /\ (forall rest,
        Steps.stepPart (a ++ bar :: b ++ bar :: rest) = trim a
        /\ Steps.expectedText (a ++ bar :: b ++ bar :: rest) = shown_expected b)
  /\ (forall line digits ws text,
        Steps.stepPart line = digits ++ [period] ++ ws ++ text ->
        digits <> [] -> forallb is_digit digits = true ->
        forallb is_ws ws = true ->
        text <> [] -> forallb is_dot text = true -> stops is_ws text ->
        Steps.stepText line = text)
  /\ (forall line,
        ~ In bar line
        \/ exists a' b',
             ~ In bar a' /\ ~ In bar b'
             /\ (line = a' ++ bar :: b'
                 \/ exists rest, line = a' ++ bar :: b' ++ bar :: rest))
  /\ (forall steps,
        Steps.step_lines steps = filter Steps.non_blank (split_on 10 steps)
        /\ Steps.convertStepsToXml steps
           = Steps.steps_open (List.length (Steps.step_lines steps))
             ++ List.concat
                  (map (fun il => Steps.step_element (fst il + 1)
                                    (Steps.stepText (snd il))
                                    (Steps.expectedText (snd il)))
                       (numbered (Steps.step_lines steps)))
             ++ js "</steps>")
  /\ (forall line,
        Steps.stepText line = Steps.stepPart line
        \/ exists digits ws,
             Steps.stepPart line = digits ++ [period] ++ ws ++ Steps.stepText line
             /\ digits <> [] /\ forallb is_digit digits = true
             /\ forallb is_ws ws = true
             /\ Steps.stepText line <> []
             /\ forallb is_dot (Steps.stepText line) = true).
Proof.
  intros Ha Hb.
  split.
  { split.
    - unfold Steps.stepPart. now rewrite fields_none.
    - unfold Steps.expectedText, Steps.expectedPart. now rewrite fields_none. }
  split.
  { split.
    - unfold Steps.stepPart. now rewrite fields_one.
    - apply expectedText_of_second. unfold Steps.expectedPart.
      now rewrite fields_one. }
  split.
  { intros rest. split.
    - unfold Steps.stepPart. now rewrite fields_more.
    - apply expectedText_of_second. unfold Steps.expectedPart.
      now rewrite fields_more. }
  split.
  { intros line digits ws text Hpart Hne Hdig Hws Ht Hdots Hstop.
    unfold Steps.stepText. rewrite Hpart. unfold period.
    now rewrite (step_regex_complete _ _ _ Hne Hdig Hws Ht Hdots Hstop). }
  split; [exact line_shapes|].
  split.
  { intros steps. split; [reflexivity|apply convertStepsToXml_structure]. }
  intros line. unfold Steps.stepText.
  destruct (Regex.step_regex (Steps.stepPart line)) as [g|] eqn:Hre;
    [right|now left].
  apply step_regex_sound in Hre
    as (digits & ws & Hs & Hne & Hdig & Hws & Hg & Hdots).
  exists digits, ws. repeat split; auto.
Qed.

Lemma C3_line_fields_witness :
  (~ In bar (js "1. Click login") /\ ~ In bar (js " User sees dashboard"))
  /\ Steps.expectedText (js "1. Click login" ++ bar :: js " User sees dashboard"
                         ++ bar :: js "ignored")
     = js "User sees dashboard"
  /\ Steps.stepText (js "1. Click login") = js "Click login".
Proof.
  assert (Ha : ~ In bar (js "1. Click login"))
    by (vm_compute; intuition discriminate).
  assert (Hb : ~ In bar (js " User sees dashboard"))
    by (vm_compute; intuition discriminate).
  split; [split; assumption|].
  destruct (C3_line_fields _ _ Ha Hb) as (_ & _ & Hmore & Hord & _).
  split.
  - destruct (Hmore (js "ignored")) as [_ ->]. reflexivity.
  - apply (Hord (js "1. Click login") (js "1") (js " ") (js "Click login"));
      try reflexivity; discriminate.
Defined.

(** The claim as worded fails on a line with two separators: what follows
    the first one is ["Title shown|and footer"], the expected result of the
    step is ["Title shown"]. *)
Lemma C3_counterexample :
  Steps.non_blank three_fields = true
  /\ after_first_bar three_fields = Some (js "Title shown|and footer")
  /\ Steps.expectedText three_fields = js "Title shown"
  /\ Some (Steps.expectedText three_fields) <> after_first_bar three_fields
  /\ Steps.convertStepsToXml three_fields
     = Steps.steps_open 1
       ++ Steps.step_element 1 (js "Open page") (js "Title shown")
       ++ js "</steps>".
Proof.
  repeat split; try (vm_compute; reflexivity).
  vm_compute. discriminate.
Qed.

(** ** The catalog and the [switch] *)

Lemma distinct_NoDup {A : Type} (eq : A -> A -> bool) (l : list A) :
  (forall x y, x = y -> eq x y = true) ->
  distinct eq l = true -> NoDup l.
Proof.
  intros Heq. induction l as [|x l IH]; simpl; intros Hd; [constructor|].
  apply andb_true_iff in Hd as [Hx Hl]. constructor; [|auto].
  intros Hin. apply negb_true_iff in Hx.
  assert (existsb (eq x) l = true) as Hex
    by (apply existsb_exists; exists x; auto).
  congruence.
Qed.

Lemma existsb_eqb_In (x : jsstr) (l : list jsstr) :
  existsb (JsString.eqb x) l = true -> In x l.
Proof.
  intros H. apply existsb_exists in H as (y & Hy & He).
  apply eqb_eq in He. now subst.
Qed.

Lemma first_case_some (name : jsstr) (cases : list (string * Branch)) (b : Branch) :
  first_case name cases = Some b ->
  In name (map (fun c => js (fst c)) cases).
Proof.
  induction cases as [|[label b'] cases IH]; simpl; [discriminate|].
  destruct (JsString.eqb name (js label)) eqn:He.
  - apply eqb_eq in He. intros _. now left.
  - intros H. right. auto.
Qed.

Lemma first_case_found (name : jsstr) (cases : list (string * Branch)) :
  In name (map (fun c => js (fst c)) cases) ->
  exists b, first_case name cases = Some b.
Proof.
  induction cases as [|[label b'] cases IH]; simpl; [tauto|].
  intros [Hl|Hin].
  - subst name. rewrite eqb_refl. now exists b'.
  - destruct (JsString.eqb name (js label)); [now exists b'|auto].
Qed.

Lemma select_iff (name : jsstr) :
  In name case_labels <-> exists b, select name = Some b.
Proof.
  split.
  - apply first_case_found.
  - intros [b Hb]. exact (first_case_some _ _ _ Hb).
Qed.

Lemma same_names : catalog_names = case_labels.
Proof. vm_compute. reflexivity. Qed.

Lemma case_labels_NoDup : NoDup case_labels.
Proof.
  apply (distinct_NoDup JsString.eqb).
  - intros x y ->. apply eqb_refl.
  - vm_compute. reflexivity.
Qed.

(** C1: the names of the catalog and the labels of the [switch] are the same
    82 names, none repeated on either side; a name of the catalog selects
    a branch and so never reaches the default, every other name does; each
    label is the name of exactly one descriptor and each name has exactly
    one label; and no two labels lead to the same branch. *)
Theorem C1_catalog_dispatcher_bijection :
  catalog_names = case_labels
  /\ List.length catalog_names = 82
  /\ NoDup catalog_names
  /\ NoDup case_labels
  /\ NoDup (map snd switch_cases)
  /\ (forall name,
        In name catalog_names ->
        count_occ jsstr_eq_dec case_labels name = 1
        /\ exists b, select name = Some b)
  /\ (forall label,
        In label case_labels ->
        count_occ jsstr_eq_dec catalog_names label = 1)
  /\ (forall name, select name = None <-> ~ In name catalog_names)
  /\ (forall (H : Host) name args connection,
        In name catalog_names ->
        exists b,
          Server.handleToolCall name args connection
          = Server.run_branch b args connection).
Proof.
  pose proof same_names as Hsame. pose proof case_labels_NoDup as Hnd.
  split; [exact Hsame|].
  split; [vm_compute; reflexivity|].
  split; [now rewrite Hsame|].
  split; [exact Hnd|].
  split.
  { apply (distinct_NoDup Branch_beq).
    - intros x y ->. now apply internal_Branch_dec_lb.
    - vm_compute. reflexivity. }
  split.
  { intros name Hin. rewrite Hsame in Hin. split.
    - now apply (proj1 (NoDup_count_occ' jsstr_eq_dec case_labels) Hnd).
    - now apply select_iff. }
  split.
  { intros label Hin. rewrite Hsame.
    now apply (proj1 (NoDup_count_occ' jsstr_eq_dec case_labels) Hnd). }
  split.
  { intros name. rewrite Hsame, select_iff. split.
    - intros Hnone [b Hb]. congruence.
    - intros Hno. destruct (select name) as [b|] eqn:Hs; [|reflexivity].
      exfalso. apply Hno. now exists b. }
  intros H name args connection Hin. rewrite Hsame in Hin.
  apply select_iff in Hin as [b Hb]. exists b.
  unfold Server.handleToolCall. now rewrite Hb.
Qed.

Lemma C1_catalog_dispatcher_bijection_witness :
  In (js "wit_get_work_item") catalog_names
  /\ count_occ jsstr_eq_dec case_labels (js "wit_get_work_item") = 1
  /\ exists b, select (js "wit_get_work_item") = Some b.
Proof.
  assert (Hin : In (js "wit_get_work_item") catalog_names).
  { apply existsb_eqb_In. vm_compute. reflexivity. }
  split; [exact Hin|].
  destruct C1_catalog_dispatcher_bijection as (_ & _ & _ & _ & _ & Hname & _).
  exact (Hname _ Hin).
Defined.

(** ** Base64 and the authorization header *)

Lemma list_ind3 {A : Type} (P : list A -> Prop) :
  P [] -> (forall a, P [a]) -> (forall a b, P [a; b]) ->
  (forall a b c l, P l -> P (a :: b :: c :: l)) ->
  forall l, P l.
Proof.
  intros H0 H1 H2 H3 l.
  enough (P l /\ (forall a, P (a :: l)) /\ (forall a b, P (a :: b :: l)))
    by tauto.
  induction l as [|x l (IH0 & IH1 & IH2)]; auto.
Qed.

(** the sixty-four six-bit groups *)
Lemma sextet_in_range (n : N) :
  (n < 64)%N -> In n (map N.of_nat (seq 0 64)).
Proof.
  intros Hn. apply in_map_iff. exists (N.to_nat n). split.
  - apply N2Nat.id.
  - apply in_seq. lia.
Qed.

Lemma digit_value (n : N) :
  (n < 64)%N ->
  Base64.value (Base64.digit n) = Some n /\ N.eqb (Base64.digit n) Base64.pad = false.
Proof.
  intros Hn. apply sextet_in_range in Hn.
  assert (Hall : forallb
            (fun m => match Base64.value (Base64.digit m) with
                      | Some m' => N.eqb m' m
                      | None => false
                      end && negb (N.eqb (Base64.digit m) Base64.pad))
            (map N.of_nat (seq 0 64)) = true) by (vm_compute; reflexivity).
  rewrite forallb_forall in Hall. specialize (Hall n Hn).
  apply andb_true_iff in Hall as [Hv Hp].
  destruct (Base64.value (Base64.digit n)) as [m|]; [|discriminate].
  apply N.eqb_eq in Hv. subst m. split; [reflexivity|].
  now apply negb_true_iff.
Qed.

Lemma byte_of_to_N (b : Byte.byte) : Base64.byte_of (Byte.to_N b) = b.
Proof. unfold Base64.byte_of. now rewrite Byte.of_to_N. Qed.

Lemma byte_bound (b : Byte.byte) : (Byte.to_N b < 256)%N.
Proof. pose proof (Byte.to_N_bounded b). lia. Qed.

(** the six-bit groups of three bytes, and the bytes back from them *)
Lemma regroup (x y z : N) :
  (x < 256)%N -> (y < 256)%N -> (z < 256)%N ->
  (x / 4 < 64
   /\ (x mod 4) * 16 + y / 16 < 64
   /\ (y mod 16) * 4 + z / 64 < 64
   /\ z mod 64 < 64
   /\ (x mod 4) * 16 < 64
   /\ (y mod 16) * 4 < 64
   /\ x / 4 * 4 + ((x mod 4) * 16 + y / 16) / 16 = x
   /\ (((x mod 4) * 16 + y / 16) mod 16) * 16 + ((y mod 16) * 4 + z / 64) / 4 = y
   /\ (((y mod 16) * 4 + z / 64) mod 4) * 64 + z mod 64 = z
   /\ x / 4 * 4 + ((x mod 4) * 16) / 16 = x
   /\ (((x mod 4) * 16 + y / 16) mod 16) * 16 + ((y mod 16) * 4) / 4 = y)%N.
Proof.
  intros Hx Hy Hz.
  pose proof (N.div_mod x 4) as Ex. pose proof (N.mod_lt x 4) as Lx.
  pose proof (N.div_mod y 16) as Ey. pose proof (N.mod_lt y 16) as Ly.
  pose proof (N.div_mod z 64) as Ez. pose proof (N.mod_lt z 64) as Lz.
  set (xq := (x / 4)%N) in *. set (xr := (x mod 4)%N) in *.
  set (yq := (y / 16)%N) in *. set (yr := (y mod 16)%N) in *.
  set (zq := (z / 64)%N) in *. set (zr := (z mod 64)%N) in *.
  assert (xr < 4 /\ yr < 16 /\ zr < 64)%N as (Hxr & Hyr & Hzr) by lia.
  assert (xq < 64 /\ yq < 16 /\ zq < 4)%N as (Hxq & Hyq & Hzq) by lia.
  assert ((xr * 16 + yq) / 16 = xr)%N as E1
    by (symmetry; apply (N.div_unique _ 16 xr yq); lia).
  assert ((xr * 16 + yq) mod 16 = yq)%N as E2
    by (symmetry; apply (N.mod_unique _ 16 xr yq); lia).
  assert ((yr * 4 + zq) / 4 = yr)%N as E3
    by (symmetry; apply (N.div_unique _ 4 yr zq); lia).
  assert ((yr * 4 + zq) mod 4 = zq)%N as E4
    by (symmetry; apply (N.mod_unique _ 4 yr zq); lia).
  assert ((xr * 16) / 16 = xr)%N as E5
    by (symmetry; apply (N.div_unique _ 16 xr 0); lia).
  assert ((yr * 4) / 4 = yr)%N as E6
    by (symmetry; apply (N.div_unique _ 4 yr 0); lia).
  rewrite E1, E2, E3, E4, E5, E6. lia.
Qed.

Lemma decode_full (c1 c2 c3 c4 : N) (rest : jsstr) (v1 v2 v3 v4 : N) :
  Base64.value c1 = Some v1 -> Base64.value c2 = Some v2 ->
  Base64.value c3 = Some v3 -> Base64.value c4 = Some v4 ->
  N.eqb c3 Base64.pad = false -> N.eqb c4 Base64.pad = false ->
  Base64.decode (c1 :: c2 :: c3 :: c4 :: rest)
  = match Base64.decode rest with
    | Some bs =>
        Some (Base64.byte_of (v1 * 4 + v2 / 16)
              :: Base64.byte_of ((v2 mod 16) * 16 + v3 / 4)
              :: Base64.byte_of ((v3 mod 4) * 64 + v4) :: bs)
    | None => None
    end.
Proof.
  intros E1 E2 E3 E4 P3 P4.
  change (Base64.decode (c1 :: c2 :: c3 :: c4 :: rest)) with
    (match Base64.value c1, Base64.value c2 with
     | Some v1, Some v2 =>
         let b1 := Base64.byte_of (v1 * 4 + v2 / 16) in
         if N.eqb c3 Base64.pad then
           match N.eqb c4 Base64.pad, rest with
           | true, [] => Some [b1]
           | _, _ => None
           end
         else
           match Base64.value c3 with
           | Some v3 =>
               let b2 := Base64.byte_of ((v2 mod 16) * 16 + v3 / 4) in
               if N.eqb c4 Base64.pad then
                 match rest with
                 | [] => Some [b1; b2]
                 | _ :: _ => None
                 end
               else
                 match Base64.value c4 with
                 | Some v4 =>
                     let b3 := Base64.byte_of ((v3 mod 4) * 64 + v4) in
                     match Base64.decode rest with
                     | Some bs => Some (b1 :: b2 :: b3 :: bs)
                     | None => None
                     end
                 | None => None
                 end
           | None => None
           end
     | _, _ => None
     end)%N.
  now rewrite E1, E2, P3, E3, P4, E4.
Qed.

Lemma decode_two (c1 c2 c3 : N) (v1 v2 v3 : N) :
  Base64.value c1 = Some v1 -> Base64.value c2 = Some v2 ->
  Base64.value c3 = Some v3 -> N.eqb c3 Base64.pad = false ->
  Base64.decode [c1; c2; c3; Base64.pad]
  = Some [Base64.byte_of (v1 * 4 + v2 / 16);
          Base64.byte_of ((v2 mod 16) * 16 + v3 / 4)].
Proof.
  intros E1 E2 E3 P3. cbn [Base64.decode].
  now rewrite E1, E2, P3, E3, N.eqb_refl.
Qed.

Lemma decode_one (c1 c2 : N) (v1 v2 : N) :
  Base64.value c1 = Some v1 -> Base64.value c2 = Some v2 ->
  Base64.decode [c1; c2; Base64.pad; Base64.pad]
  = Some [Base64.byte_of (v1 * 4 + v2 / 16)].
Proof.
  intros E1 E2. cbn [Base64.decode].
  now rewrite E1, E2, N.eqb_refl.
Qed.

(** decoding what was encoded gives the bytes back *)
Lemma decode_encode (bs : list Byte.byte) :
  Base64.decode (Base64.encode bs) = Some bs.
Proof.
  induction bs as [|a|a b|a b c l IH] using list_ind3.
  - reflexivity.
  - pose proof (regroup _ _ _ (byte_bound a) (byte_bound a) (byte_bound a))
      as (G1 & _ & _ & _ & G5 & _ & _ & _ & _ & R1 & _).
    cbn [Base64.encode].
    rewrite (decode_one _ _ _ _ (proj1 (digit_value _ G1)) (proj1 (digit_value _ G5))).
    now rewrite R1, byte_of_to_N.
  - pose proof (regroup _ _ _ (byte_bound a) (byte_bound b) (byte_bound b))
      as (G1 & G2 & _ & _ & _ & G6 & R1 & _ & _ & _ & R2).
    cbn [Base64.encode].
    rewrite (decode_two _ _ _ _ _ _ (proj1 (digit_value _ G1))
               (proj1 (digit_value _ G2)) (proj1 (digit_value _ G6))
               (proj2 (digit_value _ G6))).
    now rewrite R1, R2, !byte_of_to_N.
  - pose proof (regroup _ _ _ (byte_bound a) (byte_bound b) (byte_bound c))
      as (G1 & G2 & G3 & G4 & _ & _ & R1 & R2 & R3 & _ & _).
    cbn [Base64.encode app].
    rewrite (decode_full _ _ _ _ _ _ _ _ _ (proj1 (digit_value _ G1))
               (proj1 (digit_value _ G2)) (proj1 (digit_value _ G3))
               (proj1 (digit_value _ G4)) (proj2 (digit_value _ G3))
               (proj2 (digit_value _ G4))).
    now rewrite IH, R1, R2, R3, !byte_of_to_N.
Qed.

(** *** UTF-8 *)

Ltac divmod x k quotient remainder :=
  let Hq := fresh "Hq" in
  let Hr := fresh "Hr" in
  pose proof (N.div_mod x k ltac:(lia)) as Hq;
  pose proof (N.mod_lt x k ltac:(lia)) as Hr;
  set (quotient := (x / k)%N) in *; set (remainder := (x mod k)%N) in *;
  clearbody quotient remainder.

(** the comparisons of the reader, settled by arithmetic *)
Ltac settle_comparisons :=
  repeat match goal with
         | |- context [N.ltb ?a ?b] =>
             first
               [ replace (N.ltb a b) with true
                   by (symmetry; apply N.ltb_lt; lia)
               | replace (N.ltb a b) with false
                   by (symmetry; apply N.ltb_ge; lia) ]
         | |- context [N.leb ?a ?b] =>
             first
               [ replace (N.leb a b) with true
                   by (symmetry; apply N.leb_le; lia)
               | replace (N.leb a b) with false
                   by (symmetry; apply N.leb_gt; lia) ]
         end.

Lemma to_N_byte_of (n : N) : (n < 256)%N -> Byte.to_N (Base64.byte_of n) = n.
Proof.
  intros Hn. unfold Base64.byte_of.
  pose proof (Byte.to_of_N_option_map n) as Hmap.
  destruct (Byte.of_N n) as [b|]; cbn [option_map] in Hmap.
  - destruct (N.leb n 255); [now injection Hmap|discriminate].
  - apply N.lt_le_pred in Hn. apply N.leb_le in Hn. cbn in Hn.
    rewrite Hn in Hmap. discriminate.
Qed.

Lemma bytes_back (l : list N) :
  Forall (fun b => (b < 256)%N) l ->
  map Byte.to_N (map Base64.byte_of l) = l.
Proof.
  induction 1 as [|b l Hb _ IH]; cbn [map]; [reflexivity|].
  now rewrite (to_N_byte_of b Hb), IH.
Qed.

Lemma encode_scalar_spec (cp : N) (rest : list N) :
  (cp < 1114112)%N ->
  Forall (fun b => (b < 256)%N) (encode_scalar cp)
  /\ decode_scalars (encode_scalar cp ++ rest)
     = option_map (cons cp) (decode_scalars rest).
Proof.
  intros Hcp. unfold encode_scalar.
  destruct (N.ltb cp 128) eqn:H1; [apply N.ltb_lt in H1|apply N.ltb_ge in H1].
  { split; [repeat constructor; lia|].
    cbn [app decode_scalars]. now settle_comparisons. }
  destruct (N.ltb cp 2048) eqn:H2; [apply N.ltb_lt in H2|apply N.ltb_ge in H2].
  { divmod cp 64%N a0 b0.
    split; [repeat constructor; lia|].
    cbn [app decode_scalars]. unfold continuation. settle_comparisons.
    cbn [andb]. do 2 f_equal. lia. }
  destruct (N.ltb cp 65536) eqn:H3; [apply N.ltb_lt in H3|apply N.ltb_ge in H3].
  { replace (cp / 4096)%N with (cp / 64 / 64)%N
      by (rewrite N.Div0.div_div; reflexivity).
    divmod cp 64%N a0 b0. divmod a0 64%N a1 b1.
    split; [repeat constructor; lia|].
    cbn [app decode_scalars]. unfold continuation. settle_comparisons.
    cbn [andb]. do 2 f_equal. lia. }
  replace (cp / 262144)%N with (cp / 64 / 64 / 64)%N
    by (rewrite !N.Div0.div_div; reflexivity).
  replace (cp / 4096)%N with (cp / 64 / 64)%N
    by (rewrite N.Div0.div_div; reflexivity).
  divmod cp 64%N a0 b0. divmod a0 64%N a1 b1. divmod a1 64%N a2 b2.
  split; [repeat constructor; lia|].
  cbn [app decode_scalars]. unfold continuation. settle_comparisons.
  cbn [andb]. do 2 f_equal. lia.
Qed.

Lemma decode_encode_scalars (cps : list N) :
  Forall (fun cp => (cp < 1114112)%N) cps ->
  Forall (fun b => (b < 256)%N) (flat_map encode_scalar cps)
  /\ decode_scalars (flat_map encode_scalar cps) = Some cps.
Proof.
  induction 1 as [|cp cps Hcp _ [IHb IHd]]; cbn [flat_map].
  - split; [constructor|reflexivity].
  - destruct (encode_scalar_spec cp (flat_map encode_scalar cps) Hcp)
      as [Hb Hd].
    split; [apply Forall_app; now split|]. now rewrite Hd, IHd.
Qed.

(** the two-step recursion of [scalars], as an induction *)
Lemma units_ind (P : jsstr -> Prop) :
  P [] ->
  (forall c, P [c]) ->
  (forall c d s, P s -> P (d :: s) -> P (c :: d :: s)) ->
  forall s, P s.
Proof.
  intros Hnil Hone Htwo s.
  enough (P s /\ forall c, P (c :: s)) by tauto.
  induction s as [|d s [IH0 IH1]]; split; auto.
Qed.

Lemma surrogate_ranges (c : N) :
  (is_high c = true <-> (55296 <= c <= 56319)%N)
  /\ (is_low c = true <-> (56320 <= c <= 57343)%N).
Proof.
  unfold is_high, is_low. rewrite !andb_true_iff, !N.leb_le. tauto.
Qed.

Lemma scalars_bound (s : jsstr) :
  Forall (fun c => (c < 65536)%N) s ->
  Forall (fun cp => (cp < 1114112)%N) (scalars s).
Proof.
  induction s as [|c|c d s IH IHd] using units_ind; intros Hs.
  - constructor.
  - inversion Hs as [|? ? Hc _]; subst. cbn [scalars].
    destruct (is_high c), (is_low c); repeat constructor; lia.
  - inversion Hs as [|? ? Hc Hrest]; subst.
    inversion Hrest as [|? ? Hd Hrest']; subst.
    specialize (IH Hrest'). specialize (IHd Hrest).
    change (scalars (c :: d :: s))
      with (if is_high c then
              if is_low d
              then (65536 + (c - 55296) * 1024 + (d - 56320))%N :: scalars s
              else 65533%N :: scalars (d :: s)
            else if is_low c then 65533%N :: scalars (d :: s)
            else c :: scalars (d :: s)).
    destruct (is_high c) eqn:Hh.
    + destruct (is_low d) eqn:Hl; [|constructor; [lia|exact IHd]].
      apply surrogate_ranges in Hh, Hl. constructor; [lia|exact IH].
    + destruct (is_low c); constructor; auto; lia.
Qed.

Lemma well_formed_units (s : jsstr) :
  well_formed s = true ->
  flat_map units (scalars s) = s /\ Forall (fun c => (c < 65536)%N) s.
Proof.
  assert (Hone : forall c, (c < 65536)%N -> units c = [c]).
  { intros c Hc. unfold units. apply N.ltb_lt in Hc. now rewrite Hc. }
  induction s as [|c|c d s IH IHd] using units_ind; intros Hs.
  - split; [reflexivity|constructor].
  - cbn [well_formed] in Hs. cbn [scalars].
    destruct (is_high c); [discriminate|].
    apply andb_true_iff in Hs as [Hs _].
    apply andb_true_iff in Hs as [Hl Hc].
    apply negb_true_iff in Hl. rewrite Hl. apply N.ltb_lt in Hc.
    cbn [flat_map]. rewrite (Hone c Hc). split; [reflexivity|].
    repeat constructor. exact Hc.
  - change (well_formed (c :: d :: s))
      with (if is_high c then is_low d && well_formed s
            else negb (is_low c) && N.ltb c 65536 && well_formed (d :: s))
      in Hs.
    change (scalars (c :: d :: s))
      with (if is_high c then
              if is_low d
              then (65536 + (c - 55296) * 1024 + (d - 56320))%N :: scalars s
              else 65533%N :: scalars (d :: s)
            else if is_low c then 65533%N :: scalars (d :: s)
            else c :: scalars (d :: s)).
    destruct (is_high c) eqn:Hh.
    + apply andb_true_iff in Hs as [Hl Hs]. rewrite Hl.
      destruct (IH Hs) as [Hunits Hbound].
      apply surrogate_ranges in Hh, Hl.
      cbn [flat_map]. rewrite Hunits. split.
      * unfold units.
        replace (N.ltb (65536 + (c - 55296) * 1024 + (d - 56320)) 65536)
          with false by (symmetry; apply N.ltb_ge; lia).
        replace (65536 + (c - 55296) * 1024 + (d - 56320) - 65536)%N
          with ((c - 55296) * 1024 + (d - 56320))%N by lia.
        divmod ((c - 55296) * 1024 + (d - 56320))%N 1024%N a0 b0.
        cbn [app]. f_equal; [lia|]. f_equal. lia.
      * constructor; [lia|]. constructor; [lia|exact Hbound].
    + apply andb_true_iff in Hs as [Hs Hrest].
      apply andb_true_iff in Hs as [Hl Hc].
      apply negb_true_iff in Hl. rewrite Hl. apply N.ltb_lt in Hc.
      destruct (IHd Hrest) as [Hunits Hbound].
      cbn [flat_map]. rewrite (Hone c Hc), Hunits.
      split; [reflexivity|]. constructor; assumption.
Qed.

(** reading back the bytes [Buffer.from] writes gives the string with
    every lone surrogate replaced by U+FFFD *)
Lemma toString_from (s : jsstr) :
  Forall (fun c => (c < 65536)%N) s ->
  Buffer_toString (Buffer_from s) = Some (flat_map units (scalars s)).
Proof.
  intros Hs. unfold Buffer_toString, Buffer_from.
  destruct (decode_encode_scalars (scalars s) (scalars_bound s Hs))
    as [Hbytes Hback].
  now rewrite (bytes_back _ Hbytes), Hback.
Qed.

(** C8, as the code has it: the header is ["Basic "] followed by a base64
    payload; decoding the payload gives the UTF-8 bytes of [":" + pat], and
    reading those bytes gives [":"] followed by the token with every
    surrogate that is not half of a pair replaced by U+FFFD: exactly
    [":" + pat] when the token has no such surrogate. *)
Theorem C8_auth_header_round_trip (pat : jsstr) :
  exists payload,
    Auth.getPatAuthHeader pat = js "Basic " ++ payload
    /\ Base64.decode payload = Some (Buffer_from (js ":" ++ pat))
    /\ (Forall (fun c => (c < 65536)%N) pat ->
        decoded payload = Some (js ":" ++ flat_map units (scalars pat)))
    /\ (well_formed pat = true -> decoded payload = Some (js ":" ++ pat)).
Proof.
  exists (Base64.encode (Buffer_from (js ":" ++ pat))).
  split; [reflexivity|]. split; [apply decode_encode|].
  assert (Hgeneral :
    Forall (fun c => (c < 65536)%N) pat ->
    decoded (Base64.encode (Buffer_from (js ":" ++ pat)))
    = Some (js ":" ++ flat_map units (scalars pat))).
  { intros Hpat. unfold decoded. rewrite decode_encode.
    rewrite toString_from; [reflexivity|].
    constructor; [reflexivity|exact Hpat]. }
  split; [exact Hgeneral|].
  intros Hpat. destruct (well_formed_units pat Hpat) as [Hunits Hbound].
  now rewrite (Hgeneral Hbound), Hunits.
Qed.

(** The claim as worded fails for a token with a surrogate on its own:
    the bytes written are those of U+FFFD, and a reader of the header gets
    [":"] followed by U+FFFD, not by the token. *)
Lemma C8_counterexample :
  well_formed lone_surrogate = false
  /\ Auth.getPatAuthHeader lone_surrogate = js "Basic Ou+/vQ=="
  /\ decoded (js "Ou+/vQ==") = Some (js ":" ++ [65533%N])
  /\ js ":" ++ [65533%N] <> js ":" ++ lone_surrogate.
Proof.
  split; [reflexivity|]. split; [vm_compute; reflexivity|].
  split; [vm_compute; reflexivity|]. discriminate.
Qed.

(** the header of the token ["abc"], its bytes being its characters *)
Example getPatAuthHeader_abc :
  Auth.getPatAuthHeader (js "abc") = js "Basic OmFiYw=="
  /\ decoded (js "OmFiYw==") = Some (js ":abc").
Proof. split; vm_compute; reflexivity. Qed.

(** ** The connection accessor *)

Lemma getClient_first (config : Auth.AuthConfig) (c : Auth.ClientState) :
  Auth.clientPromise c = None ->
  exists p,
    fst (Auth.getClient config c) = p
    /\ Auth.clientPromise (snd (Auth.getClient config c)) = Some p
    /\ Auth.constructions (snd (Auth.getClient config c))
       = S (Auth.constructions c)
    /\ Auth.webapis (snd (Auth.getClient config c)) <= S (Auth.webapis c).
Proof.
  intros Hnone. unfold Auth.getClient, Auth.createPatClient. rewrite Hnone.
  destruct (Auth.personalAccessToken config);
    [|destruct (Auth.organizationUrl config)];
    simpl; eexists; repeat split; auto.
Qed.

Lemma getClient_again (config : Auth.AuthConfig) (c : Auth.ClientState)
  (p : Auth.ClientPromise) :
  Auth.clientPromise c = Some p -> Auth.getClient config c = (p, c).
Proof. intros Hp. unfold Auth.getClient. now rewrite Hp. Qed.

Lemma accessor_calls_again (config : Auth.AuthConfig) (n : nat)
  (c : Auth.ClientState) (p : Auth.ClientPromise) :
  Auth.clientPromise c = Some p ->
  accessor_calls config n c = (repeat p n, c).
Proof.
  intros Hp. induction n as [|n IH]; simpl; [reflexivity|].
  now rewrite (getClient_again _ _ _ Hp), IH.
Qed.

Lemma callTool_client (H : Host) (config : Auth.AuthConfig) (name : jsstr)
  (arguments : option Args) (c : Auth.ClientState) (tr : Trace) :
  snd (fst (Server.callTool config name arguments c tr))
  = snd (Auth.getClient config c).
Proof.
  unfold Server.callTool, Auth.getWebApiClient.
  destruct (Auth.getClient config c) as [p c'].
  now destruct (try_catch _ _ tr).
Qed.

Lemma serve_constructions (H : Host) (config : Auth.AuthConfig)
  (requests : list (jsstr * option Args)) :
  forall c tr,
    Auth.constructions (snd (fst (serve config requests c tr)))
    = match Auth.clientPromise c, requests with
      | None, _ :: _ => S (Auth.constructions c)
      | _, _ => Auth.constructions c
      end.
Proof.
  induction requests as [|[name arguments] rest IH]; intros c tr; simpl.
  - now destruct (Auth.clientPromise c).
  - pose proof (callTool_client H config name arguments c tr) as Hc.
    destruct (Server.callTool config name arguments c tr) as [[result c1] tr1].
    simpl in Hc. subst c1.
    specialize (IH (snd (Auth.getClient config c)) tr1).
    destruct (serve config rest (snd (Auth.getClient config c)) tr1)
      as [[results c2] tr2].
    simpl in *. rewrite IH.
    destruct (Auth.clientPromise c) as [p|] eqn:Hp.
    + rewrite (getClient_again _ _ _ Hp). simpl. now rewrite Hp.
    + destruct (getClient_first config c Hp) as (p & _ & Hsome & Hcount & _).
      rewrite Hsome. exact Hcount.
Qed.

(** C7: however many times the accessor is called on a new client, the
    client is constructed once, every call hands out the same promise, and
    so the same connection or the same failure, and a call that finds the
    promise constructs nothing; the same count holds over any run of tool
    invocations. *)
Theorem C7_connection_memoized (config : Auth.AuthConfig) (n : nat) :
  (exists p,
      fst (accessor_calls config (S n) Auth.fresh) = repeat p (S n)
      /\ Auth.clientPromise (snd (accessor_calls config (S n) Auth.fresh))
         = Some p)
  /\ Auth.constructions (snd (accessor_calls config (S n) Auth.fresh)) = 1
  /\ Auth.webapis (snd (accessor_calls config (S n) Auth.fresh)) <= 1
  /\ (Server.createServer config = Ret config ->
      Auth.clientPromise (snd (accessor_calls config (S n) Auth.fresh))
      = Some (Ret (Auth.mkWebApi 0 (Auth.organizationUrl config)))
      /\ Auth.webapis (snd (accessor_calls config (S n) Auth.fresh)) = 1)
  /\ (forall c p,
        Auth.clientPromise c = Some p -> Auth.getClient config c = (p, c))
  /\ (forall (H : Host) request requests tr,
        Auth.constructions
          (snd (fst (serve config (request :: requests) Auth.fresh tr))) = 1).
Proof.
  destruct (getClient_first config Auth.fresh eq_refl)
    as (p & Hfst & Hsome & Hcount & Hweb).
  assert (Hrun : accessor_calls config (S n) Auth.fresh
                 = (repeat p (S n), snd (Auth.getClient config Auth.fresh))).
  { simpl accessor_calls.
    destruct (Auth.getClient config Auth.fresh) as [p' c1] eqn:Hg.
    simpl in Hfst, Hsome. subst p'.
    now rewrite (accessor_calls_again config n c1 p Hsome). }
  rewrite Hrun. cbn [fst snd].
  split; [exists p; auto|].
  split; [exact Hcount|].
  split; [exact Hweb|].
  split.
  { unfold Server.createServer, Auth.getClient, Auth.createPatClient.
    destruct (Auth.organizationUrl config) as [|u url]; [discriminate|].
    destruct (Auth.personalAccessToken config) as [|k pat]; [discriminate|].
    intros _. split; reflexivity. }
  split; [intros c q; apply getClient_again|].
  intros H request requests tr. now rewrite serve_constructions.
Qed.

Lemma C7_connection_memoized_witness :
  Auth.clientPromise
    (snd (Auth.getClient (Auth.mkConfig (js "https://dev.azure.com/org") (js "pat"))
            Auth.fresh))
  = Some (Ret (Auth.mkWebApi 0 (js "https://dev.azure.com/org")))
  /\ Auth.getClient (Auth.mkConfig (js "https://dev.azure.com/org") (js "pat"))
       (snd (Auth.getClient (Auth.mkConfig (js "https://dev.azure.com/org") (js "pat"))
               Auth.fresh))
     = (Ret (Auth.mkWebApi 0 (js "https://dev.azure.com/org")),
        snd (Auth.getClient (Auth.mkConfig (js "https://dev.azure.com/org") (js "pat"))
               Auth.fresh)).
Proof.
  assert (Hp : Auth.clientPromise
                 (snd (Auth.getClient
                         (Auth.mkConfig (js "https://dev.azure.com/org") (js "pat"))
                         Auth.fresh))
               = Some (Ret (Auth.mkWebApi 0 (js "https://dev.azure.com/org"))))
    by reflexivity.
  split; [exact Hp|].
  destruct (C7_connection_memoized
              (Auth.mkConfig (js "https://dev.azure.com/org") (js "pat")) 0)
    as (_ & _ & _ & _ & Hagain & _).
  exact (Hagain _ _ Hp).
Defined.

(** ** Envelopes *)

Lemma rot_text (t : JsVal) : returns_one_text (ret (Server.text_result t)).
Proof.
  intros tr env tr' Hret. injection Hret as <- _. now exists t.
Qed.

Lemma rot_error (t : JsVal) : returns_one_text (ret (Server.error_result t)).
Proof.
  intros tr env tr' Hret. injection Hret as <- _. now exists t.
Qed.

Lemma rot_bind {A : Type} (m : M A) (f : A -> M Server.Envelope) :
  (forall a, returns_one_text (f a)) -> returns_one_text (bind m f).
Proof.
  intros Hf tr env tr'. unfold bind.
  destruct (m tr) as [[a|e] tr1]; [apply Hf|discriminate].
Qed.

(** every return of a handler body is reached through [bind], a
    conditional or a case analysis *)
Ltac solve_returns :=
  repeat first
    [ apply rot_text
    | apply rot_error
    | apply rot_bind; intros
    | match goal with
      | |- returns_one_text (if ?b then _ else _) => destruct b
      | |- returns_one_text (match ?x with _ => _ end) => destruct x
      end ].

Section Envelopes.

Context {H : Host}.

Lemma rot_one_call (getter method : string) (args : Args) :
  returns_one_text (Server.one_call getter method args).
Proof. unfold Server.one_call. solve_returns. Qed.

Lemma rot_prepared_call (getter method operand : string) (args : Args) :
  returns_one_text (Server.prepared_call getter method operand args).
Proof. unfold Server.prepared_call. solve_returns. Qed.

Lemma rot_processed_call (getter method reshape : string) (args : Args) :
  returns_one_text (Server.processed_call getter method reshape args).
Proof. unfold Server.processed_call. solve_returns. Qed.

Lemma rot_bulk (getter : string) (batch : JsVal) (body : JsVal -> M JsVal) :
  returns_one_text (Server.bulk getter batch body).
Proof. unfold Server.bulk. solve_returns. Qed.

Lemma rot_run_branch (b : Branch) (args : Args) (connection : Auth.WebApi) :
  returns_one_text (Server.run_branch b args connection).
Proof.
  destruct b; cbn [Server.run_branch];
    first [ apply rot_one_call | apply rot_prepared_call
          | apply rot_processed_call | apply rot_bulk | idtac ].
  all: unfold Server.core_list_projects_body, Server.core_get_identity_ids_body,
    Server.repo_list_repos_by_project_body, Server.repo_create_branch_body,
    Server.repo_list_pull_requests_body, Server.repo_update_pull_request_body,
    Server.repo_create_pull_request_thread_body,
    Server.repo_update_pull_request_thread_body,
    Server.repo_search_commits_body, Server.wit_get_work_item_body,
    Server.wit_get_work_items_batch_by_ids_body,
    Server.wit_update_work_items_batch_body,
    Server.wit_add_child_work_items_body, Server.wit_work_item_unlink_body,
    Server.wit_get_query_body, Server.pipelines_update_build_stage_body,
    Server.pipelines_download_artifact_body, Server.wiki_get_page_body,
    Server.wiki_get_page_content_body, Server.wiki_create_or_update_page_body,
    Server.search_body, Server.testplan_create_test_case_body,
    Server.testplan_update_test_case_steps_body,
    Server.testplan_create_test_plan_body,
    Server.work_create_iterations_body, Server.work_assign_iterations_body;
    cbv zeta; try apply rot_bulk; solve_returns.
Qed.

Lemma rot_handleToolCall (name : jsstr) (args : Args) (connection : Auth.WebApi) :
  returns_one_text (Server.handleToolCall name args connection).
Proof.
  unfold Server.handleToolCall. destruct (select name) as [b|].
  - apply rot_run_branch.
  - apply rot_error.
Qed.

(** what the request handler answers, case by case *)
Lemma callTool_cases (config : Auth.AuthConfig) (name : jsstr)
  (arguments : option Args) (c : Auth.ClientState) (tr : Trace) :
  let args := match arguments with Some a => a | None => [] end in
  let c' := snd (Auth.getClient config c) in
  match fst (Auth.getClient config c) with
  | Throw e => Server.callTool config name arguments c tr = (at_boundary e, c', tr)
  | Ret connection =>
      match Server.handleToolCall name args connection tr with
      | (Ret env, tr') =>
          Server.callTool config name arguments c tr = (Ret env, c', tr')
      | (Throw e, tr') =>
          Server.callTool config name arguments c tr
          = (at_boundary e, c', tr')
      end
  end.
Proof.
  cbv zeta. unfold Server.callTool, Auth.getWebApiClient.
  destruct (Auth.getClient config c) as [[connection|e] c1]; cbn [fst snd].
  - unfold try_catch, bind, Auth.await, lift.
    destruct (Server.handleToolCall name _ connection tr) as [[env|e] tr1];
      [reflexivity|now destruct e].
  - unfold try_catch, bind, Auth.await, lift. now destruct e.
Qed.

Lemma at_boundary_cases (e : Thrown) :
  (exists env, at_boundary e = Ret env /\ one_text env)
  \/ (exists v, at_boundary e = Throw (Unhandled v)).
Proof.
  destruct e as [message|v|v]; [left|left|right]; eexists;
    try (split; [reflexivity|]; now eexists); reflexivity.
Qed.

End Envelopes.

(** ** Handlers that cannot end the process *)

Section Quiet.

Context {H : Host}.

Hypothesis Hsettles : settles H.

Lemma quiet_ret {A : Type} (a : A) : quiet (ret a).
Proof. intros tr. reflexivity. Qed.

Lemma quiet_bind {A B : Type} (m : M A) (f : A -> M B) :
  quiet m -> (forall a, quiet (f a)) -> quiet (bind m f).
Proof.
  intros Hm Hf tr. unfold bind. specialize (Hm tr).
  destruct (m tr) as [[a|e] tr1]; [apply Hf|exact Hm].
Qed.

Lemma quiet_lift {A : Type} (o : Outcome A) :
  ends_process o = false -> quiet (lift o).
Proof. intros Ho tr. exact Ho. Qed.

Lemma quiet_request (c : Call) : quiet (request c).
Proof. intros tr. apply Hsettles. Qed.

Lemma mild_expr (text : string) (operands : list JsVal) :
  ends_process (expr text operands) = false.
Proof. apply Hsettles. Qed.

Lemma quiet_for_of (body : JsVal -> M JsVal) (items : list JsVal) :
  (forall item, quiet (body item)) ->
  forall results, quiet (Server.for_of body items results).
Proof.
  intros Hbody. induction items as [|item rest IH]; intros results.
  - apply quiet_ret.
  - cbn [Server.for_of]. apply quiet_bind; [apply Hbody|].
    intros r. apply IH.
Qed.

End Quiet.

(** a pure step of a handler returns, throws an [Error] or is one of the
    expressions of the host *)
Ltac solve_mild Hsettles :=
  unfold Server.filter_by, Server.window, Server.qualified_ref,
    Server.steps_markup, Server.list_status, Server.new_thread_status,
    Server.keyed, Server.dated, iterate, get_field,
    to_string, to_primitive, engine_error, TypeError;
  repeat match goal with
         | |- ends_process (match ?x with _ => _ end) = false => destruct x
         | |- ends_process (if ?b then _ else _) = false => destruct b
         end;
  first [ reflexivity | apply (mild_expr Hsettles) ].

Ltac solve_quiet Hsettles :=
  repeat first
    [ apply quiet_ret
    | match goal with
      | Hwrites : writes _ |- quiet (Server.pipe_to_file _ _) =>
          intros ?; apply Hwrites
      end
    | apply (quiet_request Hsettles)
    | apply quiet_lift; solve_mild Hsettles
    | apply (quiet_for_of); intros
    | apply quiet_bind; [|intros]
    | match goal with
      | |- quiet (if ?b then _ else _) => destruct b
      | |- quiet (match ?x with _ => _ end) => destruct x
      end ].

Lemma quiet_run_branch (H : Host) (b : Branch) (args : Args)
  (connection : Auth.WebApi) :
  settles H ->
  (b = pipelines_download_artifact ->
   truthy (arg args "destinationPath") = false \/ writes H) ->
  quiet (Server.run_branch b args connection).
Proof.
  intros Hsettles Hpath.
  destruct b; cbn [Server.run_branch];
    try (destruct (Hpath eq_refl) as [Hfalse|Hwrites]);
    unfold Server.one_call, Server.prepared_call, Server.processed_call,
    Server.core_list_projects_body, Server.core_get_identity_ids_body,
    Server.repo_list_repos_by_project_body, Server.repo_create_branch_body,
    Server.update_ref,
    Server.repo_list_pull_requests_body, Server.repo_update_pull_request_body,
    Server.repo_create_pull_request_thread_body,
    Server.repo_update_pull_request_thread_body,
    Server.repo_search_commits_body, Server.wit_get_work_item_body,
    Server.wit_get_work_items_batch_by_ids_body,
    Server.wit_update_work_items_batch_body,
    Server.wit_add_child_work_items_body, Server.wit_work_item_unlink_body,
    Server.wit_get_query_body, Server.pipelines_update_build_stage_body,
    Server.pipelines_download_artifact_body, Server.wiki_get_page_body,
    Server.wiki_get_page_content_body, Server.wiki_create_or_update_page_body,
    Server.search_body, Server.testplan_create_test_case_body,
    Server.testplan_update_test_case_steps_body,
    Server.testplan_create_test_plan_body,
    Server.work_create_iterations_body, Server.work_assign_iterations_body,
    Server.bulk, Server.update_one, Server.add_child,
    Server.create_iteration, Server.assign_iteration,
    Server.get_api, Server.sdk, Server.fetch, Server.read;
    cbv zeta; try rewrite Hfalse; solve_quiet Hsettles.
Qed.

Lemma quiet_handleToolCall (H : Host) (name : jsstr) (args : Args)
  (connection : Auth.WebApi) :
  settles H ->
  (name <> js "pipelines_download_artifact"
   \/ truthy (arg args "destinationPath") = false
   \/ writes H) ->
  quiet (Server.handleToolCall name args connection).
Proof.
  intros Hsettles Hname. unfold Server.handleToolCall.
  destruct (select name) as [b|] eqn:Hb; [|apply quiet_ret].
  apply quiet_run_branch; [exact Hsettles|].
  intros ->. destruct Hname as [Hname|Hpath]; [|exact Hpath].
  exfalso. apply Hname. unfold select, switch_cases in Hb. clear Hname.
  cbn [first_case] in Hb.
  repeat match type of Hb with
         | (if JsString.eqb ?n ?l then _ else _) = _ =>
             let E := fresh "E" in
             destruct (JsString.eqb n l) eqn:E;
             [first [ discriminate Hb | now apply eqb_eq in E ]|clear E]
         end.
  discriminate Hb.
Qed.

Lemma at_boundary_caught (e : Thrown) :
  ends_process (@Throw Server.Envelope e) = false ->
  at_boundary e = Ret (Server.caught e).
Proof. destruct e as [message|v|v]; [reflexivity|reflexivity|discriminate]. Qed.

Lemma getClient_mild (config : Auth.AuthConfig) (c : Auth.ClientState) :
  client_ok c ->
  match fst (Auth.getClient config c) with
  | Ret _ => True
  | Throw e => ends_process (@Throw Server.Envelope e) = false
  end.
Proof.
  unfold client_ok, Auth.getClient, Auth.createPatClient.
  destruct (Auth.clientPromise c) as [[connection|e]|]; cbn [fst];
    try tauto.
  intros _.
  destruct (Auth.personalAccessToken config); [reflexivity|].
  destruct (Auth.organizationUrl config); [reflexivity|exact I].
Qed.

(** C10: whatever the name and the arguments, and whether the handler
    returns or an exception is caught, an envelope that is returned has
    exactly one content item and its type is ["text"]; an invocation
    returns an envelope unless an ['error'] event nobody listens for ends
    the process, and with a service whose requests settle only the failed
    write of a downloaded artifact is such an event. *)
Theorem C10_one_text_item (H : Host) (config : Auth.AuthConfig) (name : jsstr)
  (arguments : option Args) (c : Auth.ClientState) (tr : Trace) :
  (forall env c' tr',
     Server.callTool config name arguments c tr = (Ret env, c', tr') ->
     List.length (Server.content env) = 1
     /\ (forall item, In item (Server.content env) -> Server.type item = js "text")
     /\ one_text env)
  /\ ((exists env c' tr',
         Server.callTool config name arguments c tr = (Ret env, c', tr'))
      \/ (exists v c' tr',
            Server.callTool config name arguments c tr
            = (Throw (Unhandled v), c', tr')))
  /\ (settles H -> client_ok c ->
      name <> js "pipelines_download_artifact"
      \/ truthy (arg (match arguments with Some a => a | None => [] end)
                   "destinationPath") = false
      \/ writes H ->
      exists env c' tr',
        Server.callTool config name arguments c tr = (Ret env, c', tr')).
Proof.
  pose proof (callTool_cases config name arguments c tr) as Hcases.
  cbv zeta in Hcases.
  assert (Hshape : forall env, one_text env ->
            List.length (Server.content env) = 1
            /\ (forall item, In item (Server.content env) ->
                             Server.type item = js "text")
            /\ one_text env).
  { intros env [t Ht]. rewrite Ht. repeat split; [|now exists t].
    intros item [<-|[]]. reflexivity. }
  assert (Hone :
    exists o c' tr',
      Server.callTool config name arguments c tr = (o, c', tr')
      /\ ((exists env, o = Ret env /\ one_text env)
          \/ (exists v, o = Throw (Unhandled v)))).
  { destruct (fst (Auth.getClient config c)) as [connection|e].
    - destruct (Server.handleToolCall name _ connection tr) as [[env|e] tr1]
        eqn:Hrun.
      + do 3 eexists. split; [exact Hcases|]. left. exists env.
        split; [reflexivity|]. exact (rot_handleToolCall _ _ _ _ _ _ Hrun).
      + do 3 eexists. split; [exact Hcases|]. apply at_boundary_cases.
    - do 3 eexists. split; [exact Hcases|]. apply at_boundary_cases. }
  destruct Hone as (o & c1 & tr1 & Hrun & Ho). split; [|split].
  - intros env c' tr' Hret. rewrite Hrun in Hret. injection Hret as -> _ _.
    apply Hshape. destruct Ho as [(env' & [= <-] & Hone)|[v Hv]];
      [exact Hone|discriminate Hv].
  - destruct Ho as [(env & -> & _)|[v ->]]; [left|right]; eauto.
  - intros Hsettles Hok Hname.
    pose proof (getClient_mild config c Hok) as Hclient.
    destruct (fst (Auth.getClient config c)) as [connection|e].
    + pose proof (quiet_handleToolCall H name _ connection Hsettles Hname tr)
        as Hquiet.
      destruct (Server.handleToolCall name _ connection tr) as [[env|e] tr2];
        [eauto|].
      cbn [fst] in Hquiet. rewrite (at_boundary_caught e Hquiet) in Hcases.
      eauto.
    + rewrite (at_boundary_caught e Hclient) in Hcases. eauto.
Qed.

(** ** The dispatch boundary *)






(** What the amended statement leaves aside: when the artifact is to be
    saved and the write stream fails, its ['error'] event has no listener;
    no envelope is returned. *)
Example artifact_write_failure :
  settles unwritable_host
  /\ Server.callTool (H := unwritable_host) example_config
       (js "pipelines_download_artifact")
       (Some [(js "artifactName", Server.str "drop");
              (js "destinationPath", Server.str "/proc")]) Auth.fresh []
     = (Throw (Unhandled (JStr (js "EACCES: permission denied"))),
        snd (Auth.getClient example_config Auth.fresh),
        [ mkCall (js "connection.getBuildApi") [];
          mkCall (js "buildApi.getArtifactContentZip")
            [JUndefined; JUndefined; Server.str "drop"];
          mkCall (js "mkdirSync(dir, { recursive: true })")
            [Server.str "/proc"];
          mkCall (js "stream.pipe(createWriteStream(filePath))")
            [JObj []; Server.str "/proc/drop.zip"] ]).
Proof.
  split; [|vm_compute; reflexivity].
  split; [reflexivity|].
  intros text operands. cbn [expr unwritable_host].
  now destruct (String.eqb text "resolve(destinationPath)").
Qed.

(** ** The lookup tables *)

(** C4 on the code: the table of the pull-request listing declares
    [NotSet] as 0, and the handler sends 1, the value of [Active], because
    0 is falsy and [|| 1] replaces it; the other declared keys give their
    declared values, an undeclared string gives 1 in the listing and in a
    new thread, and [undefined] where the handler has no [||]. *)
Theorem C4_NotSet_listed_as_Active :
  own_number (js "NotSet") Server.pull_request_statusMap = Some 0%Z
  /\ (forall H : Host,
        Server.list_status_code (Server.str "NotSet") = JNum 1
        /\ Server.list_status_code (Server.str "Active") = JNum 1
        /\ Server.list_status_code (Server.str "Abandoned") = JNum 2
        /\ Server.list_status_code (Server.str "Completed") = JNum 3
        /\ Server.list_status_code (Server.str "All") = JNum 4
        /\ Server.list_status_code (Server.str "Draft") = JNum 1
        /\ Server.new_thread_status_code (Server.str "resolved") = JNum 1
        /\ Server.thread_status_code (Server.str "resolved") = JUndefined
        /\ Server.expand_code (Server.str "none") = JNum 0
        /\ Server.expand_code (Server.str "everything") = JUndefined)
  /\ Server.repo_list_pull_requests_body
       (H := example_host (fun _ => Ret JNull)) NotSet_args []
     = (Ret (Server.text_result JNull),
        [ mkCall (js "connection.getGitApi") [];
          mkCall (js "gitApi.getPullRequests")
            [ JStr (js "repo"); Server.obj [("status", JNum 1)]; JUndefined;
              JUndefined; JNum 0; JNum 100 ] ]).
Proof.
  split; [reflexivity|].
  split; [intros H; repeat split; reflexivity|].
  vm_compute. reflexivity.
Qed.

(** ** The bulk operations *)

Section Bulk.

Context {H : Host}.

Variable body : JsVal -> M JsVal.
Variable mk : JsVal -> Call.

Lemma for_of_all (items : list JsVal) :
  (forall item tr, In item items -> body item tr = request (mk item) tr) ->
  forall results tr,
    (forall k, k < List.length items ->
               exists v, answer_at tr (map mk items) k (Ret v)) ->
    exists answers,
      List.length answers = List.length items
      /\ (forall k, k < List.length items ->
                    answer_at tr (map mk items) k (Ret (nth k answers JUndefined)))
      /\ Server.for_of body items results tr
         = (Ret (results ++ answers), tr ++ map mk items).
Proof.
  induction items as [|item rest IH]; intros Hbody results tr Hans.
  - exists []. simpl. rewrite !app_nil_r. repeat split. intros k Hk. lia.
  - destruct (Hans 0 (Nat.lt_0_succ _)) as [v Hv].
    pose proof Hv as Hv0.
    unfold answer_at in Hv. simpl in Hv. rewrite app_nil_r in Hv.
    destruct (IH (fun i t Hi => Hbody i t (or_intror Hi))
                 (results ++ [v]) (tr ++ [mk item]))
      as (answers & Hlen & Hnth & Hrun).
    + intros k Hk. destruct (Hans (S k)) as [w Hw]; [simpl; lia|].
      exists w. unfold answer_at in *. simpl in Hw.
      now rewrite <- app_assoc.
    + exists (v :: answers). split; [simpl; now rewrite Hlen|]. split.
      * intros [|k] Hk; [exact Hv0|].
        specialize (Hnth k). unfold answer_at in *. simpl.
        rewrite <- app_assoc in Hnth. apply Hnth. simpl in Hk. lia.
      * simpl. unfold bind at 1. rewrite (Hbody item tr (or_introl eq_refl)).
        unfold request at 1. rewrite Hv, Hrun, <- !app_assoc. reflexivity.
Qed.

Lemma for_of_fails (items : list JsVal) :
  (forall item tr, In item items -> body item tr = request (mk item) tr) ->
  forall k e results tr,
    k < List.length items ->
    (forall j, j < k -> exists v, answer_at tr (map mk items) j (Ret v)) ->
    answer_at tr (map mk items) k (Throw e) ->
    Server.for_of body items results tr
    = (Throw e, tr ++ firstn (S k) (map mk items)).
Proof.
  induction items as [|item rest IH]; intros Hbody k e results tr Hk Hbefore Hfail.
  - simpl in Hk. lia.
  - simpl. unfold bind at 1. rewrite (Hbody item tr (or_introl eq_refl)).
    unfold request at 1. destruct k as [|k].
    + unfold answer_at in Hfail. simpl in Hfail. rewrite app_nil_r in Hfail.
      now rewrite Hfail.
    + destruct (Hbefore 0 (Nat.lt_0_succ _)) as [v Hv].
      unfold answer_at in Hv. simpl in Hv. rewrite app_nil_r in Hv.
      rewrite Hv.
      rewrite (IH (fun i t Hi => Hbody i t (or_intror Hi)) k e
                  (results ++ [v]) (tr ++ [mk item])).
      * now rewrite <- app_assoc.
      * simpl in Hk. lia.
      * intros j Hj. destruct (Hbefore (S j)) as [w Hw]; [lia|].
        exists w. unfold answer_at in *. simpl in Hw. now rewrite <- app_assoc.
      * unfold answer_at in *. simpl in Hfail. now rewrite <- app_assoc.
Qed.

End Bulk.

Lemma bulk_body_request (H : Host) (t : BulkTool) (connection : Auth.WebApi)
  (args : Args) (item : JsVal) (tr : Trace) :
  item_ok t item = true ->
  bulk_body t connection args item tr
  = request (item_request t connection args item) tr.
Proof.
  intros Hok. destruct t; cbn [item_ok bulk_body item_request] in *.
  - destruct item; try discriminate Hok; reflexivity.
  - unfold Server.add_child, bind, lift, to_string, to_primitive.
    now rewrite Hok.
  - apply andb_true_iff in Hok as [Hok Hfinish].
    apply andb_true_iff in Hok as [Hread Hstart].
    assert (Hdated : forall d,
              datable d = true ->
              Server.dated d = Ret (Server.date_or_undefined d)).
    { intros d Hd. unfold datable in Hd.
      unfold Server.dated, Server.date_or_undefined, to_primitive.
      destruct (truthy d); [|reflexivity].
      cbn [negb orb] in Hd. now rewrite Hd. }
    unfold Server.create_iteration, bind, lift.
    destruct item; try discriminate Hread; cbn [get_field];
      cbn [own_field] in *; cbv beta iota;
      now rewrite ?(Hdated _ Hstart), ?(Hdated _ Hfinish).
  - destruct item; try discriminate Hok; reflexivity.
Qed.

Lemma bulk_handler (H : Host) (t : BulkTool) (connection : Auth.WebApi)
  (args : Args) :
  Server.handleToolCall (js (bulk_name t)) args connection
  = Server.bulk
      (match t with
       | AssignIterations => "getWorkApi"
       | _ => "getWorkItemTrackingApi"
       end)
      (arg args (bulk_field t)) (bulk_body t connection args).
Proof. destruct t; reflexivity. Qed.

Lemma bulk_run (H : Host) (t : BulkTool) (connection : Auth.WebApi)
  (args : Args) (items : list JsVal) (tr : Trace) (g : JsVal) :
  arg args (bulk_field t) = JArr items ->
  service tr (getter_call t) = Ret g ->
  Server.handleToolCall (js (bulk_name t)) args connection tr
  = match Server.for_of (bulk_body t connection args) items []
            (tr ++ [getter_call t]) with
    | (Ret results, tr') =>
        (Ret (Server.text_result (JSON_stringify (JArr results))), tr')
    | (Throw e, tr') => (Throw e, tr')
    end.
Proof.
  intros Hbatch Hgetter. rewrite bulk_handler, Hbatch.
  unfold Server.bulk, Server.get_api, bind at 1, request.
  replace (mkCall _ []) with (getter_call t) by now destruct t.
  rewrite Hgetter. unfold bind, lift, ret. simpl iterate. cbv iota beta.
  now destruct (Server.for_of _ items [] (tr ++ [getter_call t])) as [[r|e] tr'].
Qed.

(** C6, as the code has it: a bulk handler obtains its API and then issues
    one request per item of the batch, in the order of the batch; when
    every request is answered the envelope lists as many results as there
    were items; when the request for an item throws, those before it have
    been issued, those after it never are, and the caller receives only
    the error envelope made from what was thrown: ["Error: "] and the
    message when it is an [Error], ["Error: Unknown error occurred"] when
    it is any other value. *)
Theorem C6_bulk_sequential (H : Host) (t : BulkTool)
  (config : Auth.AuthConfig) (c : Auth.ClientState) (connection : Auth.WebApi)
  (args : Args) (items : list JsVal) (tr : Trace) (g : JsVal) :
  fst (Auth.getClient config c) = Ret connection ->
  arg args (bulk_field t) = JArr items ->
  forallb (item_ok t) items = true ->
  service tr (getter_call t) = Ret g ->
  let tr0 := tr ++ [getter_call t] in
  let calls := map (item_request t connection args) items in
  List.length calls = List.length items
  /\ ((forall k, k < List.length items ->
                 exists v, answer_at tr0 calls k (Ret v)) ->
      exists answers,
        List.length answers = List.length items
        /\ (forall k, k < List.length items ->
                      answer_at tr0 calls k (Ret (nth k answers JUndefined)))
        /\ Server.callTool config (js (bulk_name t)) (Some args) c tr
           = (Ret (Server.text_result (JSON_stringify (JArr answers))),
              snd (Auth.getClient config c), tr0 ++ calls))
  /\ (forall k e,
        k < List.length items ->
        (forall j, j < k -> exists v, answer_at tr0 calls j (Ret v)) ->
        answer_at tr0 calls k (Throw e) ->
        Server.callTool config (js (bulk_name t)) (Some args) c tr
        = (at_boundary e, snd (Auth.getClient config c),
           tr0 ++ firstn (S k) calls)
        /\ (forall message,
              e = ErrorObj message ->
              at_boundary e
              = Ret (Server.mkEnvelope
                       [Server.mkItem (js "text")
                          (JStr (js "Error: " ++ message))]
                       (Some true)))
        /\ (forall v,
              e = NotAnError v ->
              at_boundary e
              = Ret (Server.mkEnvelope
                       [Server.mkItem (js "text")
                          (JStr (js "Error: Unknown error occurred"))]
                       (Some true)))).
Proof.
  intros Hconn Hbatch Hitems Hgetter tr0 calls.
  pose proof (callTool_cases config (js (bulk_name t)) (Some args) c tr) as Hcases.
  cbv zeta in Hcases. rewrite Hconn in Hcases.
  rewrite (bulk_run H t connection args items tr g Hbatch Hgetter) in Hcases.
  fold tr0 in Hcases.
  assert (Hbody : forall item tr1, In item items ->
            bulk_body t connection args item tr1
            = request (item_request t connection args item) tr1).
  { intros item tr1 Hin. apply bulk_body_request.
    rewrite forallb_forall in Hitems. now apply Hitems. }
  split; [apply length_map|]. split.
  - intros Hall.
    destruct (for_of_all _ _ items Hbody [] tr0 Hall)
      as (answers & Hlen & Hnth & Hrun).
    exists answers. split; [exact Hlen|]. split; [exact Hnth|].
    rewrite Hrun in Hcases. exact Hcases.
  - intros k e Hk Hbefore Hfail.
    split; [|split; [now intros message ->|now intros v ->]].
    rewrite (for_of_fails _ _ items Hbody k e [] tr0 Hk Hbefore Hfail) in Hcases.
    exact Hcases.
Qed.

Lemma C6_bulk_sequential_witness :
  (fst (Auth.getClient example_config Auth.fresh) = Ret example_connection
   /\ forallb (item_ok UpdateBatch) three_items = true)
  /\ Server.callTool (H := example_host rejects_12) example_config
       (js "wit_update_work_items_batch")
       (Some [(js "workItems", JArr three_items)]) Auth.fresh []
     = (Ret (Server.error_result (JStr (js "Error: TF401320: rule violation"))),
        snd (Auth.getClient example_config Auth.fresh),
        [ mkCall (js "connection.getWorkItemTrackingApi") [];
          mkCall (js "witApi.updateWorkItem") [JNull; JArr []; JNum 11];
          mkCall (js "witApi.updateWorkItem") [JNull; JArr []; JNum 12] ]).
Proof.
  assert (Hconn : fst (Auth.getClient example_config Auth.fresh)
                  = Ret example_connection) by reflexivity.
  assert (Hitems : forallb (item_ok UpdateBatch) three_items = true)
    by reflexivity.
  split; [split; assumption|].
  destruct (C6_bulk_sequential (example_host rejects_12) UpdateBatch
              example_config Auth.fresh example_connection
              [(js "workItems", JArr three_items)] three_items [] (JObj [])
              Hconn eq_refl Hitems eq_refl) as (_ & _ & Hfail).
  destruct (Hfail 1 (ErrorObj (js "TF401320: rule violation"))) as (Hrun & _).
  - simpl. lia.
  - intros j Hj. assert (j = 0) as -> by lia. now exists (JObj []).
  - reflexivity.
  - exact Hrun.
Defined.

(** The claim as worded fails when the request for an item throws a value
    that is not an [Error]: the second of three updates is rejected with
    an object whose message is ["TF401320: rule violation"]; the first two
    requests have been sent, the third has not, and the envelope says
    ["Error: Unknown error occurred"], without the message. *)
Lemma C6_counterexample :
  Server.callTool (H := example_host refuses_12) example_config
    (js "wit_update_work_items_batch")
    (Some [(js "workItems", JArr three_items)]) Auth.fresh []
  = (Ret (Server.error_result (JStr (js "Error: Unknown error occurred"))),
     snd (Auth.getClient example_config Auth.fresh),
     [ mkCall (js "connection.getWorkItemTrackingApi") [];
       mkCall (js "witApi.updateWorkItem") [JNull; JArr []; JNum 11];
       mkCall (js "witApi.updateWorkItem") [JNull; JArr []; JNum 12] ])
  /\ refuses_12 (mkCall (js "witApi.updateWorkItem") [JNull; JArr []; JNum 12])
     = Throw (NotAnError
                (JObj [(js "message", JStr (js "TF401320: rule violation"))]))
  /\ includes (js "Error: Unknown error occurred")
       (js "TF401320: rule violation") = false.
Proof.
  repeat split; vm_compute; reflexivity.
Qed.

(** ** Filtering by name *)

Lemma listed_keeps (H : Host) (f : jsstr) (item : JsVal) :
  listed item = true ->
  Server.filterable "name" f item = true
  /\ Server.keeps "name" f item = name_contains f item.
Proof.
  unfold listed, Server.filterable, Server.keeps, Server.field_contains,
    name_contains, name_of.
  destruct item as [| | | | |items|fields|]; try discriminate.
  destruct (assoc (js "name") fields) as [[| | | |n| | |]|];
    try discriminate; intros _; split; try reflexivity.
  now destruct (includes (toLowerCase n) (toLowerCase f)).
Qed.

Lemma filter_by_string (H : Host) (source : string) (f : jsstr)
  (items : list JsVal) :
  forallb listed items = true -> f <> [] ->
  Server.filter_by source "name" (JStr f) (JArr items)
  = Ret (JArr (selected f items)).
Proof.
  intros Hitems Hf. unfold Server.filter_by.
  destruct f as [|u f]; [congruence|]. cbn [truthy].
  rewrite forallb_forall in Hitems.
  assert (forallb (Server.filterable "name" (u :: f)) items = true) as ->.
  { apply forallb_forall. intros item Hin.
    now apply (listed_keeps H (u :: f) item), Hitems. }
  f_equal. f_equal. unfold selected. apply filter_ext_in.
  intros item Hin. now apply (listed_keeps H (u :: f) item), Hitems.
Qed.

Lemma filter_by_none (H : Host) (source : string) (flt fetched : JsVal) :
  flt = JUndefined \/ flt = JStr [] ->
  Server.filter_by source "name" flt fetched = Ret fetched.
Proof. intros [-> | ->]; reflexivity. Qed.

Section Listings.

Context {H : Host}.

Variable args : Args.
Variable tr : Trace.
Variable items : list JsVal.

Lemma projects_run (g : JsVal) (shown : JsVal) :
  service tr projects_getter = Ret g ->
  service (tr ++ [projects_getter]) (projects_call args) = Ret (JArr items) ->
  Server.filter_by "projects.filter(...)" "name"
    (arg args "projectNameFilter") (JArr items) = Ret shown ->
  Server.core_list_projects_body args tr
  = (Ret (Server.text_result (JSON_stringify shown)),
     tr ++ [projects_getter; projects_call args]).
Proof.
  intros Hg Hcall Hshown.
  unfold Server.core_list_projects_body, Server.get_api, Server.sdk. cbv zeta.
  unfold bind, request, lift, ret.
  change (mkCall (js "connection." ++ js "getCoreApi") []) with projects_getter.
  rewrite Hg.
  change (mkCall (js "coreApi.getProjects") _) with (projects_call args).
  rewrite Hcall, Hshown, <- app_assoc. reflexivity.
Qed.

Lemma repos_run (g : JsVal) (skip top : Z) :
  service tr repos_getter = Ret g ->
  service (tr ++ [repos_getter]) (repos_call args) = Ret (JArr items) ->
  arg_or args "skip" (JNum 0) = JNum skip ->
  arg_or args "top" (JNum 100) = JNum top ->
  forall kept,
    Server.filter_by "repos.filter(...)" "name"
      (arg args "repoNameFilter") (JArr items) = Ret (JArr kept) ->
    Server.repo_list_repos_by_project_body args tr
    = (Ret (Server.text_result
              (JSON_stringify (JArr (slice skip (skip + top) kept)))),
       tr ++ [repos_getter; repos_call args]).
Proof.
  intros Hg Hcall Hskip Htop kept Hkept.
  unfold Server.repo_list_repos_by_project_body, Server.get_api, Server.sdk.
  cbv zeta. unfold bind, request, lift, ret.
  change (mkCall (js "connection." ++ js "getGitApi") []) with repos_getter.
  rewrite Hg.
  change (mkCall (js "gitApi.getRepositories") _) with (repos_call args).
  rewrite Hcall, Hkept, Hskip, Htop. unfold Server.window.
  rewrite <- app_assoc. reflexivity.
Qed.

End Listings.

(** C9, as the code has it: with a non-empty filter the project listing
    returns exactly the fetched projects whose name contains the filter,
    both in lower case, in their order, and with no filter or an empty one
    it returns the fetched list as it is; the repository listing does the
    same and then returns the window of that list that starts at [skip]
    and holds [top] items, 0 and 100 unless the caller says otherwise. *)
Theorem C9_name_filter (H : Host) (args : Args) (tr : Trace)
  (items : list JsVal) (g : JsVal) :
  forallb listed items = true ->
  (forall f item,
      In item (selected f items)
      <-> In item items
          /\ exists n, name_of item = Some n
                       /\ includes (toLowerCase n) (toLowerCase f) = true)
  /\ (service tr projects_getter = Ret g ->
      service (tr ++ [projects_getter]) (projects_call args) = Ret (JArr items) ->
      (forall f,
          arg args "projectNameFilter" = JStr f -> f <> [] ->
          Server.core_list_projects_body args tr
          = (Ret (Server.text_result (JSON_stringify (JArr (selected f items)))),
             tr ++ [projects_getter; projects_call args]))
      /\ (arg args "projectNameFilter" = JUndefined
          \/ arg args "projectNameFilter" = JStr [] ->
          Server.core_list_projects_body args tr
          = (Ret (Server.text_result (JSON_stringify (JArr items))),
             tr ++ [projects_getter; projects_call args])))
  /\ (service tr repos_getter = Ret g ->
      service (tr ++ [repos_getter]) (repos_call args) = Ret (JArr items) ->
      forall skip top,
        arg_or args "skip" (JNum 0) = JNum skip ->
        arg_or args "top" (JNum 100) = JNum top ->
        (forall f,
            arg args "repoNameFilter" = JStr f -> f <> [] ->
            Server.repo_list_repos_by_project_body args tr
            = (Ret (Server.text_result
                      (JSON_stringify
                         (JArr (slice skip (skip + top) (selected f items))))),
               tr ++ [repos_getter; repos_call args]))
        /\ (arg args "repoNameFilter" = JUndefined
            \/ arg args "repoNameFilter" = JStr [] ->
            Server.repo_list_repos_by_project_body args tr
            = (Ret (Server.text_result
                      (JSON_stringify (JArr (slice skip (skip + top) items)))),
               tr ++ [repos_getter; repos_call args]))).
Proof.
  intros Hitems. split; [|split].
  - intros f item. unfold selected. rewrite filter_In. unfold name_contains.
    split.
    + intros [Hin Hc]. split; [exact Hin|].
      destruct (name_of item) as [n|]; [now exists n|discriminate].
    + intros [Hin (n & -> & Hc)]. auto.
  - intros Hg Hcall. split.
    + intros f Hflt Hf. apply (projects_run args tr items g _ Hg Hcall).
      rewrite Hflt. now apply filter_by_string.
    + intros Hflt. apply (projects_run args tr items g _ Hg Hcall).
      now apply filter_by_none.
  - intros Hg Hcall skip top Hskip Htop. split.
    + intros f Hflt Hf.
      apply (repos_run args tr items g skip top Hg Hcall Hskip Htop).
      rewrite Hflt. now apply filter_by_string.
    + intros Hflt.
      apply (repos_run args tr items g skip top Hg Hcall Hskip Htop).
      now apply filter_by_none.
Qed.

Lemma C9_name_filter_witness :
  forallb listed two_repos = true
  /\ Server.core_list_projects_body
       (H := example_host (fun _ => Ret (JArr two_repos)))
       [(js "projectNameFilter", JStr (js "TOOLS"))] []
     = (Ret (Server.text_result
               (JArr [Server.obj [("name", Server.str "Alpha-tools")]])),
        [projects_getter;
         projects_call [(js "projectNameFilter", JStr (js "TOOLS"))]]).
Proof.
  assert (Hitems : forallb listed two_repos = true) by reflexivity.
  split; [exact Hitems|].
  destruct (C9_name_filter (example_host (fun _ => Ret (JArr two_repos)))
              [(js "projectNameFilter", JStr (js "TOOLS"))] [] two_repos
              (JArr two_repos) Hitems) as (_ & Hprojects & _).
  destruct (Hprojects eq_refl eq_refl) as [Hfiltered _].
  apply (Hfiltered (js "TOOLS")); [reflexivity|discriminate].
Defined.

(** The claim as worded fails for the repository listing: both fetched
    repositories contain ["alpha"] in their name, the caller asks for one
    item a page, and one repository is returned. *)
Lemma C9_counterexample :
  selected (H := example_host (fun _ => Ret (JArr two_repos))) (js "alpha")
    two_repos = two_repos
  /\ Server.repo_list_repos_by_project_body
       (H := example_host (fun _ => Ret (JArr two_repos))) first_page_args []
     = (Ret (Server.text_result
               (JArr [Server.obj [("name", Server.str "alpha")]])),
        [repos_getter; repos_call first_page_args])
  /\ [Server.obj [("name", Server.str "alpha")]] <> two_repos.
Proof.
  split; [vm_compute; reflexivity|].
  split; [vm_compute; reflexivity|discriminate].
Qed.

(* ================================================================== *)
(** * Further properties *)

(** ** Splitting and trimming *)

Lemma split_on_nonempty (sep : N) (s : jsstr) : split_on sep s <> [].
Proof.
  destruct s as [|c s]; simpl; [discriminate|].
  destruct (N.eqb c sep); [discriminate|].
  destruct (split_on sep s); discriminate.
Qed.

Lemma split_on_app (sep : N) (a b : jsstr) :
  split_on sep (a ++ sep :: b) = split_on sep a ++ split_on sep b.
Proof.
  induction a as [|c a IH]; simpl.
  - now rewrite N.eqb_refl.
  - destruct (N.eqb c sep); rewrite IH; [reflexivity|].
    pose proof (split_on_nonempty sep a) as Hne.
    now destruct (split_on sep a).
Qed.

Lemma split_on_pieces (sep : N) (s p : jsstr) (c : N) :
  In p (split_on sep s) -> In c p -> In c s /\ c <> sep.
Proof.
  revert p. induction s as [|d s IH]; simpl; intros p Hp Hc.
  - destruct Hp as [<-|[]]. contradiction.
  - destruct (N.eqb_spec d sep) as [->|Hd].
    + destruct Hp as [<-|Hp]; [contradiction|].
      destruct (IH p Hp Hc). auto.
    + destruct (split_on sep s) as [|q qs] eqn:Hsplit.
      * destruct Hp as [<-|[]]. destruct Hc as [<-|[]]. auto.
      * destruct Hp as [<-|Hp].
        -- destruct Hc as [<-|Hc]; [auto|].
           destruct (IH q (or_introl eq_refl) Hc). auto.
        -- destruct (IH p (or_intror Hp) Hc). auto.
Qed.

Lemma drop_while_all (p : N -> bool) (s : jsstr) :
  forallb p s = true -> drop_while p s = [].
Proof.
  induction s as [|c s IH]; simpl; [reflexivity|].
  intros Hs. apply andb_true_iff in Hs as [-> Hs]. auto.
Qed.

Lemma drop_while_stops (p : N -> bool) (s : jsstr) : stops p (drop_while p s).
Proof.
  induction s as [|c s IH]; simpl; [exact I|].
  destruct (p c) eqn:Hc; [exact IH|exact Hc].
Qed.

Lemma drop_while_suffix (p : N -> bool) (s : jsstr) :
  exists dropped, s = dropped ++ drop_while p s.
Proof.
  induction s as [|c s [dropped IH]]; simpl.
  - now exists [].
  - destruct (p c).
    + exists (c :: dropped). simpl. now f_equal.
    + now exists [].
Qed.

Lemma stops_prefix (p : N -> bool) (x rest : jsstr) :
  stops p (x ++ rest) -> x <> [] -> stops p x.
Proof. destruct x; simpl; [congruence|auto]. Qed.

Lemma trim_all_ws (s : jsstr) : forallb is_ws s = true -> trim s = [].
Proof.
  intros Hs. unfold trim, trim_start, trim_end.
  now rewrite (drop_while_all _ _ Hs).
Qed.

(** what [trim] returns neither starts nor ends with white space *)
Lemma trim_stops (s : jsstr) :
  stops is_ws (trim s) /\ stops is_ws (rev (trim s)).
Proof.
  unfold trim, trim_end, trim_start.
  set (t := drop_while is_ws s).
  assert (Ht : stops is_ws t) by apply drop_while_stops.
  split.
  - destruct (drop_while_suffix is_ws (rev t)) as [dropped Hd].
    assert (t = rev (drop_while is_ws (rev t)) ++ rev dropped) as Heq.
    { rewrite <- rev_app_distr, <- Hd. now rewrite rev_involutive. }
    destruct (rev (drop_while is_ws (rev t))) as [|c x] eqn:Hx; [exact I|].
    rewrite Heq in Ht. exact Ht.
  - rewrite rev_involutive. apply drop_while_stops.
Qed.

(** ** The organization name *)

(** The organization name read from the URL is its last path segment,
    whether or not the URL ends with a slash; it never contains a slash,
    and it is empty when the URL ends with two. *)
Theorem orgName_last_segment (base name : jsstr) :
  name <> [] -> ~ In 47%N name ->
  Setup.orgName (base ++ 47%N :: name) = name
  /\ Setup.orgName (base ++ 47%N :: name ++ [47%N]) = name
  /\ Setup.orgName (base ++ [47%N; 47%N]) = []
  /\ Setup.orgName name = name
  /\ forall url, ~ In 47%N (Setup.orgName url).
Proof.
  intros Hne Hname. unfold Setup.orgName.
  split; [|split; [|split; [|split]]].
  - rewrite split_on_app, (split_on_whole _ _ Hname), rev_app_distr. simpl.
    destruct name; [congruence|reflexivity].
  - rewrite split_on_app, split_on_app, (split_on_whole _ _ Hname).
    rewrite !rev_app_distr. simpl.
    destruct name; [congruence|reflexivity].
  - change (base ++ [47%N; 47%N]) with (base ++ 47%N :: [47%N]).
    rewrite split_on_app, rev_app_distr. reflexivity.
  - rewrite (split_on_whole _ _ Hname). simpl.
    destruct name; [congruence|reflexivity].
  - intros url Hin.
    assert (Hpiece : forall p, In p (rev (split_on 47 url)) -> ~ In 47%N p).
    { intros p Hp Hc. apply in_rev in Hp.
      destruct (split_on_pieces _ _ _ _ Hp Hc) as [_ Hsep]. congruence. }
    destruct (rev (split_on 47 url)) as [|last rest]; [contradiction|].
    destruct last as [|c last].
    + destruct rest as [|before rest]; [contradiction|].
      destruct before as [|d before]; [contradiction|].
      apply (Hpiece (d :: before)); simpl; auto.
    + apply (Hpiece (c :: last)); simpl; auto.
Qed.

Lemma orgName_last_segment_witness :
  (js "contoso" <> [] /\ ~ In 47%N (js "contoso"))
  /\ Setup.orgName (js "https://dev.azure.com" ++ 47%N :: js "contoso" ++ [47%N])
     = js "contoso".
Proof.
  assert (Hne : js "contoso" <> []) by discriminate.
  assert (Hname : ~ In 47%N (js "contoso"))
    by (vm_compute; intuition discriminate).
  split; [split; assumption|].
  apply (orgName_last_segment (js "https://dev.azure.com") (js "contoso") Hne Hname).
Defined.

(** ** More on the step text *)

Lemma step_lines_app (a b : jsstr) :
  Steps.step_lines (a ++ 10%N :: b) = Steps.step_lines a ++ Steps.step_lines b.
Proof. unfold Steps.step_lines. now rewrite split_on_app, filter_app. Qed.

Lemma step_lines_ws (s : jsstr) :
  forallb is_ws s = true -> Steps.step_lines s = [].
Proof.
  intros Hs. unfold Steps.step_lines.
  assert (Hall : forall p, In p (split_on 10 s) -> Steps.non_blank p = false).
  { intros p Hp. unfold Steps.non_blank. rewrite trim_all_ws; [reflexivity|].
    apply forallb_forall. intros c Hc.
    destruct (split_on_pieces _ _ _ _ Hp Hc) as [Hin _].
    rewrite forallb_forall in Hs. auto. }
  induction (split_on 10 s) as [|p ps IH]; simpl; [reflexivity|].
  rewrite (Hall p (or_introl eq_refl)). apply IH.
  intros q Hq. apply Hall. now right.
Qed.

Lemma blank_line_ws (s : jsstr) : blank_line s = true -> forallb is_ws s = true.
Proof.
  unfold blank_line. rewrite !forallb_forall. intros Hs c Hc.
  specialize (Hs c Hc). now apply andb_true_iff in Hs as [-> _].
Qed.

Lemma convert_of_lines (x y : jsstr) :
  Steps.step_lines x = Steps.step_lines y ->
  Steps.convertStepsToXml x = Steps.convertStepsToXml y.
Proof. unfold Steps.convertStepsToXml. now intros ->. Qed.

(** A text of white space only gives the empty container; the kept lines of
    two texts joined by a line feed are those of the first followed by
    those of the second; so a blank line between two lines, or at either
    end, changes nothing in the markup. *)
Theorem blank_lines_are_skipped (a b blank : jsstr) :
  blank_line blank = true ->
  Steps.convertStepsToXml (a ++ 10%N :: blank ++ 10%N :: b)
  = Steps.convertStepsToXml (a ++ 10%N :: b)
  /\ Steps.convertStepsToXml (blank ++ 10%N :: b) = Steps.convertStepsToXml b
  /\ Steps.convertStepsToXml (a ++ 10%N :: blank) = Steps.convertStepsToXml a
  /\ Steps.step_lines (a ++ 10%N :: b) = Steps.step_lines a ++ Steps.step_lines b
  /\ (forall steps,
        forallb is_ws steps = true ->
        Steps.convertStepsToXml steps = Steps.steps_open 0 ++ js "</steps>").
Proof.
  intros Hblank. apply blank_line_ws in Hblank.
  pose proof (step_lines_ws blank Hblank) as Hnone.
  split; [|split; [|split; [|split]]].
  - apply convert_of_lines. now rewrite !step_lines_app, Hnone.
  - apply convert_of_lines. now rewrite step_lines_app, Hnone.
  - apply convert_of_lines. now rewrite step_lines_app, Hnone, app_nil_r.
  - apply step_lines_app.
  - intros steps Hs. unfold Steps.convertStepsToXml.
    now rewrite (step_lines_ws steps Hs).
Qed.

Lemma blank_lines_are_skipped_witness :
  blank_line (js "   ") = true
  /\ Steps.convertStepsToXml (js "1. a|b" ++ 10%N :: js "   " ++ 10%N :: js "2. c|d")
     = Steps.convertStepsToXml (js "1. a|b" ++ 10%N :: js "2. c|d").
Proof.
  assert (Hblank : blank_line (js "   ") = true) by reflexivity.
  split; [exact Hblank|].
  apply (blank_lines_are_skipped (js "1. a|b") (js "2. c|d") (js "   ") Hblank).
Defined.

Lemma fields_trimmed (line p : jsstr) :
  In p (Steps.fields line) -> stops is_ws p /\ stops is_ws (rev p).
Proof.
  unfold Steps.fields. intros Hp. apply in_map_iff in Hp as (x & <- & _).
  apply trim_stops.
Qed.

(** Of every line: the expected result is never empty and carries no white
    space at either end, nor does the step part; the step text is what is
    left of the step part after a prefix is removed, and it is empty only
    when the step part is. *)
Theorem step_texts_are_trimmed (line : jsstr) :
  Steps.expectedText line <> []
  /\ stops is_ws (Steps.expectedText line)
  /\ stops is_ws (rev (Steps.expectedText line))
  /\ stops is_ws (Steps.stepPart line)
  /\ stops is_ws (rev (Steps.stepPart line))
  /\ (exists removed, Steps.stepPart line = removed ++ Steps.stepText line)
  /\ (Steps.stepText line = [] <-> Steps.stepPart line = []).
Proof.
  assert (Hexp : Steps.expectedText line = Steps.placeholder
                 \/ (Steps.expectedText line <> []
                     /\ In (Steps.expectedText line) (Steps.fields line))).
  { unfold Steps.expectedText, Steps.expectedPart.
    destruct (nth_error (Steps.fields line) 1) as [[|c e]|] eqn:Hnth; auto.
    right. split; [discriminate|]. exact (nth_error_In _ _ Hnth). }
  assert (Hpart : stops is_ws (Steps.stepPart line)
                  /\ stops is_ws (rev (Steps.stepPart line))).
  { unfold Steps.stepPart.
    destruct (Steps.fields line) as [|p ps] eqn:Hf; [simpl; auto|].
    simpl. apply (fields_trimmed line). rewrite Hf. now left. }
  assert (Htext : Steps.stepText line = Steps.stepPart line
                  \/ (Steps.stepText line <> []
                      /\ exists removed,
                           Steps.stepPart line = removed ++ Steps.stepText line)).
  { unfold Steps.stepText.
    destruct (Regex.step_regex (Steps.stepPart line)) as [g|] eqn:Hre; [|now left].
    right. apply step_regex_sound in Hre as (digits & ws & Hs & _ & _ & _ & Hg & _).
    split; [exact Hg|]. exists (digits ++ [46%N] ++ ws).
    now rewrite Hs, <- !app_assoc. }
  split; [|split; [|split; [|split; [|split; [|split]]]]].
  - destruct Hexp as [->|[Hne _]]; [discriminate|exact Hne].
  - destruct Hexp as [->|[_ Hin]]; [reflexivity|].
    apply (fields_trimmed line _ Hin).
  - destruct Hexp as [->|[_ Hin]]; [reflexivity|].
    apply (fields_trimmed line _ Hin).
  - apply Hpart.
  - apply Hpart.
  - destruct Htext as [->|[_ Hex]]; [now exists []|exact Hex].
  - destruct Htext as [->|[Hne [removed Hrem]]]; [tauto|].
    split; [congruence|]. intros Hpart0. rewrite Hpart0 in Hrem.
    symmetry in Hrem. apply app_eq_nil in Hrem. tauto.
Qed.

(** ** Escaping loses nothing *)

Lemma unescape_skip (x rest : jsstr) :
  More.unescape_from (List.length x) (x ++ rest) = More.unescape_from 0 rest.
Proof. induction x as [|c x IH]; simpl; [reflexivity|exact IH]. Qed.

Lemma unescape_entity (c : N) (rest : jsstr) :
  Steps.is_special c = true ->
  More.unescape_from 0 (Steps.escape_unit c ++ rest)
  = c :: More.unescape_from 0 rest.
Proof.
  intros Hc. apply is_special_cases in Hc.
  destruct Hc as [->|[->|[->|[->| ->]]]]; reflexivity.
Qed.

Lemma unescape_escape (s : jsstr) : unescapeXml (Steps.escapeXml s) = s.
Proof.
  unfold unescapeXml. induction s as [|c s IH]; [reflexivity|].
  simpl Steps.escapeXml.
  destruct (Steps.is_special c) eqn:Hc.
  - rewrite (unescape_entity c _ Hc). now f_equal.
  - assert (N.eqb c 38 = false) as Hamp.
    { destruct (N.eqb_spec c 38) as [->|]; [discriminate|reflexivity]. }
    simpl. rewrite Hamp. now f_equal.
Qed.

Lemma escapeXml_fixes_plain (s : jsstr) :
  forallb (fun c => negb (Steps.is_special c)) s = true ->
  Steps.escapeXml s = s.
Proof.
  induction s as [|c s IH]; simpl; [reflexivity|].
  intros Hs. apply andb_true_iff in Hs as [Hc Hs].
  apply negb_true_iff in Hc. rewrite Hc. simpl. now f_equal; auto.
Qed.

Lemma escapeXml_length (s : jsstr) :
  List.length s <= List.length (Steps.escapeXml s).
Proof.
  induction s as [|c s IH]; simpl; [lia|].
  rewrite length_app.
  destruct (Steps.is_special c) eqn:Hc; [|simpl; lia].
  apply is_special_cases in Hc.
  destruct Hc as [->|[->|[->|[->| ->]]]]; cbn; lia.
Qed.

(** Escaping can be undone: reading the five entities back gives the text
    that was escaped, so two different texts never get the same markup; a
    text without any of the five characters is left as it is, and no text
    gets shorter. *)
Theorem escapeXml_is_reversible :
  (forall s, unescapeXml (Steps.escapeXml s) = s)
  /\ (forall a b, Steps.escapeXml a = Steps.escapeXml b -> a = b)
  /\ (forall s,
        forallb (fun c => negb (Steps.is_special c)) s = true ->
        Steps.escapeXml s = s)
  /\ (forall s, List.length s <= List.length (Steps.escapeXml s)).
Proof.
  split; [exact unescape_escape|].
  split.
  { intros a b Heq. rewrite <- (unescape_escape a), <- (unescape_escape b).
    now rewrite Heq. }
  split; [exact escapeXml_fixes_plain|exact escapeXml_length].
Qed.


(** ** Pages of a fetched list *)

Lemma firstn_min_length {A : Type} (n : nat) (l : list A) :
  firstn (Nat.min n (List.length l)) l = firstn n l.
Proof.
  destruct (Nat.le_gt_cases n (List.length l)) as [Hle|Hgt].
  - now rewrite Nat.min_l.
  - rewrite Nat.min_r by lia. rewrite !firstn_all2; auto; lia.
Qed.

Lemma slice_from (A : Type) (l : list A) (s t : Z) :
  (0 <= s)%Z -> (0 <= t)%Z ->
  slice s (s + t) l = firstn (Z.to_nat t) (skipn (Z.to_nat s) l).
Proof.
  intros Hs Ht. unfold slice, relative_index.
  assert ((s <? 0)%Z = false) as -> by lia.
  assert ((s + t <? 0)%Z = false) as -> by lia.
  destruct (Nat.le_gt_cases (List.length l) (Z.to_nat s)) as [Hout|Hin].
  - rewrite (skipn_all2 (n := Z.to_nat s)) by exact Hout.
    rewrite skipn_all2 by lia. now rewrite !firstn_nil.
  - replace (Z.to_nat (Z.min s (Z.of_nat (List.length l)))) with (Z.to_nat s)
      by lia.
    rewrite <- (firstn_min_length (Z.to_nat t)).
    f_equal. rewrite length_skipn. lia.
Qed.

Lemma firstn_sum {A : Type} (n m : nat) (l : list A) :
  firstn n l ++ firstn m (skipn n l) = firstn (n + m) l.
Proof.
  revert l. induction n as [|n IH]; intros l; simpl; [reflexivity|].
  destruct l as [|x l]; simpl; [now rewrite firstn_nil|].
  now rewrite IH.
Qed.

(** One page of the repository listing holds at most [top] items, starting
    after the first [skip]; a page and the page that follows it are
    together the page of their joint size, so walking the pages loses and
    repeats nothing; a page that starts at or after the end is empty. *)
Theorem repository_pages (H : Host) (items : list JsVal) (skip top more : Z) :
  (0 <= skip)%Z -> (0 <= top)%Z -> (0 <= more)%Z ->
  exists page next,
    Server.window (JArr items) (JNum skip) (JNum top) = Ret (JArr page)
    /\ Server.window (JArr items) (JNum (skip + top)) (JNum more)
       = Ret (JArr next)
    /\ Server.window (JArr items) (JNum skip) (JNum (top + more))
       = Ret (JArr (page ++ next))
    /\ page = firstn (Z.to_nat top) (skipn (Z.to_nat skip) items)
    /\ List.length page <= Z.to_nat top
    /\ ((Z.of_nat (List.length items) <= skip)%Z -> page = [])
    /\ Server.window (JArr items) (JNum 0)
         (JNum (Z.of_nat (List.length items))) = Ret (JArr items).
Proof.
  intros Hskip Htop Hmore.
  exists (firstn (Z.to_nat top) (skipn (Z.to_nat skip) items)),
    (firstn (Z.to_nat more) (skipn (Z.to_nat (skip + top)) items)).
  unfold Server.window.
  rewrite !slice_from by lia.
  split; [reflexivity|]. split; [reflexivity|]. split.
  { do 2 f_equal. rewrite !Z2Nat.inj_add by lia.
    rewrite <- firstn_sum. f_equal. f_equal.
    now rewrite skipn_skipn, Nat.add_comm. }
  split; [reflexivity|]. split; [apply firstn_le_length|]. split.
  { intros Hend. rewrite skipn_all2 by lia. apply firstn_nil. }
  rewrite Nat2Z.id. simpl. now rewrite firstn_all.
Qed.

Lemma repository_pages_witness :
  ((0 <= 0)%Z /\ (0 <= 1)%Z /\ (0 <= 1)%Z)
  /\ exists page next,
       Server.window (H := example_host refusing) (JArr two_repos) (JNum 0)
         (JNum 1) = Ret (JArr page)
       /\ Server.window (H := example_host refusing) (JArr two_repos)
            (JNum (0 + 1)) (JNum 1) = Ret (JArr next)
       /\ page ++ next = two_repos.
Proof.
  split; [lia|].
  destruct (repository_pages (example_host refusing) two_repos 0 1 1)
    as (page & next & Hpage & Hnext & _ & -> & _); try lia.
  exists (firstn (Z.to_nat 1) (skipn (Z.to_nat 0) two_repos)), next.
  split; [exact Hpage|]. split; [exact Hnext|].
  injection Hnext as <-. reflexivity.
Defined.

(** A negative [top] is not refused: with no [skip] the end of the window
    is counted from the end of the list, so [top = -k] returns all but the
    last [k] repositories. *)
Theorem negative_top_counts_from_the_end (H : Host) (items : list JsVal) (k : nat) :
  0 < k -> k <= List.length items ->
  Server.window (JArr items) (JNum 0) (JNum (- Z.of_nat k))
  = Ret (JArr (firstn (List.length items - k) items)).
Proof.
  intros Hk Hlen. unfold Server.window, slice, relative_index.
  assert ((0 <? 0)%Z = false) as -> by lia.
  assert ((0 + - Z.of_nat k <? 0)%Z = true) as -> by lia.
  do 2 f_equal. simpl skipn.
  replace (Z.to_nat (Z.min 0 (Z.of_nat (List.length items)))) with 0 by lia.
  simpl. f_equal. lia.
Qed.

Lemma negative_top_counts_from_the_end_witness :
  (0 < 1 /\ 1 <= List.length two_repos)
  /\ Server.window (H := example_host refusing) (JArr two_repos) (JNum 0)
       (JNum (-1))
     = Ret (JArr [Server.obj [("name", Server.str "alpha")]]).
Proof.
  split; [simpl; lia|].
  apply (negative_top_counts_from_the_end (example_host refusing) two_repos 1);
    simpl; lia.
Defined.

(** ** Branch names *)

Lemma is_prefix_split (p s : jsstr) :
  is_prefix p s = true -> s = p ++ skipn (List.length p) s.
Proof.
  revert s. induction p as [|a p IH]; intros s; simpl; [reflexivity|].
  destruct s as [|b s]; [discriminate|].
  intros Hp. apply andb_true_iff in Hp as [Hab Hp].
  apply N.eqb_eq in Hab. subst b. f_equal. auto.
Qed.

Lemma remove_first_prefix (p s : jsstr) :
  is_prefix p s = true -> Branches.remove_first p s = skipn (List.length p) s.
Proof. intros Hp. destruct s; simpl; now rewrite Hp. Qed.

Lemma In_firstn {A : Type} (n : nat) (l : list A) (x : A) :
  In x (firstn n l) -> In x l.
Proof.
  revert l. induction n as [|n IH]; intros [|y l]; simpl; try tauto.
  intros [->|Hx]; auto.
Qed.

Lemma slice_first (A : Type) (l : list A) (top : Z) :
  (0 <= top)%Z -> slice 0 top l = firstn (Z.to_nat top) l.
Proof.
  intros Htop. now rewrite <- (Z.add_0_l top) at 1; rewrite slice_from by lia.
Qed.

(** The branch listing keeps the fetched refs under [refs/heads/], in their
    order, and returns at most [top] short names; each short name is the
    ref name without that prefix, and only the prefix is removed, also when
    the same text occurs again further in the name.  The listing of the
    caller's branches returns at most [top] of the same refs, whole. *)
Theorem branch_names_are_short (top : Z) (branches : list JsVal) :
  (0 <= top)%Z -> forallb listed branches = true ->
  Branches.branch_names top branches
  = firstn (Z.to_nat top)
      (map Branches.short_name (filter Branches.in_heads branches))
  /\ List.length (Branches.branch_names top branches) <= Z.to_nat top
  /\ (forall r,
        In r (Branches.branch_names top branches) ->
        exists b short,
          In b branches /\ r = JStr short
          /\ name_of b = Some (Branches.heads ++ short))
  /\ Branches.my_branches top branches
     = firstn (Z.to_nat top) (filter Branches.in_heads branches)
  /\ (forall b,
        In b (Branches.my_branches top branches) ->
        In b branches /\ Branches.in_heads b = true).
Proof.
  intros Htop _. unfold Branches.branch_names, Branches.my_branches.
  rewrite !slice_first by exact Htop.
  split; [reflexivity|]. split; [apply firstn_le_length|]. split.
  { intros r Hr. apply In_firstn in Hr.
    apply in_map_iff in Hr as (b & <- & Hb).
    apply filter_In in Hb as [Hin Hheads].
    unfold Branches.in_heads, Branches.short_name in *.
    destruct (name_of b) as [n|] eqn:Hname; [|discriminate].
    exists b, (skipn (List.length Branches.heads) n).
    split; [exact Hin|]. split.
    - now rewrite remove_first_prefix.
    - rewrite Hname. f_equal. now apply is_prefix_split. }
  split; [reflexivity|].
  intros b Hb. apply In_firstn in Hb. now apply filter_In in Hb.
Qed.

Lemma branch_names_are_short_witness :
  ((0 <= 5)%Z
   /\ forallb listed
        [Server.obj [("name", Server.str "refs/heads/fix/refs/heads/x")];
         Server.obj [("name", Server.str "refs/tags/v1")]] = true)
  /\ Branches.branch_names 5
       [Server.obj [("name", Server.str "refs/heads/fix/refs/heads/x")];
        Server.obj [("name", Server.str "refs/tags/v1")]]
     = [Server.str "fix/refs/heads/x"].
Proof.
  split; [split; [lia|reflexivity]|].
  destruct (branch_names_are_short 5
              [Server.obj [("name", Server.str "refs/heads/fix/refs/heads/x")];
               Server.obj [("name", Server.str "refs/tags/v1")]])
    as (Heq & _); [lia|reflexivity|].
  rewrite Heq. reflexivity.
Defined.

(** ** Early returns of the handlers *)

Section Stepping.

Context {H : Host}.

Lemma bind_request {B : Type} (c : Call) (f : JsVal -> M B) (tr : Trace) :
  bind (request c) f tr
  = match service tr c with
    | Ret a => f a (tr ++ [c])
    | Throw e => (Throw e, tr ++ [c])
    end.
Proof. unfold bind, request. now destruct (service tr c). Qed.

Lemma bind_lift {A B : Type} (o : Outcome A) (f : A -> M B) (tr : Trace) :
  bind (lift o) f tr
  = match o with
    | Ret a => f a tr
    | Throw e => (Throw e, tr)
    end.
Proof. unfold bind, lift. now destruct o. Qed.

Lemma bind_ret {A B : Type} (a : A) (f : A -> M B) (tr : Trace) :
  bind (ret a) f tr = f a tr.
Proof. reflexivity. Qed.

Lemma bind_bind {A B C : Type} (m : M A) (f : A -> M B) (k : B -> M C)
  (tr : Trace) :
  bind (bind m f) k tr = bind m (fun x => bind (f x) k) tr.
Proof. unfold bind. now destruct (m tr) as [[a|e] tr']. Qed.

Lemma for_of_app (body : JsVal -> M JsVal) (a b results : list JsVal)
  (tr : Trace) :
  Server.for_of body (a ++ b) results tr
  = match Server.for_of body a results tr with
    | (Ret r, tr') => Server.for_of body b r tr'
    | (Throw e, tr') => (Throw e, tr')
    end.
Proof.
  revert results tr. induction a as [|x a IH]; intros results tr; simpl.
  - reflexivity.
  - unfold bind. destruct (body x tr) as [[r|e] tr']; [apply IH|reflexivity].
Qed.

End Stepping.

Ltac open_handler :=
  unfold Server.get_api, Server.sdk, Server.fetch, Server.read; cbv zeta.

Ltac any_answer :=
  match goal with
  | |- context [match service ?t ?c with _ => _ end] =>
      destruct (service t c)
  end.

Ltac run_step :=
  first
    [ rewrite bind_request
    | rewrite bind_lift
    | rewrite bind_ret ].

(** The pull-request listing looks the status up first, and a status that
    has no property key makes it throw before anything is listed.
    Otherwise it needs a repository or a project: with neither, it answers
    the error envelope after obtaining the API and asks the service
    nothing; with a repository it lists by repository, also when a project
    is given; with a project only it lists by project.  The status it
    sends is the one [list_status_code] gives. *)
Theorem pull_request_listing_scope (H : Host) (args : Args) (tr : Trace)
  (g : JsVal) :
  service tr git_getter = Ret g ->
  let repositoryId := arg args "repositoryId" in
  let project := arg args "project" in
  let status := arg_or args "status" (Server.str "Active") in
  let criteria := Server.obj [("status", Server.list_status_code status)] in
  (convertible status = true ->
   (truthy repositoryId = false -> truthy project = false ->
    Server.repo_list_pull_requests_body args tr
    = (Ret (Server.error_result
              (Server.str "Either repositoryId or project required")),
       tr ++ [git_getter]))
   /\ (truthy repositoryId = true ->
       snd (Server.repo_list_pull_requests_body args tr)
       = tr ++ [git_getter;
                mkCall (js "gitApi.getPullRequests")
                  [repositoryId; criteria; project; JUndefined;
                   arg_or args "skip" (JNum 0); arg_or args "top" (JNum 100)]])
   /\ (truthy repositoryId = false -> truthy project = true ->
       snd (Server.repo_list_pull_requests_body args tr)
       = tr ++ [git_getter;
                mkCall (js "gitApi.getPullRequestsByProject")
                  [project; criteria; JUndefined;
                   arg_or args "skip" (JNum 0); arg_or args "top" (JNum 100)]]))
  /\ (convertible status = false ->
      exists message,
        Server.repo_list_pull_requests_body args tr
        = (Throw (ErrorObj message), tr ++ [git_getter])).
Proof.
  intros Hgetter repositoryId project status criteria.
  unfold Server.repo_list_pull_requests_body. open_handler.
  change (mkCall (js "connection." ++ js "getGitApi") []) with git_getter.
  rewrite bind_request, Hgetter, bind_lift.
  fold repositoryId project status.
  unfold Server.list_status, Server.keyed, to_primitive.
  split; intros ->; [|eexists; reflexivity].
  fold criteria. split; [|split].
  - intros -> ->. reflexivity.
  - intros ->. rewrite bind_request.
    any_answer; cbn [snd ret]; now rewrite <- app_assoc.
  - intros -> ->. rewrite bind_request.
    any_answer; cbn [snd ret]; now rewrite <- app_assoc.
Qed.

Lemma pull_request_listing_scope_witness :
  @service (example_host (fun _ => Ret JNull)) [] git_getter = Ret JNull
  /\ Server.repo_list_pull_requests_body
       (H := example_host (fun _ => Ret JNull)) [] []
     = (Ret (Server.error_result
               (Server.str "Either repositoryId or project required")),
        [git_getter])
  /\ exists message,
       Server.repo_list_pull_requests_body
         (H := example_host (fun _ => Ret JNull))
         [(js "status", Server.obj [("toString", JNum 1)])] []
       = (Throw (ErrorObj message), [git_getter]).
Proof.
  split; [reflexivity|].
  split.
  - destruct (pull_request_listing_scope (example_host (fun _ => Ret JNull))
                [] [] JNull eq_refl) as [Hkeyed _].
    destruct (Hkeyed eq_refl) as [Hnone _].
    apply Hnone; reflexivity.
  - destruct (pull_request_listing_scope (example_host (fun _ => Ret JNull))
                [(js "status", Server.obj [("toString", JNum 1)])] [] JNull
                eq_refl) as [_ Hthrows].
    apply Hthrows. reflexivity.
Defined.

(** A new branch starts at the commit the caller names, and then the
    source branch is not looked up; without a commit the source branch
    ([main] unless named) is looked up, and when it has no object id the
    handler answers the error envelope and updates no ref.  The names of
    the two branches are written into the requests as texts: a name that
    has no text makes the handler throw before the request that would
    carry it. *)
Theorem create_branch_source (H : Host) (args : Args) (tr : Trace) (g : JsVal) :
  service tr git_getter = Ret g ->
  let sourceBranchName := arg_or args "sourceBranchName" (Server.str "main") in
  let sourceCommitId := arg args "sourceCommitId" in
  let branchName := arg args "branchName" in
  let lookup :=
    mkCall (js "gitApi.getRefs")
      [arg args "repositoryId"; JUndefined;
       JStr (js "heads/" ++ ToString sourceBranchName)] in
  let update (commitId : JsVal) :=
    mkCall (js "gitApi.updateRefs")
      [JArr [Server.obj
               [("name", JStr (js "refs/heads/" ++ ToString branchName));
                ("newObjectId", commitId);
                ("oldObjectId",
                 Server.str "0000000000000000000000000000000000000000")]];
       arg args "repositoryId"] in
  (truthy sourceCommitId = true ->
   (convertible branchName = true ->
    snd (Server.repo_create_branch_body args tr)
    = tr ++ [git_getter; update sourceCommitId])
   /\ (convertible branchName = false ->
       exists message,
         Server.repo_create_branch_body args tr
         = (Throw (ErrorObj message), tr ++ [git_getter])))
  /\ (truthy sourceCommitId = false ->
      convertible sourceBranchName = false ->
      exists message,
        Server.repo_create_branch_body args tr
        = (Throw (ErrorObj message), tr ++ [git_getter]))
  /\ (forall refs objectId,
        truthy sourceCommitId = false ->
        convertible sourceBranchName = true ->
        service (tr ++ [git_getter]) lookup = Ret refs ->
        expr "refs.find(r => r.name === `refs/heads/${sourceBranchName}`)?.objectId"
          [refs; sourceBranchName] = Ret objectId ->
        (truthy objectId = false ->
         Server.repo_create_branch_body args tr
         = (Ret (Server.error_result
                   (JStr (js "Source branch '" ++ ToString sourceBranchName
                          ++ js "' not found"))),
            tr ++ [git_getter; lookup]))
        /\ (truthy objectId = true -> convertible branchName = true ->
            snd (Server.repo_create_branch_body args tr)
            = tr ++ [git_getter; lookup; update objectId])
        /\ (truthy objectId = true -> convertible branchName = false ->
            exists message,
              Server.repo_create_branch_body args tr
              = (Throw (ErrorObj message), tr ++ [git_getter; lookup]))).
Proof.
  intros Hgetter sourceBranchName sourceCommitId branchName lookup update.
  unfold Server.repo_create_branch_body, Server.update_ref. open_handler.
  change (mkCall (js "connection." ++ js "getGitApi") []) with git_getter.
  rewrite bind_request, Hgetter.
  fold sourceBranchName sourceCommitId branchName.
  unfold to_string, to_primitive.
  split; [|split].
  - intros ->. split; intros ->; rewrite bind_lift.
    + rewrite bind_request. fold (update sourceCommitId).
      any_answer; cbn [snd ret]; now rewrite <- app_assoc.
    + eexists. reflexivity.
  - intros -> ->. rewrite bind_lift. eexists. reflexivity.
  - intros refs objectId -> -> Hrefs Hfind.
    rewrite bind_lift, bind_request. fold lookup.
    rewrite Hrefs, bind_lift, Hfind.
    split; [|split].
    + intros ->. unfold ret. now rewrite <- app_assoc.
    + intros -> ->. rewrite bind_lift, bind_request. fold (update objectId).
      any_answer; cbn [snd ret]; now rewrite <- !app_assoc.
    + intros -> ->. rewrite bind_lift, <- app_assoc.
      eexists. reflexivity.
Qed.

Lemma create_branch_source_witness :
  @service (scripted_host (fun _ => Ret (JArr [])) (fun _ _ => Ret JUndefined))
    [] git_getter = Ret (JArr [])
  /\ Server.repo_create_branch_body
       (H := scripted_host (fun _ => Ret (JArr [])) (fun _ _ => Ret JUndefined))
       [(js "branchName", Server.str "topic")] []
     = (Ret (Server.error_result (Server.str "Source branch 'main' not found")),
        [git_getter;
         mkCall (js "gitApi.getRefs")
           [JUndefined; JUndefined; Server.str "heads/main"]]).
Proof.
  split; [reflexivity|].
  destruct (create_branch_source
              (scripted_host (fun _ => Ret (JArr [])) (fun _ _ => Ret JUndefined))
              [(js "branchName", Server.str "topic")] [] (JArr []) eq_refl)
    as (_ & _ & Hlookup).
  destruct (Hlookup (JArr []) JUndefined eq_refl eq_refl eq_refl eq_refl)
    as [Hmissing _].
  apply Hmissing. reflexivity.
Defined.

(** Removing a link that the work item does not have changes nothing: the
    work item is fetched with its relations, the error envelope is
    answered and no update is sent.  A link that is found is removed by its
    position in the relations. *)
Theorem unlink_missing_link (H : Host) (args : Args) (tr : Trace)
  (g workItem idx : JsVal) :
  let sourceId := arg args "sourceId" in
  let fetched :=
    mkCall (js "witApi.getWorkItem") [sourceId; JUndefined; JUndefined; JNum 3] in
  service tr wit_getter = Ret g ->
  service (tr ++ [wit_getter]) fetched = Ret workItem ->
  expr "(workItem.relations || []).findIndex(...)"
    [workItem; arg args "targetId"; arg args "linkType"] = Ret idx ->
  (idx = JNum (-1) ->
   Server.wit_work_item_unlink_body args tr
   = (Ret (Server.error_result (Server.str "Link not found")),
      tr ++ [wit_getter; fetched]))
  /\ (idx <> JNum (-1) ->
      snd (Server.wit_work_item_unlink_body args tr)
      = tr ++ [wit_getter; fetched;
               mkCall (js "witApi.updateWorkItem")
                 [JNull;
                  JArr [Server.obj
                          [("op", Server.str "remove");
                           ("path", JStr (js "/relations/" ++ ToString idx))]];
                  sourceId]]).
Proof.
  intros sourceId fetched Hgetter Hfetched Hidx.
  unfold Server.wit_work_item_unlink_body. open_handler.
  change (mkCall (js "connection." ++ js "getWorkItemTrackingApi") [])
    with wit_getter.
  fold sourceId. fold fetched.
  rewrite bind_request, Hgetter, bind_request, Hfetched, bind_lift, Hidx.
  split.
  - intros ->. unfold ret. now rewrite <- app_assoc.
  - intros Hfound.
    assert (Hupdate :
        snd (bind (request
                     (mkCall (js "witApi.updateWorkItem")
                        [JNull;
                         JArr [Server.obj
                                 [("op", Server.str "remove");
                                  ("path", JStr (js "/relations/" ++ ToString idx))]];
                         sourceId]))
                  (fun updated => ret (Server.text_result (JSON_stringify updated)))
                  ((tr ++ [wit_getter]) ++ [fetched]))
        = tr ++ [wit_getter; fetched;
                 mkCall (js "witApi.updateWorkItem")
                   [JNull;
                    JArr [Server.obj
                            [("op", Server.str "remove");
                             ("path", JStr (js "/relations/" ++ ToString idx))]];
                    sourceId]]).
    { rewrite bind_request.
      any_answer; cbn [snd ret]; now rewrite <- !app_assoc. }
    destruct idx as [| |b|z|s|l|fields|n]; try exact Hupdate.
    destruct z as [|p|p]; try exact Hupdate.
    destruct p; try exact Hupdate. now contradiction Hfound.
Qed.

Lemma unlink_missing_link_witness :
  (@service (scripted_host (fun _ => Ret (JObj [])) (fun _ _ => Ret (JNum (-1))))
     [] wit_getter = Ret (JObj [])
   /\ JNum (-1) = JNum (-1))
  /\ Server.wit_work_item_unlink_body
       (H := scripted_host (fun _ => Ret (JObj [])) (fun _ _ => Ret (JNum (-1))))
       [(js "sourceId", JNum 7)] []
     = (Ret (Server.error_result (Server.str "Link not found")),
        [wit_getter;
         mkCall (js "witApi.getWorkItem")
           [JNum 7; JUndefined; JUndefined; JNum 3]]).
Proof.
  split; [split; reflexivity|].
  destruct (unlink_missing_link
              (scripted_host (fun _ => Ret (JObj [])) (fun _ _ => Ret (JNum (-1))))
              [(js "sourceId", JNum 7)] [] (JObj []) (JObj []) (JNum (-1))
              eq_refl eq_refl eq_refl) as [Hmissing _].
  apply Hmissing. reflexivity.
Defined.

(** ** The wiki *)

Ltac any_branch :=
  match goal with
  | |- context [match service ?t ?c with _ => _ end] =>
      destruct (service t c) eqn:?
  | |- context [match expr ?a ?b with _ => _ end] =>
      destruct (expr a b) eqn:?
  | |- context [if truthy ?v then _ else _] =>
      destruct (truthy v) eqn:?
  end.

(** Reading the content of a wiki page asks for the page text at the path
    given, [/] when none is: a missing stream is answered by the error
    envelope and nothing is read; otherwise the text read from the stream
    is what the envelope holds, unprinted. *)
Theorem wiki_content_missing (H : Host) (args : Args) (tr : Trace)
  (g stream : JsVal) :
  let asked :=
    mkCall (js "wikiApi.getPageText")
      [arg args "project"; arg args "wikiIdentifier";
       arg_or args "path" (Server.str "/"); JUndefined; JUndefined; JBool true] in
  let getter := mkCall (js "connection.getWikiApi") [] in
  service tr getter = Ret g ->
  service (tr ++ [getter]) asked = Ret stream ->
  (truthy stream = false ->
   Server.wiki_get_page_content_body args tr
   = (Ret (Server.error_result (Server.str "No content found")),
      tr ++ [getter; asked]))
  /\ (forall content,
        truthy stream = true ->
        service (tr ++ [getter; asked])
          (mkCall (js "streamToString(stream)") [stream]) = Ret content ->
        Server.wiki_get_page_content_body args tr
        = (Ret (Server.text_result content),
           tr ++ [getter; asked;
                  mkCall (js "streamToString(stream)") [stream]])).
Proof.
  intros asked getter Hgetter Hasked.
  unfold Server.wiki_get_page_content_body. open_handler.
  change (mkCall (js "connection." ++ js "getWikiApi") []) with getter.
  fold asked.
  rewrite bind_request, Hgetter, bind_request, Hasked. split.
  - intros ->. unfold ret. now rewrite <- app_assoc.
  - intros content -> Hcontent. rewrite bind_request.
    rewrite <- app_assoc. cbn [app]. rewrite Hcontent.
    unfold ret. now rewrite <- app_assoc.
Qed.

Lemma wiki_content_missing_witness :
  (@service (example_host (fun _ => Ret JNull)) []
     (mkCall (js "connection.getWikiApi") []) = Ret JNull)
  /\ Server.wiki_get_page_content_body
       (H := example_host (fun _ => Ret JNull)) [] []
     = (Ret (Server.error_result (Server.str "No content found")),
        [mkCall (js "connection.getWikiApi") [];
         mkCall (js "wikiApi.getPageText")
           [JUndefined; JUndefined; Server.str "/"; JUndefined; JUndefined;
            JBool true]]).
Proof.
  split; [reflexivity|].
  destruct (wiki_content_missing (example_host (fun _ => Ret JNull)) [] []
              JNull JNull eq_refl eq_refl) as [Hmissing _].
  apply Hmissing. reflexivity.
Defined.

(** Writing a wiki page sends at most three requests to the service, the
    write, the read of the current version and one more write, and reads at
    most one response body; when it answers an error envelope, the text is
    the body of the first response, whatever the later ones said. *)
Theorem wiki_update_attempts (H : Host) (args : Args) (tr : Trace) :
  exists issued,
    snd (Server.wiki_create_or_update_page_body args tr) = tr ++ issued
    /\ List.length (filter is_fetch issued) <= 3
    /\ List.length (filter (fun c => negb (is_fetch c)) issued) <= 1
    /\ (forall t,
          fst (Server.wiki_create_or_update_page_body args tr)
          = Ret (Server.error_result t) ->
          exists put response,
            hd_error issued = Some put
            /\ service tr put = Ret response
            /\ last issued put = mkCall (js "response.text()") [response]
            /\ service (tr ++ removelast issued) (last issued put) = Ret t).
Proof.
  set (P := fun r : Outcome Server.Envelope * Trace =>
    exists issued,
      snd r = tr ++ issued
      /\ List.length (filter is_fetch issued) <= 3
      /\ List.length (filter (fun c => negb (is_fetch c)) issued) <= 1
      /\ (forall t,
            fst r = Ret (Server.error_result t) ->
            exists put response,
              hd_error issued = Some put
              /\ service tr put = Ret response
              /\ last issued put = mkCall (js "response.text()") [response]
              /\ service (tr ++ removelast issued) (last issued put) = Ret t)).
  change (P (Server.wiki_create_or_update_page_body args tr)).
  unfold Server.wiki_create_or_update_page_body. open_handler.
  repeat first [run_step | any_branch];
    unfold P, ret; cbn [fst snd];
    rewrite <- ?app_assoc; cbn [app].
  all: try (exists []; rewrite app_nil_r;
            split; [reflexivity|]; split; [simpl; lia|];
            split; [simpl; lia|]; intros t Ht; discriminate Ht).
  all: eexists; split; [reflexivity|];
       split; [cbn; lia|]; split; [cbn; lia|];
       intros t Ht; try discriminate Ht.
  all: injection Ht as <-;
       rewrite <- ?app_assoc in *; cbn [app] in *;
       eexists; eexists;
       split; [reflexivity|]; cbn [last removelast app];
       split; [eassumption|]; split; [reflexivity|]; eassumption.
Qed.

(** ** Test cases and their steps *)

(** Creating a test case without steps, or with the empty text, sends no
    steps field; with a text it sends the markup of the text.  Replacing
    the steps always sends a steps field, for the empty text the markup
    without a step.  Steps that are not a text make either handler throw
    before the work item is written. *)
Theorem test_case_steps (H : Host) (args : Args) (tr : Trace) (g : JsVal) :
  service tr wit_getter = Ret g ->
  let optional (k path : string) :=
    if truthy (arg args k)
    then [Server.patch "add" path (arg args k)] else [] in
  let rest :=
    optional "priority" "/fields/Microsoft.VSTS.Common.Priority"
    ++ optional "areaPath" "/fields/System.AreaPath"
    ++ optional "iterationPath" "/fields/System.IterationPath" in
  let title := Server.patch "add" "/fields/System.Title" (arg args "title") in
  let steps_field (s : jsstr) :=
    Server.patch "add" "/fields/Microsoft.VSTS.TCM.Steps"
      (JStr (Steps.convertStepsToXml s)) in
  let create (doc : list JsVal) :=
    mkCall (js "witApi.createWorkItem")
      [JObj []; JArr doc; arg args "project"; Server.str "Test Case"] in
  let update (s : jsstr) :=
    mkCall (js "witApi.updateWorkItem")
      [JObj []; JArr [steps_field s]; arg args "id"] in
  (truthy (arg args "steps") = false ->
   snd (Server.testplan_create_test_case_body args tr)
   = tr ++ [wit_getter; create (title :: rest)])
  /\ (forall s,
        arg args "steps" = JStr s -> s <> [] ->
        snd (Server.testplan_create_test_case_body args tr)
        = tr ++ [wit_getter; create (title :: steps_field s :: rest)])
  /\ (forall s,
        arg args "steps" = JStr s ->
        snd (Server.testplan_update_test_case_steps_body args tr)
        = tr ++ [wit_getter; update s])
  /\ ((forall s, arg args "steps" <> JStr s) ->
      (exists e,
         Server.testplan_update_test_case_steps_body args tr
         = (Throw e, tr ++ [wit_getter]))
      /\ (truthy (arg args "steps") = true ->
          exists e,
            Server.testplan_create_test_case_body args tr
            = (Throw e, tr ++ [wit_getter]))).
Proof.
  intros Hgetter optional rest title steps_field create update.
  unfold Server.testplan_create_test_case_body,
    Server.testplan_update_test_case_steps_body.
  open_handler.
  change (mkCall (js "connection." ++ js "getWorkItemTrackingApi") [])
    with wit_getter.
  rewrite !bind_request, Hgetter.
  split; [|split; [|split]].
  - intros ->. rewrite bind_ret, bind_request.
    any_answer; cbn [snd ret]; now rewrite <- app_assoc.
  - intros s Hs Hne. rewrite Hs.
    assert (truthy (JStr s) = true) as -> by now destruct s.
    cbn [Server.steps_markup]. cbv iota.
    rewrite bind_bind, bind_lift, bind_ret, bind_request.
    any_answer; cbn [snd ret]; now rewrite <- app_assoc.
  - intros s ->. cbn [Server.steps_markup]. rewrite bind_lift, bind_request.
    any_answer; cbn [snd ret]; now rewrite <- app_assoc.
  - intros Hother. split.
    + rewrite bind_lift.
      destruct (arg args "steps") as [| |b|z|s|l|fields|n];
        cbn [Server.steps_markup]; try (eexists; reflexivity).
      now contradiction (Hother s).
    + intros ->. rewrite bind_bind, bind_lift.
      destruct (arg args "steps") as [| |b|z|s|l|fields|n];
        cbn [Server.steps_markup];
        try (eexists; reflexivity).
      now contradiction (Hother s).
Qed.

Lemma test_case_steps_witness :
  @service (example_host (fun _ => Ret JNull)) [] wit_getter = Ret JNull
  /\ snd (Server.testplan_create_test_case_body
            (H := example_host (fun _ => Ret JNull))
            [(js "title", Server.str "Login"); (js "steps", Server.str "")] [])
     = [wit_getter;
        mkCall (js "witApi.createWorkItem")
          [JObj [];
           JArr [Server.patch "add" "/fields/System.Title" (Server.str "Login")];
           JUndefined; Server.str "Test Case"]].
Proof.
  split; [reflexivity|].
  destruct (test_case_steps (example_host (fun _ => Ret JNull))
              [(js "title", Server.str "Login"); (js "steps", Server.str "")]
              [] JNull eq_refl) as [Hnone _].
  apply Hnone. reflexivity.
Defined.

(** ** Edges of the bulk operations *)

(** An empty batch obtains the API, sends nothing else and answers the
    empty list; a batch that is neither an array nor a text throws an
    error after the API is obtained; and an entry that is [null] or missing, where the entries are
    read into, stops the loop at that entry with an exception: the entries
    before it have been sent, and nothing is sent for it or after it. *)
Theorem bulk_edges (H : Host) (t : BulkTool) (connection : Auth.WebApi)
  (args : Args) (tr : Trace) (g : JsVal) :
  service tr (getter_call t) = Ret g ->
  (arg args (bulk_field t) = JArr [] ->
   Server.handleToolCall (js (bulk_name t)) args connection tr
   = (Ret (Server.text_result (JSON_stringify (JArr []))),
      tr ++ [getter_call t]))
  /\ ((forall items, arg args (bulk_field t) <> JArr items) ->
      (forall s, arg args (bulk_field t) <> JStr s) ->
      exists message,
        Server.handleToolCall (js (bulk_name t)) args connection tr
        = (Throw (ErrorObj message), tr ++ [getter_call t]))
  /\ (forall before hole after,
        arg args (bulk_field t) = JArr (before ++ hole :: after) ->
        t <> AddChildren ->
        hole = JNull \/ hole = JUndefined ->
        forallb (item_ok t) before = true ->
        (forall k, k < List.length before ->
           exists v,
             answer_at (tr ++ [getter_call t])
               (map (item_request t connection args) before) k (Ret v)) ->
        exists message,
          Server.handleToolCall (js (bulk_name t)) args connection tr
          = (Throw (ErrorObj message),
             (tr ++ [getter_call t])
             ++ map (item_request t connection args) before)).
Proof.
  intros Hgetter. split; [|split].
  - intros Hbatch.
    now rewrite (bulk_run H t connection args [] tr g Hbatch Hgetter).
  - intros Harray Hstring. rewrite bulk_handler.
    unfold Server.bulk, Server.get_api.
    replace (mkCall _ []) with (getter_call t) by now destruct t.
    rewrite bind_request, Hgetter, bind_lift.
    destruct (arg args (bulk_field t)) as [| | | |s|items| |];
      try (eexists; reflexivity).
    + now contradiction (Hstring s).
    + now contradiction (Harray items).
  - intros before hole after Hbatch Ht Hhole Hok Hanswers.
    rewrite (bulk_run H t connection args _ tr g Hbatch Hgetter).
    rewrite for_of_app.
    destruct (for_of_all (bulk_body t connection args)
                (item_request t connection args) before) with
      (results := @nil JsVal) (tr := tr ++ [getter_call t])
      as (answers & _ & _ & ->).
    + intros item tr' Hin. apply bulk_body_request.
      rewrite forallb_forall in Hok. now apply Hok.
    + exact Hanswers.
    + cbn [Server.for_of]. unfold bind.
      destruct Hhole as [-> | ->]; destruct t;
        try (eexists; reflexivity); now contradiction Ht.
Qed.

Lemma bulk_edges_witness :
  @service (example_host (fun _ => Ret JNull)) [] (getter_call UpdateBatch)
  = Ret JNull
  /\ exists message,
       Server.handleToolCall (H := example_host (fun _ => Ret JNull))
         (js (bulk_name UpdateBatch))
         [(js "workItems", JArr [Server.obj [("id", JNum 11)]; JNull;
                                 Server.obj [("id", JNum 13)]])]
         example_connection []
       = (Throw (ErrorObj message),
          [getter_call UpdateBatch;
           mkCall (js "witApi.updateWorkItem") [JNull; JUndefined; JNum 11]]).
Proof.
  split; [reflexivity|].
  destruct (bulk_edges (example_host (fun _ => Ret JNull)) UpdateBatch
              example_connection
              [(js "workItems", JArr [Server.obj [("id", JNum 11)]; JNull;
                                      Server.obj [("id", JNum 13)]])]
              [] JNull eq_refl) as (_ & _ & Hhole).
  apply (Hhole [Server.obj [("id", JNum 11)]] JNull
               [Server.obj [("id", JNum 13)]]).
  - reflexivity.
  - discriminate.
  - now left.
  - reflexivity.
  - intros k Hk. exists JNull. reflexivity.
Defined.

(** ** Build artifacts *)

(** Without a destination path the artifact is fetched and measured and
    nothing else happens: no directory is made and no file is written,
    whatever the service answers. *)
Theorem artifact_kept_in_memory (H : Host) (args : Args) (tr : Trace) :
  truthy (arg args "destinationPath") = false ->
  exists issued,
    snd (Server.pipelines_download_artifact_body args tr) = tr ++ issued
    /\ List.length issued <= 3
    /\ forall c,
         In c issued ->
         In (target c)
           (map js ["connection.getBuildApi";
                    "buildApi.getArtifactContentZip";
                    "Buffer.concat(chunks).length"]).
Proof.
  intros Hpath.
  unfold Server.pipelines_download_artifact_body. open_handler.
  rewrite Hpath.
  repeat first [run_step | any_branch];
    unfold ret; cbn [fst snd]; rewrite <- ?app_assoc; cbn [app];
    (eexists; split; [reflexivity|]; split; [simpl; lia|]);
    intros c Hc; cbn [In] in Hc;
    repeat (destruct Hc as [<- | Hc]; [vm_compute; tauto|]);
    contradiction.
Qed.

Lemma artifact_kept_in_memory_witness :
  truthy (arg [(js "artifactName", Server.str "drop")] "destinationPath") = false
  /\ exists issued,
       snd (Server.pipelines_download_artifact_body
              (H := example_host (fun _ => Ret (JNum 2048)))
              [(js "artifactName", Server.str "drop")] [])
       = [] ++ issued
       /\ List.length issued <= 3.
Proof.
  split; [reflexivity|].
  destruct (artifact_kept_in_memory (example_host (fun _ => Ret (JNum 2048)))
              [(js "artifactName", Server.str "drop")] [] eq_refl)
    as (issued & Hissued & Hlen & _).
  exists issued. split; [exact Hissued|exact Hlen].
Defined.

(** ** Status codes with a default *)

Ltac same_or_other :=
  match goal with
  | |- context [JsString.eqb ?key ?k] =>
      let E := fresh "E" in
      destruct (JsString.eqb key k) eqn:E;
      [apply eqb_eq in E; subst key|]
  end.

Ltac not_that_key :=
  match goal with
  | E : JsString.eqb ?k ?k = false |- _ => rewrite eqb_refl in E; discriminate E
  end.

(** The pull-request listing looks its status up as a property key.  A
    status that has a key, as every text, number and object without a
    [toString] of its own has, sends a code that is never 0 and never
    missing: 2, 3 or 4 exactly for the names [Abandoned], [Completed] and
    [All], spelled so; the inherited member for a name that every object
    inherits ([constructor], [toString], ...); and 1 for every other
    value, [NotSet] and [Active] among them.  A status that has no key
    makes the lookup throw, and no code is sent. *)
Theorem listing_status_sent (H : Host) (status : JsVal) :
  let key := Server.property_key status in
  let code := Server.list_status_code status in
  (convertible status = true ->
   Server.list_status status = Ret code
   /\ (code = JNum 2 <-> key = js "Abandoned")
   /\ (code = JNum 3 <-> key = js "Completed")
   /\ (code = JNum 4 <-> key = js "All")
   /\ (code = JNative key <-> In key object_prototype_members)
   /\ (code = JNum 1 <->
       ~ In key (map js ["Abandoned"; "Completed"; "All"])
       /\ ~ In key object_prototype_members)
   /\ code <> JNum 0 /\ code <> JUndefined /\ truthy code = true)
  /\ (convertible status = false ->
      exists message, Server.list_status status = Throw (ErrorObj message)).
Proof.
  cbv zeta. unfold Server.list_status, Server.keyed, to_primitive.
  split; intros ->; [split; [reflexivity|]|eexists; reflexivity].
  unfold Server.list_status_code, Server.index.
  generalize (Server.property_key status). intros key.
  unfold table_lookup, Server.pull_request_statusMap. cbn [own_number].
  repeat same_or_other;
    try (vm_compute; intuition (try discriminate; try congruence); fail).
  destruct (existsb (JsString.eqb key) object_prototype_members) eqn:Hproto.
  - apply existsb_eqb_In in Hproto. cbn [js_or truthy]. cbv iota.
    repeat split; try discriminate; try tauto;
      try (intros ->; not_that_key).
  - assert (~ In key object_prototype_members) as Hnot.
    { intros Hin. apply not_true_iff_false in Hproto. apply Hproto.
      apply existsb_exists. exists key. split; [exact Hin|apply eqb_refl]. }
    cbn [js_or truthy]. cbv iota.
    repeat split; try discriminate; try tauto;
      try (intros ->; not_that_key).
    intros [<- | [<- | [<- | []]]]; not_that_key.
Qed.

(** The status of a new comment thread is looked up the same way: for a
    status that has a key the code is 2, 3, 4 or 6 exactly for [fixed],
    [wontFix], [closed] and [pending], an inherited member for its name,
    and 1 for everything else, so a new thread never has status 0 or none;
    a status that has no key makes the lookup throw. *)
Theorem new_thread_status_sent (H : Host) (status : JsVal) :
  let key := Server.property_key status in
  let code := Server.new_thread_status_code status in
  (convertible status = true ->
   Server.new_thread_status status = Ret code
   /\ (code = JNum 2 <-> key = js "fixed")
   /\ (code = JNum 3 <-> key = js "wontFix")
   /\ (code = JNum 4 <-> key = js "closed")
   /\ (code = JNum 6 <-> key = js "pending")
   /\ (code = JNative key <-> In key object_prototype_members)
   /\ (code = JNum 1 <->
       ~ In key (map js ["fixed"; "wontFix"; "closed"; "pending"])
       /\ ~ In key object_prototype_members)
   /\ code <> JNum 0 /\ code <> JUndefined /\ truthy code = true)
  /\ (convertible status = false ->
      exists message,
        Server.new_thread_status status = Throw (ErrorObj message)).
Proof.
  cbv zeta. unfold Server.new_thread_status, Server.keyed, to_primitive.
  split; intros ->; [split; [reflexivity|]|eexists; reflexivity].
  unfold Server.new_thread_status_code, Server.index.
  generalize (Server.property_key status). intros key.
  unfold table_lookup, Server.thread_statusMap. cbn [own_number].
  repeat same_or_other;
    try (vm_compute; intuition (try discriminate; try congruence); fail).
  destruct (existsb (JsString.eqb key) object_prototype_members) eqn:Hproto.
  - apply existsb_eqb_In in Hproto. cbn [js_or truthy]. cbv iota.
    repeat split; try discriminate; try tauto;
      try (intros ->; not_that_key).
  - assert (~ In key object_prototype_members) as Hnot.
    { intros Hin. apply not_true_iff_false in Hproto. apply Hproto.
      apply existsb_exists. exists key. split; [exact Hin|apply eqb_refl]. }
    cbn [js_or truthy]. cbv iota.
    repeat split; try discriminate; try tauto;
      try (intros ->; not_that_key).
    intros [<- | [<- | [<- | [<- | []]]]]; not_that_key.
Qed.

(** ** Searching commits *)

Lemma fielded_keeps (H : Host) (field : string) (f : jsstr) (item : JsVal) :
  fielded field item = true ->
  Server.filterable field f item = true
  /\ Server.keeps field f item = field_has field f item.
Proof.
  unfold fielded, Server.filterable, Server.keeps, Server.field_contains,
    field_has.
  destruct item as [| | | | |items|fields|]; try discriminate.
  destruct (assoc (js field) fields) as [[| | | |n| | |]|];
    try discriminate; intros _; split; try reflexivity.
  now destruct (includes (toLowerCase n) (toLowerCase f)).
Qed.

Lemma filter_by_field (H : Host) (source field : string) (f : jsstr)
  (items : list JsVal) :
  forallb (fielded field) items = true -> f <> [] ->
  Server.filter_by source field (JStr f) (JArr items)
  = Ret (JArr (filter (field_has field f) items)).
Proof.
  intros Hitems Hf. unfold Server.filter_by.
  destruct f as [|u f]; [congruence|]. cbn [truthy].
  rewrite forallb_forall in Hitems.
  assert (forallb (Server.filterable field (u :: f)) items = true) as ->.
  { apply forallb_forall. intros item Hin.
    now apply (fielded_keeps H field (u :: f) item), Hitems. }
  f_equal. f_equal. apply filter_ext_in.
  intros item Hin. now apply (fielded_keeps H field (u :: f) item), Hitems.
Qed.

(** The commit search asks the service for at most [top] commits, 100
    unless the caller says otherwise, and narrows by author and dates only
    when they are given and not empty; the search text is applied
    afterwards, to the commits that were fetched: those whose comment
    contains it, both in lower case, are returned in their order, and all
    of them when no text or an empty one is given. *)
Theorem commit_search (H : Host) (args : Args) (tr : Trace)
  (items : list JsVal) (g : JsVal) :
  forallb (fielded "comment") items = true ->
  service tr git_getter = Ret g ->
  service (tr ++ [git_getter]) (commits_call args) = Ret (JArr items) ->
  (forall f,
     arg args "searchText" = JStr f -> f <> [] ->
     Server.repo_search_commits_body args tr
     = (Ret (Server.text_result
               (JSON_stringify (JArr (filter (field_has "comment" f) items)))),
        tr ++ [git_getter; commits_call args]))
  /\ (arg args "searchText" = JUndefined \/ arg args "searchText" = JStr [] ->
      Server.repo_search_commits_body args tr
      = (Ret (Server.text_result (JSON_stringify (JArr items))),
         tr ++ [git_getter; commits_call args]))
  /\ (exists fields,
        commit_criteria args = JObj fields
        /\ assoc (js "$top") fields = Some (arg_or args "top" (JNum 100))
        /\ forall k,
             In k ["author"; "fromDate"; "toDate"]%string ->
             assoc (js k) fields
             = if truthy (arg args k) then Some (arg args k) else None).
Proof.
  intros Hitems Hgetter Hcommits.
  assert (Hrun :
    forall shown,
      Server.filter_by "commits.filter(...)" "comment"
        (arg args "searchText") (JArr items) = Ret shown ->
      Server.repo_search_commits_body args tr
      = (Ret (Server.text_result (JSON_stringify shown)),
         tr ++ [git_getter; commits_call args])).
  { intros shown Hshown.
    unfold Server.repo_search_commits_body. open_handler.
    change (mkCall (js "connection." ++ js "getGitApi") []) with git_getter.
    rewrite bind_request, Hgetter.
    change (mkCall (js "gitApi.getCommits") _) with (commits_call args).
    rewrite bind_request, Hcommits, bind_lift, Hshown.
    unfold ret. now rewrite <- app_assoc. }
  split; [|split].
  - intros f Hf Hne. apply Hrun. rewrite Hf. now apply filter_by_field.
  - intros [Hnone | Hnone]; apply Hrun; now rewrite Hnone.
  - eexists. split; [reflexivity|].
    unfold Server.when.
    destruct (truthy (arg args "author")) eqn:Hauthor,
             (truthy (arg args "fromDate")) eqn:Hfrom,
             (truthy (arg args "toDate")) eqn:Hto;
      (split; [reflexivity|]);
      intros k [<- | [<- | [<- | []]]];
      rewrite ?Hauthor, ?Hfrom, ?Hto; reflexivity.
Qed.

Lemma commit_search_witness :
  (forallb (fielded "comment")
     [Server.obj [("comment", Server.str "Fix login")];
      Server.obj [("commitId", Server.str "abc")];
      Server.obj [("comment", Server.str "Add logout")]] = true
   /\ @service
        (example_host
           (fun _ =>
              Ret (JArr [Server.obj [("comment", Server.str "Fix login")];
                         Server.obj [("commitId", Server.str "abc")];
                         Server.obj [("comment", Server.str "Add logout")]])))
        [] git_getter
      = Ret (JArr [Server.obj [("comment", Server.str "Fix login")];
                   Server.obj [("commitId", Server.str "abc")];
                   Server.obj [("comment", Server.str "Add logout")]]))
  /\ Server.repo_search_commits_body
       (H := example_host
               (fun _ =>
                  Ret (JArr [Server.obj [("comment", Server.str "Fix login")];
                             Server.obj [("commitId", Server.str "abc")];
                             Server.obj [("comment", Server.str "Add logout")]])))
       [(js "searchText", Server.str "LOG")] []
     = (Ret (Server.text_result
               (JArr [Server.obj [("comment", Server.str "Fix login")];
                      Server.obj [("comment", Server.str "Add logout")]])),
        [git_getter; commits_call [(js "searchText", Server.str "LOG")]]).
Proof.
  split; [split; reflexivity|].
  destruct (commit_search
              (example_host
                 (fun _ =>
                    Ret (JArr [Server.obj [("comment", Server.str "Fix login")];
                               Server.obj [("commitId", Server.str "abc")];
                               Server.obj [("comment", Server.str "Add logout")]])))
              [(js "searchText", Server.str "LOG")] []
              [Server.obj [("comment", Server.str "Fix login")];
               Server.obj [("commitId", Server.str "abc")];
               Server.obj [("comment", Server.str "Add logout")]]
              (JArr [Server.obj [("comment", Server.str "Fix login")];
                     Server.obj [("commitId", Server.str "abc")];
                     Server.obj [("comment", Server.str "Add logout")]])
              eq_refl eq_refl eq_refl) as [Hfound _].
  apply (Hfound (js "LOG")); [reflexivity|discriminate].
Defined.

(** ** The configuration and the authorization header *)

(** [createServer] and [createPatClient] check the same two fields: a
    configuration is accepted by the one exactly when the other makes a
    client for it, which then carries the organisation URL as given; when
    both fields are empty the two name different fields, the server the
    URL and the client the token. *)
Theorem configuration_checks (config : Auth.AuthConfig) (c : Auth.ClientState) :
  (Server.createServer config = Ret config
   <-> Auth.organizationUrl config <> [] /\ Auth.personalAccessToken config <> [])
  /\ (Server.createServer config = Ret config
      <-> exists w, fst (Auth.createPatClient config c) = Ret w)
  /\ (forall w,
        fst (Auth.createPatClient config c) = Ret w ->
        Auth.serverUrl w = Auth.organizationUrl config
        /\ Auth.webapi_id w = Auth.webapis c
        /\ Auth.webapis (snd (Auth.createPatClient config c))
           = S (Auth.webapis c))
  /\ (forall e,
        fst (Auth.createPatClient config c) = Throw e ->
        Auth.webapis (snd (Auth.createPatClient config c)) = Auth.webapis c
        /\ exists e', Server.createServer config = Throw e')
  /\ (Auth.organizationUrl config = [] ->
      Auth.personalAccessToken config = [] ->
      Server.createServer config
      = Throw (ErrorObj (js "Organization URL is required"))
      /\ fst (Auth.createPatClient config c)
         = Throw (ErrorObj
                    (js "Personal Access Token is required for authentication"))).
Proof.
  unfold Server.createServer, Auth.createPatClient.
  destruct config as [url pat]. cbn [Auth.organizationUrl Auth.personalAccessToken].
  destruct url as [|u url], pat as [|p pat]; cbn [fst snd].
  all: split;
    [split; [first [discriminate | intros _; split; discriminate]
            |intros [Hu Hp]; congruence]|].
  all: split;
    [split; [first [discriminate | intros _; eexists; reflexivity]
            |intros [w Hw]; first [discriminate Hw | reflexivity]]|].
  all: split;
    [intros w Hw;
     first [discriminate Hw | injection Hw as <-; repeat split]|].
  all: split;
    [intros e He;
     first [discriminate He
           | split; [reflexivity|eexists; reflexivity]]|].
  all: intros Hu Hp; first [discriminate | split; reflexivity].
Qed.

Lemma encode_length (bs : list Byte.byte) :
  List.length (Base64.encode bs) = 4 * ((List.length bs + 2) / 3).
Proof.
  induction bs as [|a|a b|a b c l IH] using list_ind3; try reflexivity.
  cbn [Base64.encode List.length app]. rewrite IH.
  replace (S (S (S (List.length l))) + 2) with (1 * 3 + (List.length l + 2))
    by lia.
  rewrite Nat.div_add_l by lia. lia.
Qed.

Lemma digit_in_alphabet (n : N) :
  (n < 64)%N -> In (Base64.digit n) Base64.alphabet.
Proof.
  intros Hn. unfold Base64.digit. apply nth_In.
  change (List.length Base64.alphabet) with 64. lia.
Qed.

Lemma encode_characters (bs : list Byte.byte) (c : N) :
  In c (Base64.encode bs) -> In c Base64.alphabet \/ c = Base64.pad.
Proof.
  induction bs as [|a|a b|x y z l IH] using list_ind3.
  - intros [].
  - pose proof (regroup _ _ _ (byte_bound a) (byte_bound a) (byte_bound a))
      as (G1 & _ & _ & _ & G5 & _).
    cbn [Base64.encode].
    intros [<- | [<- | [<- | [<- | []]]]]; auto using digit_in_alphabet.
  - pose proof (regroup _ _ _ (byte_bound a) (byte_bound b) (byte_bound b))
      as (G1 & G2 & _ & _ & _ & G6 & _).
    cbn [Base64.encode].
    intros [<- | [<- | [<- | [<- | []]]]]; auto using digit_in_alphabet.
  - pose proof (regroup _ _ _ (byte_bound x) (byte_bound y) (byte_bound z))
      as (G1 & G2 & G3 & G4 & _).
    cbn [Base64.encode app].
    intros [<- | [<- | [<- | [<- | Hrest]]]]; auto using digit_in_alphabet.
Qed.

(** The header is [Basic ] followed by four characters for every three
    bytes of the colon and the token, the last group filled up; the
    characters are those of the base64 alphabet and the padding sign, so
    none needs quoting in a header; and two tokens give the same header
    only when their bytes are the same. *)
Theorem auth_header_shape (H : Host) (pat other : jsstr) :
  List.length (Auth.getPatAuthHeader pat)
  = 6 + 4 * ((List.length (Buffer_from (js ":" ++ pat)) + 2) / 3)
  /\ firstn 6 (Auth.getPatAuthHeader pat) = js "Basic "
  /\ (forall c,
        In c (skipn 6 (Auth.getPatAuthHeader pat)) ->
        In c Base64.alphabet \/ c = Base64.pad)
  /\ (Auth.getPatAuthHeader pat = Auth.getPatAuthHeader other ->
      Buffer_from (js ":" ++ pat) = Buffer_from (js ":" ++ other)).
Proof.
  unfold Auth.getPatAuthHeader. cbv zeta.
  split; [|split; [|split]].
  - rewrite length_app, encode_length. reflexivity.
  - reflexivity.
  - intros c. change (skipn 6 (js "Basic " ++ ?x)) with x.
    apply encode_characters.
  - intros Hsame. apply app_inv_head in Hsame.
    apply (f_equal Base64.decode) in Hsame.
    rewrite !decode_encode in Hsame. congruence.
Qed.

(** ** The helpers of [src/utils/index.ts] *)

Lemma eqb_false (a b : jsstr) : a <> b -> JsString.eqb a b = false.
Proof.
  intros Hab. destruct (JsString.eqb a b) eqn:E; [|reflexivity].
  apply eqb_eq in E. contradiction.
Qed.

Lemma digit_not_ws (c : N) : is_digit c = true -> is_ws c = false.
Proof.
  unfold is_digit. intros Hc. apply andb_true_iff in Hc as [Hlo Hhi].
  apply N.leb_le in Hlo, Hhi.
  unfold is_ws, is_line_terminator. cbn [existsb].
  repeat match goal with
         | |- context [N.eqb c ?k] =>
             replace (N.eqb c k) with false
               by (symmetry; apply N.eqb_neq; lia)
         end.
  replace (N.leb 8192 c) with false by (symmetry; apply N.leb_gt; lia).
  reflexivity.
Qed.

Lemma drop_while_stopped (p : N -> bool) (s : jsstr) :
  stops p s -> drop_while p s = s.
Proof. destruct s as [|c s]; simpl; [reflexivity|]. now intros ->. Qed.

Lemma trim_fixed (s : jsstr) :
  stops is_ws s -> stops is_ws (rev s) -> trim s = s.
Proof.
  intros Hhead Hlast. unfold trim, trim_start, trim_end.
  rewrite (drop_while_stopped _ _ Hhead), (drop_while_stopped _ _ Hlast).
  apply rev_involutive.
Qed.

Lemma digits_stop (s : jsstr) : forallb is_digit s = true -> stops is_ws s.
Proof.
  destruct s as [|c s]; simpl; [trivial|].
  intros Hs. apply andb_true_iff in Hs as [Hc _]. now apply digit_not_ws.
Qed.

Lemma span_all (p : N -> bool) (s : jsstr) :
  forallb p s = true -> Numeric.span p s = (s, []).
Proof.
  induction s as [|c s IH]; simpl; [reflexivity|].
  intros Hs. apply andb_true_iff in Hs as [-> Hs]. now rewrite IH.
Qed.

Lemma digits_numeric (s : jsstr) :
  forallb is_digit s = true -> Numeric.is_numeric s = true.
Proof.
  intros Hs. unfold Numeric.is_numeric.
  rewrite trim_fixed.
  - destruct s as [|c s]; [reflexivity|].
    apply orb_true_iff. right.
    pose proof Hs as Hall. cbn [forallb] in Hs.
    apply andb_true_iff in Hs as [Hc _].
    unfold Numeric.decimal.
    assert (N.eqb c 43 || N.eqb c 45 = false) as ->.
    { unfold is_digit in Hc. apply andb_true_iff in Hc as [Hlo Hhi].
      apply N.leb_le in Hlo, Hhi. apply orb_false_iff.
      split; apply N.eqb_neq; lia. }
    unfold Numeric.unsigned_decimal.
    rewrite eqb_false.
    + now rewrite (span_all _ _ Hall).
    + intros Heq. apply (f_equal (hd 0%N)) in Heq. vm_compute in Heq.
      subst c. discriminate Hc.
  - now apply digits_stop.
  - apply digits_stop. apply forallb_forall. intros c Hc.
    apply in_rev in Hc. rewrite forallb_forall in Hs. now apply Hs.
Qed.

Lemma uint_digits (d : Decimal.uint) : forallb is_digit (uint_units d) = true.
Proof. induction d; simpl; auto. Qed.

Lemma of_nat_numeric (n : nat) :
  of_nat n <> [] /\ Numeric.is_numeric (of_nat n) = true.
Proof.
  split.
  - unfold of_nat.
    assert (Nat.to_uint n <> Decimal.Nil) as Hn.
    { rewrite <- (DecimalNat.Unsigned.of_to n) at 1.
      rewrite DecimalNat.Unsigned.to_of. apply DecimalFacts.unorm_nonnil. }
    destruct (Nat.to_uint n); [congruence| | | | | | | | | |]; discriminate.
  - apply digits_numeric, uint_digits.
Qed.

Lemma valid_key_In (enumObject : Utils.EnumObject) (key : jsstr) :
  Utils.includes_key (Utils.getEnumKeys enumObject) (JStr key) = true
  <-> In key (map fst enumObject) /\ Numeric.is_numeric key = false.
Proof.
  unfold Utils.includes_key, Utils.getEnumKeys. split.
  - intros Hkey. apply existsb_eqb_In in Hkey.
    apply filter_In in Hkey as [Hin Hnum].
    split; [exact Hin|]. now apply negb_true_iff.
  - intros [Hin Hnum]. apply existsb_exists. exists key.
    split; [|apply eqb_refl].
    apply filter_In. split; [exact Hin|]. now apply negb_true_iff.
Qed.

Lemma assoc_In (key : jsstr) (fields : list (jsstr * JsVal)) (v : JsVal) :
  assoc key fields = Some v -> In (key, v) fields.
Proof.
  induction fields as [|[k w] rest IH]; simpl; [discriminate|].
  destruct (JsString.eqb key k) eqn:E.
  - apply eqb_eq in E. subst k. intros [= ->]. now left.
  - intros Hv. right. auto.
Qed.

Lemma assoc_NoDup (key : jsstr) (fields : list (jsstr * JsVal)) (v : JsVal) :
  NoDup (map fst fields) -> In (key, v) fields -> assoc key fields = Some v.
Proof.
  induction fields as [|[k w] rest IH]; simpl; [tauto|].
  intros Hnd Hin. inversion Hnd as [|? ? Hk Hrest]; subst.
  destruct Hin as [[= -> ->]|Hin].
  - now rewrite eqb_refl.
  - rewrite eqb_false; [auto|].
    intros ->. apply Hk. apply in_map_iff. now exists (k, v).
Qed.

(** The names of an enum are its keys that do not read as a number, in
    their order.  [safeEnumConvert] answers only for such a name that the
    enum has itself, with what the enum holds under it: a key that reads
    as a number, the reverse keys of a numeric enum among them, a name
    the enum only inherits, a key that is no string and a missing key all
    give [undefined]. *)
Theorem safe_enum_convert (enumObject : Utils.EnumObject) :
  (forall key,
     In key (Utils.getEnumKeys enumObject)
     <-> In key (map fst enumObject) /\ Numeric.is_numeric key = false)
  /\ (forall key v,
        Utils.safeEnumConvert enumObject key = v -> v <> JUndefined ->
        exists name,
          key = JStr name /\ In (name, v) enumObject
          /\ Numeric.is_numeric name = false)
  /\ (forall name v,
        NoDup (map fst enumObject) -> In (name, v) enumObject ->
        Numeric.is_numeric name = false ->
        Utils.safeEnumConvert enumObject (JStr name) = v)
  /\ (forall n, Utils.safeEnumConvert enumObject (JStr (of_nat n)) = JUndefined)
  /\ (forall members,
        enumObject = numeric_enum members ->
        forallb (fun m => negb (Numeric.is_numeric (fst m))) members = true ->
        Utils.getEnumKeys enumObject = map fst members).
Proof.
  split; [|split; [|split; [|split]]].
  - intros key. unfold Utils.getEnumKeys. rewrite filter_In.
    now rewrite negb_true_iff.
  - intros key v Hv Hdef. unfold Utils.safeEnumConvert in Hv.
    destruct (truthy key); [|congruence].
    destruct (Utils.includes_key (Utils.getEnumKeys enumObject) key) eqn:Hkey;
      [|congruence].
    destruct key as [| | | |name| | |]; try congruence.
    apply valid_key_In in Hkey as [_ Hnum].
    destruct (assoc name enumObject) as [w|] eqn:Hw; [|congruence].
    subst w. exists name. split; [reflexivity|]. split; [|exact Hnum].
    now apply assoc_In.
  - intros name v Hnd Hin Hnum. unfold Utils.safeEnumConvert.
    assert (truthy (JStr name) = true) as ->.
    { destruct name; [discriminate Hnum|reflexivity]. }
    assert (Utils.includes_key (Utils.getEnumKeys enumObject) (JStr name)
            = true) as ->.
    { apply valid_key_In. split; [|exact Hnum].
      apply in_map_iff. now exists (name, v). }
    now rewrite (assoc_NoDup _ _ _ Hnd Hin).
  - intros n. unfold Utils.safeEnumConvert.
    destruct (truthy (JStr (of_nat n))); [|reflexivity].
    destruct (Utils.includes_key (Utils.getEnumKeys enumObject)
                (JStr (of_nat n))) eqn:Hkey; [|reflexivity].
    apply valid_key_In in Hkey as [_ Hnum].
    now rewrite (proj2 (of_nat_numeric n)) in Hnum.
  - intros members -> Hnames. unfold Utils.getEnumKeys, numeric_enum.
    rewrite map_app, !map_map, filter_app. cbn [fst].
    assert (filter (fun key => negb (Numeric.is_numeric key))
              (map (fun m : jsstr * nat => of_nat (snd m)) members) = []) as ->.
    { induction members as [|m members IH]; [reflexivity|].
      cbn [map filter forallb] in *.
      apply andb_true_iff in Hnames as [_ Hnames].
      rewrite (proj2 (of_nat_numeric (snd m))). cbn [negb]. auto. }
    cbn [app].
    induction members as [|m members IH]; [reflexivity|].
    cbn [map filter forallb] in *.
    apply andb_true_iff in Hnames as [-> Hnames]. f_equal. auto.
Qed.

Section EnumMapping.

Context {H : Host}.

Lemma createEnumMapping_snoc (enumObject : Utils.EnumObject) (k : jsstr)
  (x : JsVal) :
  Utils.createEnumMapping (enumObject ++ [(k, x)])
  = match x with
    | JNum v => Utils.assign (toLowerCase k) v (Utils.createEnumMapping enumObject)
    | _ => Utils.createEnumMapping enumObject
    end.
Proof. unfold Utils.createEnumMapping. now rewrite fold_left_app. Qed.

Lemma own_assign (key k : jsstr) (v : Z) (mapping : Utils.Mapping) :
  Utils.own key (Utils.assign k v mapping)
  = if JsString.eqb k (js "__proto__") then Utils.own key mapping
    else if JsString.eqb key k then Some v
    else Utils.own key mapping.
Proof. unfold Utils.assign. now destruct (JsString.eqb k (js "__proto__")). Qed.

Lemma own_missing (key : jsstr) (enumObject : Utils.EnumObject) :
  (forall k v, In (k, JNum v) enumObject -> toLowerCase k <> key) ->
  Utils.own key (Utils.createEnumMapping enumObject) = None.
Proof.
  induction enumObject as [|[k x] rest IH] using rev_ind; intros Hother.
  - reflexivity.
  - rewrite createEnumMapping_snoc.
    assert (Hrest : Utils.own key (Utils.createEnumMapping rest) = None).
    { apply IH. intros k' v' Hin. apply (Hother k' v').
      apply in_or_app. now left. }
    destruct x; try exact Hrest.
    rewrite own_assign.
    destruct (JsString.eqb (toLowerCase k) (js "__proto__")); [exact Hrest|].
    rewrite eqb_false; [exact Hrest|].
    intros ->. apply (Hother k z); [|reflexivity].
    apply in_or_app. right. now left.
Qed.

Lemma own_found (key : jsstr) (before : Utils.EnumObject) (k : jsstr) (v : Z)
  (after : Utils.EnumObject) :
  toLowerCase k = key -> key <> js "__proto__" ->
  (forall k' v', In (k', JNum v') after -> toLowerCase k' <> key) ->
  Utils.own key (Utils.createEnumMapping (before ++ (k, JNum v) :: after))
  = Some v.
Proof.
  intros Hk Hproto.
  induction after as [|[k' x] rest IH] using rev_ind; intros Hlater.
  - rewrite createEnumMapping_snoc, own_assign, Hk.
    now rewrite (eqb_false _ _ Hproto), eqb_refl.
  - rewrite app_comm_cons, app_assoc, createEnumMapping_snoc.
    assert (Hrest :
      Utils.own key (Utils.createEnumMapping (before ++ (k, JNum v) :: rest))
      = Some v).
    { apply IH. intros k'' v'' Hin. apply (Hlater k'' v'').
      apply in_or_app. now left. }
    destruct x; try exact Hrest.
    rewrite own_assign.
    destruct (JsString.eqb (toLowerCase k') (js "__proto__")); [exact Hrest|].
    rewrite eqb_false; [exact Hrest|].
    intros ->. apply (Hlater k' z); [|reflexivity].
    apply in_or_app. right. now left.
Qed.

Lemma own_value (key : jsstr) (enumObject : Utils.EnumObject) (v : Z) :
  Utils.own key (Utils.createEnumMapping enumObject) = Some v ->
  exists k, In (k, JNum v) enumObject /\ toLowerCase k = key.
Proof.
  induction enumObject as [|[k x] rest IH] using rev_ind.
  - discriminate.
  - rewrite createEnumMapping_snoc. intros Hv.
    assert (Hrest :
      Utils.own key (Utils.createEnumMapping rest) = Some v ->
      exists k0, In (k0, JNum v) (rest ++ [(k, x)]) /\ toLowerCase k0 = key).
    { intros Hr. destruct (IH Hr) as (k0 & Hin & Hk0).
      exists k0. split; [apply in_or_app; now left|exact Hk0]. }
    destruct x; auto.
    rewrite own_assign in Hv.
    destruct (JsString.eqb (toLowerCase k) (js "__proto__")); auto.
    destruct (JsString.eqb key (toLowerCase k)) eqn:E; auto.
    apply eqb_eq in E. injection Hv as ->.
    exists k. split; [apply in_or_app; right; now left|now symmetry].
Qed.

Lemma mapStringToEnum_string (s : jsstr) (enumObject : Utils.EnumObject)
  (defaultValue : JsVal) :
  exists r,
    Utils.mapStringToEnum (JStr s) enumObject defaultValue = Ret r
    /\ (r = defaultValue
        \/ (exists k v, r = JNum v /\ In (k, JNum v) enumObject
                        /\ toLowerCase k = toLowerCase s)
        \/ (r = JNative (toLowerCase s)
            /\ In (toLowerCase s) object_prototype_members)).
Proof.
  unfold Utils.mapStringToEnum.
  destruct (truthy (JStr s)); [|eexists; split; [reflexivity|now left]].
  cbv zeta. unfold Utils.mapping_get.
  destruct (Utils.own (toLowerCase s) (Utils.createEnumMapping enumObject))
    as [v|] eqn:Hown.
  - eexists. split; [reflexivity|]. right. left.
    destruct (own_value _ _ _ Hown) as (k & Hin & Hk).
    now exists k, v.
  - destruct (existsb (JsString.eqb (toLowerCase s)) object_prototype_members)
      eqn:Hproto.
    + eexists. split; [reflexivity|]. right. right.
      split; [reflexivity|]. now apply existsb_eqb_In.
    + eexists. split; [reflexivity|]. now left.
Qed.

End EnumMapping.

(** A name is looked up in an enum without regard to case: it gives the
    number of the member whose name is the same in lower case, the last
    such member when there are several, also when that number is 0; a text
    with no such member gives the default, unless it names a member every
    object inherits.  An empty or missing value gives the default, and a
    text never makes the lookup throw. *)
Theorem enum_lookup_ignores_case (H : Host) (enumObject : Utils.EnumObject)
  (defaultValue : JsVal) :
  (forall before k v after s,
     enumObject = before ++ (k, JNum v) :: after ->
     s <> [] -> toLowerCase s = toLowerCase k ->
     toLowerCase k <> js "__proto__" ->
     (forall k' v', In (k', JNum v') after -> toLowerCase k' <> toLowerCase k) ->
     Utils.mapStringToEnum (JStr s) enumObject defaultValue = Ret (JNum v))
  /\ (forall s,
        (forall k v, In (k, JNum v) enumObject -> toLowerCase k <> toLowerCase s) ->
        ~ In (toLowerCase s) object_prototype_members ->
        Utils.mapStringToEnum (JStr s) enumObject defaultValue = Ret defaultValue)
  /\ (forall value,
        truthy value = false ->
        Utils.mapStringToEnum value enumObject defaultValue = Ret defaultValue)
  /\ (forall s,
        exists r,
          Utils.mapStringToEnum (JStr s) enumObject defaultValue = Ret r
          /\ (r = defaultValue
              \/ (exists k v, r = JNum v /\ In (k, JNum v) enumObject
                              /\ toLowerCase k = toLowerCase s)
              \/ (r = JNative (toLowerCase s)
                  /\ In (toLowerCase s) object_prototype_members))).
Proof.
  split; [|split; [|split]].
  - intros before k v after s -> Hs Hcase Hproto Hlater.
    unfold Utils.mapStringToEnum.
    assert (truthy (JStr s) = true) as -> by now destruct s.
    cbv zeta. unfold Utils.mapping_get.
    rewrite (own_found (toLowerCase s) before k v after); try congruence.
    + reflexivity.
    + intros k' v' Hin. rewrite Hcase. now apply (Hlater k' v').
  - intros s Hnone Hproto. unfold Utils.mapStringToEnum.
    destruct (truthy (JStr s)); [|reflexivity].
    cbv zeta. unfold Utils.mapping_get.
    rewrite (own_missing (toLowerCase s) enumObject Hnone).
    destruct (existsb (JsString.eqb (toLowerCase s)) object_prototype_members)
      eqn:Hin; [|reflexivity].
    apply existsb_eqb_In in Hin. contradiction.
  - intros value Hvalue. unfold Utils.mapStringToEnum. now rewrite Hvalue.
  - intros s. apply mapStringToEnum_string.
Qed.

Section EnumArray.

Context {H : Host}.

Variable enumObject : Utils.EnumObject.

Lemma lookup_ok (value : JsVal) :
  is_text value || negb (truthy value) = true ->
  exists r, lookup enumObject value = Ret r /\ (r = JUndefined \/ of_enum enumObject r).
Proof.
  intros Hvalue. destruct (truthy value) eqn:Htruthy.
  - rewrite orb_false_r in Hvalue.
    destruct value as [| | | |s| | |]; try discriminate Hvalue.
    destruct (mapStringToEnum_string s enumObject JUndefined)
      as (r & Hr & [Hd | [(k & v & -> & Hin & _) | [-> Hin]]]).
    + exists r. split; [exact Hr|now left].
    + exists (JNum v). split; [exact Hr|]. right. left. now exists k, v.
    + eexists. split; [exact Hr|]. right. right. eexists. now split.
  - exists JUndefined. split; [|now left].
    unfold lookup, Utils.mapStringToEnum. now rewrite Htruthy.
Qed.

Lemma map_outcome_ok (items : list JsVal) :
  forallb (fun v => is_text v || negb (truthy v)) items = true ->
  exists rs,
    Utils.map_outcome (lookup enumObject) items = Ret rs
    /\ List.length rs = List.length items
    /\ forall r, In r rs -> r = JUndefined \/ of_enum enumObject r.
Proof.
  induction items as [|item rest IH]; intros Hitems.
  - exists []. repeat split. intros r [].
  - cbn [forallb] in Hitems. apply andb_true_iff in Hitems as [Hitem Hrest].
    destruct (lookup_ok item Hitem) as (r & Hr & Hfound).
    destruct (IH Hrest) as (rs & Hrs & Hlen & Hall).
    exists (r :: rs). cbn [Utils.map_outcome]. rewrite Hr, Hrs.
    split; [reflexivity|]. split; [simpl; now rewrite Hlen|].
    intros r' [<- | Hin]; auto.
Qed.

Lemma map_outcome_fails (before : list JsVal) (bad : JsVal)
  (after : list JsVal) :
  forallb (fun v => is_text v || negb (truthy v)) before = true ->
  truthy bad = true -> is_text bad = false ->
  Utils.map_outcome (lookup enumObject) (before ++ bad :: after)
  = Throw (TypeError "value.toLowerCase is not a function").
Proof.
  intros Hbefore Htruthy Htext.
  induction before as [|item rest IH].
  - cbn [app Utils.map_outcome]. unfold lookup, Utils.mapStringToEnum.
    rewrite Htruthy. now destruct bad.
  - cbn [forallb] in Hbefore. apply andb_true_iff in Hbefore as [Hitem Hrest].
    destruct (lookup_ok item Hitem) as (r & Hr & _).
    cbn [app Utils.map_outcome]. now rewrite Hr, (IH Hrest).
Qed.

End EnumArray.

(** Looking up an array of names returns the numbers of the names the enum
    has, in the order of the names, and leaves out the rest: the result is
    never longer than the array and never holds [undefined].  A missing
    value gives the empty array.  An element that is neither a text nor
    absent makes the whole lookup throw, whatever the elements around
    it. *)
Theorem enum_array_lookup (H : Host) (enumObject : Utils.EnumObject) :
  (forall items,
     forallb (fun v => is_text v || negb (truthy v)) items = true ->
     exists mapped,
       Utils.mapStringArrayToEnum (JArr items) enumObject = Ret mapped
       /\ List.length mapped <= List.length items
       /\ ~ In JUndefined mapped
       /\ forall r,
            In r mapped ->
            (exists k v, r = JNum v /\ In (k, JNum v) enumObject)
            \/ (exists n, r = JNative n /\ In n object_prototype_members))
  /\ (forall values,
        truthy values = false ->
        Utils.mapStringArrayToEnum values enumObject = Ret [])
  /\ (forall before bad after,
        forallb (fun v => is_text v || negb (truthy v)) before = true ->
        truthy bad = true -> is_text bad = false ->
        Utils.mapStringArrayToEnum (JArr (before ++ bad :: after)) enumObject
        = Throw (TypeError "value.toLowerCase is not a function")).
Proof.
  split; [|split].
  - intros items Hitems.
    destruct (map_outcome_ok enumObject items Hitems) as (rs & Hrs & Hlen & Hall).
    exists (filter Utils.is_defined rs).
    unfold lookup in Hrs.
    unfold Utils.mapStringArrayToEnum. cbn [truthy]. rewrite Hrs.
    split; [reflexivity|]. split; [|split].
    + rewrite <- Hlen. apply filter_length_le.
    + intros Hin. apply filter_In in Hin as [_ Hdef]. discriminate Hdef.
    + intros r Hin. apply filter_In in Hin as [Hin Hdef].
      destruct (Hall r Hin) as [-> | Hfound]; [discriminate Hdef|exact Hfound].
  - intros values Hvalues. unfold Utils.mapStringArrayToEnum.
    now rewrite Hvalues.
  - intros before bad after Hbefore Htruthy Htext.
    unfold Utils.mapStringArrayToEnum. cbn [truthy].
    pose proof (map_outcome_fails enumObject before bad after Hbefore Htruthy
                  Htext) as Hfails.
    unfold lookup in Hfails. now rewrite Hfails.
Qed.

(** ** Markdown values *)

Lemma length_flat_map_ge (c : N) (replacement s : jsstr) :
  replacement <> [] ->
  List.length s
  <= List.length (flat_map (fun d => if N.eqb d c then replacement else [d]) s).
Proof.
  intros Hr. induction s as [|d s IH]; simpl; [lia|].
  rewrite length_app.
  destruct (N.eqb d c); [destruct replacement; [congruence|simpl; lia]|simpl; lia].
Qed.

Lemma replace_all_absent (c : N) (replacement s : jsstr) :
  ~ In c s -> Utils.replace_all c replacement s = s.
Proof.
  unfold Utils.replace_all. induction s as [|d s IH]; simpl; [reflexivity|].
  intros Hc. destruct (N.eqb d c) eqn:E.
  - apply N.eqb_eq in E. subst d. tauto.
  - simpl. f_equal. tauto.
Qed.

Lemma replace_all_outside (c d : N) (replacement s : jsstr) :
  ~ In d replacement -> (d = c \/ ~ In d s) ->
  ~ In d (Utils.replace_all c replacement s).
Proof.
  unfold Utils.replace_all. intros Hr Hs Hin.
  apply in_flat_map in Hin as (x & Hx & Hin).
  destruct (N.eqb x c) eqn:E; [contradiction|].
  destruct Hin as [-> | []].
  destruct Hs as [-> | Hs]; [|contradiction].
  now rewrite N.eqb_refl in E.
Qed.

Lemma encode_fixed (encoded : jsstr) :
  Utils.replace_all 62 (js "&gt;") (Utils.replace_all 60 (js "&lt;") encoded)
  = encoded ->
  Utils.encodeFormattedValue (JStr encoded) (Server.str "Markdown")
  = Ret (JStr encoded).
Proof.
  intros Hfix. unfold Utils.encodeFormattedValue, Server.str.
  rewrite eqb_refl. cbv zeta.
  destruct (truthy (JStr encoded)); cbn [negb orb]; [now rewrite Hfix|reflexivity].
Qed.

(** A value is encoded only for the format [Markdown], spelled so, and only
    when it is not empty: every other format, a missing one too, returns
    the value as it is.  The encoded text has no angle bracket left; a text
    without one is unchanged, so encoding twice is encoding once; the
    ampersand is not encoded, so the encoding of a text does not tell
    whether it held a bracket or the entity already.  A value that is not a
    text makes the encoding throw. *)
Theorem markdown_encoding (value format : JsVal) :
  (format <> Server.str "Markdown" ->
   Utils.encodeFormattedValue value format = Ret value)
  /\ (truthy value = false ->
      Utils.encodeFormattedValue value format = Ret value)
  /\ (forall s,
        value = JStr s -> format = Server.str "Markdown" ->
        exists encoded,
          Utils.encodeFormattedValue value format = Ret (JStr encoded)
          /\ ~ In 60%N encoded /\ ~ In 62%N encoded
          /\ (~ In 60%N s -> ~ In 62%N s -> encoded = s)
          /\ Utils.encodeFormattedValue (JStr encoded) format
             = Ret (JStr encoded)
          /\ List.length s <= List.length encoded)
  /\ (format = Server.str "Markdown" -> truthy value = true ->
      is_text value = false ->
      Utils.encodeFormattedValue value format
      = Throw (TypeError "value.replace is not a function")).
Proof.
  assert (Hencoded :
    forall s,
      let encoded :=
        Utils.replace_all 62 (js "&gt;") (Utils.replace_all 60 (js "&lt;") s) in
      ~ In 60%N encoded /\ ~ In 62%N encoded
      /\ (~ In 60%N s -> ~ In 62%N s -> encoded = s)).
  { intros s encoded. split; [|split].
    - apply replace_all_outside.
      + vm_compute. intuition discriminate.
      + right. apply replace_all_outside; [|now left].
        vm_compute. intuition discriminate.
    - apply replace_all_outside; [|now left].
      vm_compute. intuition discriminate.
    - intros Hlt Hgt. unfold encoded.
      rewrite (replace_all_absent 60 _ s Hlt). now apply replace_all_absent. }
  split; [|split; [|split]].
  - intros Hformat. unfold Utils.encodeFormattedValue. cbv zeta.
    destruct format as [| | | |f| | |]; try now rewrite orb_true_r.
    rewrite eqb_false; [now rewrite orb_true_r|].
    intros ->. now apply Hformat.
  - intros Hvalue. unfold Utils.encodeFormattedValue. now rewrite Hvalue.
  - intros s -> ->.
    destruct (Hencoded s) as (Hlt & Hgt & Hsame).
    exists (Utils.replace_all 62 (js "&gt;") (Utils.replace_all 60 (js "&lt;") s)).
    split.
    { unfold Utils.encodeFormattedValue, Server.str. rewrite eqb_refl.
      cbv zeta. now destruct s. }
    split; [exact Hlt|]. split; [exact Hgt|]. split; [exact Hsame|]. split.
    + apply encode_fixed.
      destruct (Hencoded
                  (Utils.replace_all 62 (js "&gt;")
                     (Utils.replace_all 60 (js "&lt;") s)))
        as (_ & _ & Hagain).
      now apply Hagain.
    + unfold Utils.replace_all.
      etransitivity; [|apply length_flat_map_ge; discriminate].
      apply length_flat_map_ge. discriminate.
  - intros -> Htruthy Htext. unfold Utils.encodeFormattedValue, Server.str.
    rewrite eqb_refl, Htruthy. cbv zeta. cbn [negb orb].
    now destruct value.
Qed.

(** ** The helpers on an enum of three severities *)

Lemma safe_enum_convert_witness :
  (NoDup (map fst severity_enum)
   /\ In (js "High", JNum 2) severity_enum
   /\ Numeric.is_numeric (js "High") = false)
  /\ Utils.safeEnumConvert severity_enum (Server.str "High") = JNum 2
  /\ Utils.safeEnumConvert severity_enum (Server.str "2") = JUndefined
  /\ Utils.getEnumKeys severity_enum = map js ["Low"; "Medium"; "High"].
Proof.
  assert (Hnd : NoDup (map fst severity_enum)).
  { apply (distinct_NoDup JsString.eqb).
    - intros x y ->. apply eqb_refl.
    - reflexivity. }
  assert (Hin : In (js "High", JNum 2) severity_enum).
  { do 5 right. now left. }
  destruct (safe_enum_convert severity_enum)
    as (_ & _ & Hown & Hreverse & Hkeys).
  split; [split; [exact Hnd|split; [exact Hin|reflexivity]]|].
  split; [apply (Hown (js "High") (JNum 2) Hnd Hin eq_refl)|].
  split; [exact (Hreverse 2)|].
  apply (Hkeys [(js "Low", 0); (js "Medium", 1); (js "High", 2)]); reflexivity.
Defined.

Lemma enum_lookup_ignores_case_witness :
  (js "LOW" <> []
   /\ ascii_lower (js "LOW") = ascii_lower (js "Low")
   /\ ascii_lower (js "Low") <> js "__proto__")
  /\ Utils.mapStringToEnum (H := example_host refusing) (Server.str "LOW")
       severity_enum (JNum 7) = Ret (JNum 0)
  /\ Utils.mapStringToEnum (H := example_host refusing) (Server.str "urgent")
       severity_enum (JNum 7) = Ret (JNum 7).
Proof.
  destruct (enum_lookup_ignores_case (example_host refusing) severity_enum
              (JNum 7)) as (Hmember & Hother & _).
  split; [repeat split; discriminate|]. split.
  - apply (Hmember (firstn 3 severity_enum) (js "Low") 0%Z
                   (skipn 4 severity_enum) (js "LOW")).
    + reflexivity.
    + discriminate.
    + reflexivity.
    + discriminate.
    + intros k' v' [Hin | [Hin | []]]; injection Hin as <- _; discriminate.
  - apply (Hother (js "urgent")).
    + intros k v Hin.
      repeat (destruct Hin as [Hin | Hin];
              [injection Hin as <- _; discriminate || discriminate Hin|]).
      contradiction.
    + intros Hin. vm_compute in Hin.
      repeat (destruct Hin as [Hin | Hin]; [discriminate Hin|]).
      contradiction.
Defined.

Lemma enum_array_lookup_witness :
  forallb (fun v => is_text v || negb (truthy v))
    [Server.str "high"; Server.str "urgent"; JNull; Server.str "LOW"] = true
  /\ exists mapped,
       Utils.mapStringArrayToEnum (H := example_host refusing)
         (JArr [Server.str "high"; Server.str "urgent"; JNull; Server.str "LOW"])
         severity_enum = Ret mapped
       /\ List.length mapped <= 4.
Proof.
  split; [reflexivity|].
  destruct (enum_array_lookup (example_host refusing) severity_enum)
    as (Htexts & _).
  destruct (Htexts [Server.str "high"; Server.str "urgent"; JNull;
                    Server.str "LOW"] eq_refl)
    as (mapped & Hmapped & Hlen & _).
  exists mapped. split; [exact Hmapped|exact Hlen].
Defined.

Lemma markdown_encoding_witness :
  exists encoded,
    Utils.encodeFormattedValue (Server.str "a<b> &lt;") (Server.str "Markdown")
    = Ret (JStr encoded)
    /\ ~ In 60%N encoded /\ ~ In 62%N encoded.
Proof.
  destruct (markdown_encoding (Server.str "a<b> &lt;") (Server.str "Markdown"))
    as (_ & _ & Htext & _).
  destruct (Htext (js "a<b> &lt;") eq_refl eq_refl)
    as (encoded & Hencoded & Hlt & Hgt & _).
  exists encoded. split; [exact Hencoded|]. split; [exact Hlt|exact Hgt].
Defined.
